(** * construct: a shallow embedding of [construct/core.py]

    The combinator engine of the [construct] library, embedded as Rocq
    functions: every construct is a record of its three virtual methods
    ([_parse], [_build], [_sizeof]); the methods run in a state-and-exception
    monad over the stream they are handed and the store of [Container]
    objects (contexts are mutable dictionaries passed by reference). *)

From Stdlib Require Import ZArith Lia Bool.
From Stdlib Require Import Strings.Byte Strings.Ascii.
From stdpp Require Import base list strings numbers.

Local Open Scope Z_scope.

(** ** Exceptions *)

(** The exception classes of [core.py] (lines 16-47) together with the
    built-in classes the code raises or lets escape. *)
Inductive error : Type :=
  | Exception
  | LookupError
  | KeyError
  | IndexError
  | ValueError
  | TypeError
  | AssertionError
  | StopIteration
  | PackerError
  | ConstructError
  | FieldError
  | SizeofError
  | AdaptationError
  | ArrayError
  | RangeError
  | SwitchError
  | SelectError
  | TerminatorError
  | OverwriteError
  | PaddingError
  | ConstError
  | StringError
  | ChecksumError
  | ValidationError
  | BitIntegerError
  | MappingError.

#[global] Instance error_eq_dec : EqDecision error.
Proof. solve_decision. Defined.

(** The base class written in each [class] statement.  [PackerError] is
    [struct.error]; the built-in classes follow the interpreter's hierarchy.

    Modelled from the spec: [MappingError] is declared in
    [construct/adapters.py], which is not part of the sources at hand; the
    specification lists it as a subkind of the adaptation error. *)
Definition base (e : error) : option error :=
  match e with
  | Exception => None
  | LookupError => Some Exception
  | KeyError => Some LookupError
  | IndexError => Some LookupError
  | ValueError => Some Exception
  | TypeError => Some Exception
  | AssertionError => Some Exception
  | StopIteration => Some Exception
  | PackerError => Some Exception
  | ConstructError => Some Exception
  | FieldError => Some ConstructError
  | SizeofError => Some ConstructError
  | AdaptationError => Some ConstructError
  | ArrayError => Some ConstructError
  | RangeError => Some ConstructError
  | SwitchError => Some ConstructError
  | SelectError => Some ConstructError
  | TerminatorError => Some ConstructError
  | OverwriteError => Some ValueError
  | PaddingError => Some ConstructError
  | ConstError => Some ConstructError
  | StringError => Some ConstructError
  | ChecksumError => Some ConstructError
  | ValidationError => Some AdaptationError
  | BitIntegerError => Some AdaptationError
  | MappingError => Some AdaptationError
  end.

(** The class itself followed by its chain of bases. *)
Fixpoint mro (depth : nat) (e : error) : list error :=
  match depth with
  | O => []
  | S d => e :: match base e with
                | Some b => mro d b
                | None => []
                end
  end.

(** [issubclass e c]: would [except c] catch an exception of class [e]? *)
Definition issubclass (e c : error) : bool :=
  bool_decide (c ∈ mro 8 e).

(** ** Values *)

(** Addresses of [Container] objects in the store. *)
Abbreviation addr := nat (only parsing).

(** Dictionary keys: the name of a construct, which may be [None]. *)
Definition key := option string.

#[local] Unset Elimination Schemes.

(** Python values that flow through the engine.  A [Container] is a mutable
    object and is held by reference ([VRef]); [VDict] is a dictionary given
    by the caller, which the engine only reads. *)
Inductive value : Type :=
  | VNone
  | VBool (b : bool)
  | VInt (n : Z)
  | VBytes (bs : list byte)
  | VStr (s : string)
  | VTuple (vs : list value)
  | VList (vs : list value)
  | VDict (kvs : list (key * value))
  | VRef (a : addr).

#[local] Set Elimination Schemes.

(** Modelled from the spec: [Container] lives in [construct/lib/container.py],
    which is not part of the sources at hand.  It is an insertion-ordered
    mapping from names to values; [__copy__] makes a new container with the
    same bindings and [__update__] is [dict.update]. *)
Abbreviation Container := (list (key * value)) (only parsing).

Fixpoint Container_get (k : key) (c : Container) : option value :=
  match c with
  | [] => None
  | (k', v) :: c' => if bool_decide (k = k') then Some v else Container_get k c'
  end.

Definition Container_contains (k : key) (c : Container) : bool :=
  match Container_get k c with Some _ => true | None => false end.

(** [c[k] = v]: an existing key keeps its place, a new key goes last. *)
Fixpoint Container_set (k : key) (v : value) (c : Container) : Container :=
  match c with
  | [] => [(k, v)]
  | (k', v') :: c' =>
      if bool_decide (k = k') then (k, v) :: c'
      else (k', v') :: Container_set k v c'
  end.

Fixpoint Container_del (k : key) (c : Container) : Container :=
  match c with
  | [] => []
  | (k', v') :: c' =>
      if bool_decide (k = k') then c' else (k', v') :: Container_del k c'
  end.

(** [c.update(other)] *)
Definition Container_update (c other : Container) : Container :=
  fold_left (fun acc kv => Container_set (fst kv) (snd kv) acc) other c.

(** The store: the container at each address. *)
Abbreviation Heap := (list Container) (only parsing).

(** ** Streams *)

(** [io.BytesIO]: a byte buffer and a cursor. *)
Record BytesIO : Type := mkBytesIO {
  buffer : list byte;
  position : Z
}.

Definition len {A} (l : list A) : Z := Z.of_nat (length l).

Definition BytesIO_new (data : list byte) : BytesIO := mkBytesIO data 0.

Definition BytesIO_tell (s : BytesIO) : Z := position s.

(** [read(n)] for [n >= 0]: the bytes from the cursor, at most [n]. *)
Definition BytesIO_read (n : Z) (s : BytesIO) : list byte * BytesIO :=
  let data := take (Z.to_nat n) (drop (Z.to_nat (position s)) (buffer s)) in
  (data, mkBytesIO (buffer s) (position s + len data)).

(** [read()]: everything from the cursor to the end. *)
Definition BytesIO_read_all (s : BytesIO) : list byte * BytesIO :=
  let data := drop (Z.to_nat (position s)) (buffer s) in
  (data, mkBytesIO (buffer s) (position s + len data)).

(** [write(data)]: an empty write does nothing; a cursor beyond the end
    first fills the gap with zero bytes; the bytes under the cursor are
    overwritten. *)
Definition BytesIO_write (data : list byte) (s : BytesIO) : BytesIO :=
  match data with
  | [] => s
  | _ =>
      let p := Z.to_nat (position s) in
      let padded := buffer s ++ replicate (p - length (buffer s))%nat x00 in
      mkBytesIO (take p padded ++ data ++ drop (p + length data)%nat padded)
                (position s + len data)
  end.

(** [seek(offset, whence)]; [None] is the [ValueError] of a negative
    absolute position or of an unknown [whence]. *)
Definition BytesIO_seek (offset whence : Z) (s : BytesIO) : option BytesIO :=
  if whence =? 0 then
    if offset <? 0 then None else Some (mkBytesIO (buffer s) offset)
  else if whence =? 1 then
    Some (mkBytesIO (buffer s) (Z.max 0 (position s + offset)))
  else if whence =? 2 then
    Some (mkBytesIO (buffer s) (Z.max 0 (len (buffer s) + offset)))
  else None.

(** ** The monad of the virtual methods *)

Record State : Type := mkState {
  stream : BytesIO;
  heap : Heap
}.

Inductive outcome (A : Type) : Type :=
  | Ok (a : A)
  | Raise (e : error).
Arguments Ok {A} a.
Arguments Raise {A} e.

Definition M (A : Type) : Type := State -> outcome A * State.

Definition ret {A} (a : A) : M A := fun s => (Ok a, s).

Definition raise {A} (e : error) : M A := fun s => (Raise e, s).

Definition bind {A B} (m : M A) (k : A -> M B) : M B :=
  fun s => match m s with
           | (Ok a, s') => k a s'
           | (Raise e, s') => (Raise e, s')
           end.

Notation "'do' x <- m ; k" := (bind m (fun x => k))
  (at level 20, x name, m at level 100, k at level 200).
Notation "m >> k" := (bind m (fun _ => k))
  (at level 90, right associativity).

(** [try: m  except cls: handler] *)
Definition try_except {A} (m : M A) (cls : error) (handler : M A) : M A :=
  fun s => match m s with
           | (Ok a, s') => (Ok a, s')
           | (Raise e, s') =>
               if issubclass e cls then handler s' else (Raise e, s')
           end.

(** [try: m  finally: fin] *)
Definition try_finally {A} (m : M A) (fin : M unit) : M A :=
  fun s => match m s with
           | (r, s') => match fin s' with
                        | (Ok _, s'') => (r, s'')
                        | (Raise e, s'') => (Raise e, s'')
                        end
           end.

Definition lift_outcome {A} (r : outcome A) : M A := fun s => (r, s).

(** Stream primitives on the current stream. *)
Definition tell : M Z := fun s => (Ok (BytesIO_tell (stream s)), s).

Definition seek (offset whence : Z) : M unit :=
  fun s => match BytesIO_seek offset whence (stream s) with
           | Some st => (Ok tt, mkState st (heap s))
           | None => (Raise ValueError, s)
           end.

Definition read (n : Z) : M (list byte) :=
  fun s => let '(data, st) := BytesIO_read n (stream s) in
           (Ok data, mkState st (heap s)).

Definition read_all : M (list byte) :=
  fun s => let '(data, st) := BytesIO_read_all (stream s) in
           (Ok data, mkState st (heap s)).

Definition write (data : list byte) : M unit :=
  fun s => (Ok tt, mkState (BytesIO_write data (stream s)) (heap s)).

(** Run [m] against another stream object, leaving the current one alone;
    the finished stream is handed back with the result. *)
Definition with_stream {A} (st : BytesIO) (m : M A) : M (A * BytesIO) :=
  fun s => match m (mkState st (heap s)) with
           | (Ok a, s') => (Ok (a, stream s'), mkState (stream s) (heap s'))
           | (Raise e, s') => (Raise e, mkState (stream s) (heap s'))
           end.

(** Store primitives. *)
Definition new_container (c : Container) : M addr :=
  fun s => (Ok (length (heap s)), mkState (stream s) (heap s ++ [c])).

Definition get_container (a : addr) : M Container :=
  fun s => match heap s !! a with
           | Some c => (Ok c, s)
           | None => (Raise TypeError, s)
           end.

Definition put_container (a : addr) (c : Container) : M unit :=
  fun s => (Ok tt, mkState (stream s) (<[a := c]> (heap s))).

(** [k in context] *)
Definition ctx_contains (ctx : addr) (k : key) : M bool :=
  do c <- get_container ctx; ret (Container_contains k c).

(** [context[k]] *)
Definition ctx_getitem (ctx : addr) (k : key) : M value :=
  do c <- get_container ctx;
  match Container_get k c with
  | Some v => ret v
  | None => raise KeyError
  end.

(** [context[k] = v] *)
Definition ctx_setitem (ctx : addr) (k : key) (v : value) : M unit :=
  do c <- get_container ctx; put_container ctx (Container_set k v c).

(** [del context[k]] *)
Definition ctx_delitem (ctx : addr) (k : key) : M unit :=
  do c <- get_container ctx;
  if Container_contains k c then put_container ctx (Container_del k c)
  else raise KeyError.

(** [context.__copy__()] *)
Definition ctx_copy (ctx : addr) : M addr :=
  do c <- get_container ctx; new_container c.

(** [context.__update__(context2)] *)
Definition ctx_update (ctx ctx2 : addr) : M unit :=
  do c <- get_container ctx;
  do c2 <- get_container ctx2;
  put_container ctx (Container_update c c2).

Definition empty_state : State := mkState (BytesIO_new []) [].

(** Result of a computation started on the empty store. *)
Definition run {A} (m : M A) : outcome A := fst (m empty_state).

(** Binding on constructor results ([__init__] may raise). *)
Definition obind {A B} (r : outcome A) (k : A -> outcome B) : outcome B :=
  match r with
  | Ok a => k a
  | Raise e => Raise e
  end.

Notation "'new' x <- r ; k" := (obind r (fun x => k))
  (at level 20, x name, r at level 100, k at level 200).

(** ** Bytes and integers *)

Definition Z_of_byte (b : byte) : Z := Z.of_N (Byte.to_N b).

Definition byte_of_Z (n : Z) : byte :=
  match Byte.of_N (Z.to_N (n mod 256)) with
  | Some b => b
  | None => x00
  end.

(** [int2byte(i)] is [bytes((i,))]: a [ValueError] outside [range(256)]. *)
Definition int2byte (i : Z) : outcome (list byte) :=
  if (0 <=? i) && (i <? 256) then Ok [byte_of_Z i] else Raise ValueError.

(** [ord(b)] of a byte string of length one. *)
Definition ord (bs : list byte) : outcome Z :=
  match bs with
  | [b] => Ok (Z_of_byte b)
  | _ => Raise TypeError
  end.

(** ** [struct.Struct], imported as [Packer]

    The standard library's [struct], of which the embedding has the
    standard-size integer codes under an explicit byte order.  The other
    codes [struct] accepts (floating point, characters and strings,
    booleans, padding) are outside the embedding: a format with one of
    them is answered with [PackerError] here, so the embedding says
    nothing about formatted fields of those kinds. *)

Inductive endianity : Type := BigEndian | LittleEndian.

Record fieldcode : Type := mkCode {
  code_width : nat;
  code_signed : bool
}.

Definition code_of_ascii (c : Ascii.ascii) : option fieldcode :=
  if Ascii.eqb c "b"%char then Some (mkCode 1 true)
  else if Ascii.eqb c "B"%char then Some (mkCode 1 false)
  else if Ascii.eqb c "h"%char then Some (mkCode 2 true)
  else if Ascii.eqb c "H"%char then Some (mkCode 2 false)
  else if Ascii.eqb c "i"%char then Some (mkCode 4 true)
  else if Ascii.eqb c "I"%char then Some (mkCode 4 false)
  else if Ascii.eqb c "l"%char then Some (mkCode 4 true)
  else if Ascii.eqb c "L"%char then Some (mkCode 4 false)
  else if Ascii.eqb c "q"%char then Some (mkCode 8 true)
  else if Ascii.eqb c "Q"%char then Some (mkCode 8 false)
  else None.

Record Packer : Type := mkPacker {
  packer_order : endianity;
  packer_codes : list fieldcode
}.

Fixpoint codes_of_string (s : string) : option (list fieldcode) :=
  match s with
  | EmptyString => Some []
  | String c s' =>
      match code_of_ascii c, codes_of_string s' with
      | Some fc, Some fcs => Some (fc :: fcs)
      | _, _ => None
      end
  end.

(** [Packer(fmt)]: the first character gives the byte order (["="] is the
    host's order, little-endian on the reference platform). *)
Definition Packer_new (fmt : string) : outcome Packer :=
  match fmt with
  | String c rest =>
      let order :=
        if Ascii.eqb c ">"%char then Some BigEndian
        else if Ascii.eqb c "<"%char then Some LittleEndian
        else if Ascii.eqb c "="%char then Some LittleEndian
        else None in
      match order, codes_of_string rest with
      | Some o, Some fcs => Ok (mkPacker o fcs)
      | _, _ => Raise PackerError
      end
  | EmptyString => Raise PackerError
  end.

Definition Packer_size (p : Packer) : Z :=
  fold_right (fun fc acc => Z.of_nat (code_width fc) + acc) 0 (packer_codes p).

(** The [w] low bytes of [n], least significant first. *)
Fixpoint le_bytes (w : nat) (n : Z) : list byte :=
  match w with
  | O => []
  | S w' => byte_of_Z n :: le_bytes w' (n / 256)
  end.

Fixpoint le_int (bs : list byte) : Z :=
  match bs with
  | [] => 0
  | b :: bs' => Z_of_byte b + 256 * le_int bs'
  end.

Definition code_min (fc : fieldcode) : Z :=
  if code_signed fc then - 2 ^ (8 * Z.of_nat (code_width fc) - 1) else 0.

Definition code_max (fc : fieldcode) : Z :=
  if code_signed fc then 2 ^ (8 * Z.of_nat (code_width fc) - 1) - 1
  else 2 ^ (8 * Z.of_nat (code_width fc)) - 1.

(** The integer an argument of [pack] stands for ([bool] is a subclass of
    [int]). *)
Definition int_of_value (v : value) : option Z :=
  match v with
  | VInt n => Some n
  | VBool b => Some (if b then 1 else 0)
  | _ => None
  end.

Definition pack_field (o : endianity) (fc : fieldcode) (v : value)
  : outcome (list byte) :=
  match int_of_value v with
  | Some n =>
      if (code_min fc <=? n) && (n <=? code_max fc) then
        let bs := le_bytes (code_width fc) n in
        Ok (match o with LittleEndian => bs | BigEndian => rev bs end)
      else Raise PackerError
  | None => Raise PackerError
  end.

Definition unpack_field (o : endianity) (fc : fieldcode) (bs : list byte) : Z :=
  let u := le_int (match o with LittleEndian => bs | BigEndian => rev bs end) in
  if code_signed fc && (2 ^ (8 * Z.of_nat (code_width fc) - 1) <=? u)
  then u - 2 ^ (8 * Z.of_nat (code_width fc)) else u.

Fixpoint pack_fields (o : endianity) (fcs : list fieldcode) (vs : list value)
  : outcome (list byte) :=
  match fcs, vs with
  | [], [] => Ok []
  | fc :: fcs', v :: vs' =>
      new b <- pack_field o fc v;
      new bs <- pack_fields o fcs' vs';
      Ok (b ++ bs)
  | _, _ => Raise PackerError
  end.

(** [packer.pack( *vals )] *)
Definition Packer_pack (p : Packer) (vs : list value) : outcome (list byte) :=
  pack_fields (packer_order p) (packer_codes p) vs.

Fixpoint unpack_fields (o : endianity) (fcs : list fieldcode) (bs : list byte)
  : list Z :=
  match fcs with
  | [] => []
  | fc :: fcs' =>
      unpack_field o fc (take (code_width fc) bs)
        :: unpack_fields o fcs' (drop (code_width fc) bs)
  end.

(** [packer.unpack(data)] *)
Definition Packer_unpack (p : Packer) (bs : list byte) : outcome (list Z) :=
  if len bs =? Packer_size p
  then Ok (unpack_fields (packer_order p) (packer_codes p) bs)
  else Raise PackerError.

(** ** The abstract construct (core.py, lines 54-250) *)

(** The classes [isinstance] is asked about. *)
Inductive pyclass : Type :=
  | ClsStaticField | ClsFormatField | ClsRange | ClsStruct | ClsUnion
  | ClsSelect | ClsPointer | ClsPeek | ClsAnchor | ClsAnchorRange
  | ClsComputed | ClsChecksum | ClsULInt24 | ClsAligned | ClsCString
  | ClsVarInt | ClsOther.

#[global] Instance pyclass_eq_dec : EqDecision pyclass.
Proof. solve_decision. Defined.

Record Construct : Type := mkConstruct {
  cls : pyclass;
  name : option string;
  conflags : Z;
  _parse : addr -> M value;
  _build : value -> addr -> M unit;
  _sizeof : addr -> M Z
}.

Definition FLAG_COPY_CONTEXT : Z := 1.
Definition FLAG_DYNAMIC : Z := 2.
Definition FLAG_EMBED : Z := 4.
Definition FLAG_NESTING : Z := 8.

(** [self.conflags |= flag] *)
Definition _set_flag (flags flag : Z) : Z := Z.lor flags flag.

(** [self.conflags &= ~flag] *)
Definition _clear_flag (flags flag : Z) : Z := Z.land flags (Z.lnot flag).

(** [_inherit_flags( *subcons )] *)
Definition _inherit_flags (flags : Z) (subcons : list Construct) : Z :=
  fold_left (fun acc sc => _set_flag acc (conflags sc)) subcons flags.

(** [bool(self.conflags & flag)] *)
Definition _is_flag (c : Construct) (flag : Z) : bool :=
  negb (Z.land (conflags c) flag =? 0).

(** [a == b] for a text string [a] and a byte string [b]: under Python 3
    the two are never equal. *)
Definition str_eq_bytes (a : string) (b : list byte) : bool := false.

(** [Construct.__init__].  A name is a text string or [None].  The test for
    the reserved names compares with byte strings ([bname == b"_"] and
    [bname[:1] == b"<"], where [bname] is the name itself), so under
    Python 3 it rejects no text name. *)
Definition Construct__init__ (name : option string) : outcome unit :=
  match name with
  | Some bname =>
      if str_eq_bytes bname ["_"%byte]
         || str_eq_bytes (String.substring 0 1 bname) ["<"%byte]
      then Raise ValueError
      else Ok tt
  | None => Ok tt
  end.

(** [parse_stream(stream, context=None)], on the current stream. *)
Definition parse_stream (c : Construct) (context : option addr) : M value :=
  do ctx <- match context with
            | Some a => ret a
            | None => new_container []
            end;
  _parse c ctx.

(** [parse(data, context=None)] *)
Definition parse (c : Construct) (data : list byte) (context : option addr)
  : M value :=
  do r <- with_stream (BytesIO_new data) (parse_stream c context);
  ret (fst r).

(** [build_stream(obj, stream, context=None)], on the current stream. *)
Definition build_stream (c : Construct) (obj : value) (context : option addr)
  : M unit :=
  do ctx <- match context with
            | Some a => ret a
            | None => new_container []
            end;
  _build c obj ctx.

(** [build(obj, context=None)]: the bytes written to a fresh stream. *)
Definition build (c : Construct) (obj : value) (context : option addr)
  : M (list byte) :=
  do r <- with_stream (BytesIO_new []) (build_stream c obj context);
  ret (buffer (snd r)).

(** [sizeof(context=None)] *)
Definition sizeof (c : Construct) (context : option addr) : M Z :=
  do ctx <- match context with
            | Some a => ret a
            | None => new_container []
            end;
  _sizeof c ctx.

(** ** Helper methods (core.py, lines 349-364) *)

Definition _read_stream (length : Z) : M (list byte) :=
  if length <? 0 then raise ValueError
  else
    do data <- read length;
    if negb (len data =? length) then raise FieldError
    else ret data.

(** [len(data)] and [stream.write(data)] on an arbitrary object: only a
    byte string can be written. *)
Definition py_len (data : value) : M Z :=
  match data with
  | VBytes bs => ret (len bs)
  | VStr s => ret (Z.of_nat (String.length s))
  | VTuple vs | VList vs => ret (len vs)
  | VDict kvs => ret (len kvs)
  | VRef a => do c <- get_container a; ret (len c)
  | VNone | VBool _ | VInt _ => raise TypeError
  end.

Definition _write_stream (length : Z) (data : value) : M unit :=
  if length <? 0 then raise ValueError
  else
    do n <- py_len data;
    if negb (n =? length) then raise FieldError
    else match data with
         | VBytes bs => write bs
         | _ => raise TypeError
         end.

(** ** Fields (core.py, lines 371-425) *)

Definition StaticField_parse (length : Z) (ctx : addr) : M value :=
  do data <- _read_stream length; ret (VBytes data).

Definition StaticField_build (length : Z) (obj : value) (ctx : addr) : M unit :=
  do data <- match obj with
             | VInt i => do b <- lift_outcome (int2byte i); ret (VBytes b)
             | VBool b =>
                 do b <- lift_outcome (int2byte (if b then 1 else 0));
                 ret (VBytes b)
             | _ => ret obj
             end;
  _write_stream length data.

Definition StaticField (name : option string) (length : Z) : outcome Construct :=
  new _ <- Construct__init__ name;
  Ok {| cls := ClsStaticField; name := name; conflags := 0;
        _parse := StaticField_parse length;
        _build := StaticField_build length;
        _sizeof := fun _ => ret length |}.

Definition FormatField_parse (packer : Packer) (length : Z) (ctx : addr)
  : M value :=
  try_except
    (do data <- _read_stream length;
     do vals <- lift_outcome (Packer_unpack packer data);
     match vals with
     | v :: _ => ret (VInt v)
     | [] => raise TypeError
     end)
    Exception (raise FieldError).

Definition FormatField_build (packer : Packer) (length : Z)
    (obj : value) (ctx : addr) : M unit :=
  try_except
    (do data <- lift_outcome (Packer_pack packer [obj]);
     _write_stream length (VBytes data))
    Exception (raise FieldError).

Definition FormatField (name : option string) (endianity format : string)
  : outcome Construct :=
  if negb (String.eqb endianity ">" || String.eqb endianity "<"
           || String.eqb endianity "=")
  then Raise ValueError
  else if negb (Z.of_nat (String.length format) =? 1) then Raise ValueError
  else
    new packer <- Packer_new (endianity +:+ format);
    new _ <- Construct__init__ name;
    Ok {| cls := ClsFormatField; name := name; conflags := 0;
          _parse := FormatField_parse packer (Packer_size packer);
          _build := FormatField_build packer (Packer_size packer);
          _sizeof := fun _ => ret (Packer_size packer) |}.

(** ** VarInt (core.py, lines 1892-1924) *)

(** The [while True] loop of [_parse]; every turn reads one byte, so the
    bytes left in the stream bound the number of turns, and the loop is
    entered with one turn more than that: the turns never run out. *)
Fixpoint VarInt_parse_loop (fuel : nat) (acc : Z) : M Z :=
  match fuel with
  | O => raise FieldError
  | S fuel' =>
      do data <- _read_stream 1;
      do b <- lift_outcome (ord data);
      let acc := Z.lor (Z.shiftl acc 7) (Z.land b 127) in
      if Z.land b 128 =? 0 then ret acc
      else VarInt_parse_loop fuel' acc
  end.

Definition bytes_left (s : State) : nat :=
  (length (buffer (stream s)) - Z.to_nat (position (stream s)))%nat.

Definition VarInt_parse (ctx : addr) : M value :=
  fun s => (do acc <- VarInt_parse_loop (S (bytes_left s)) 0; ret (VInt acc)) s.

(** The [while obj > 127] loop of [_build]; [obj] loses seven bits a turn,
    so a turn for every bit of [obj] is more than the loop takes. *)
Fixpoint VarInt_build_loop (fuel : nat) (obj : Z) : M Z :=
  match fuel with
  | O => ret obj
  | S fuel' =>
      if 127 <? obj then
        let b := Z.lor 128 (Z.land obj 127) in
        let obj := Z.shiftr obj 7 in
        do data <- lift_outcome (int2byte b);
        _write_stream 1 (VBytes data) >>
        VarInt_build_loop fuel' obj
      else ret obj
  end.

Definition VarInt_build (obj : value) (ctx : addr) : M unit :=
  match obj with
  | VInt n =>
      if n <? 0 then raise ValueError
      else
        do n <- VarInt_build_loop (Z.to_nat (Z.log2 n)) n;
        do data <- lift_outcome (int2byte n);
        _write_stream 1 (VBytes data)
  | VBool b =>
      do data <- lift_outcome (int2byte (if b then 1 else 0));
      _write_stream 1 (VBytes data)
  | _ => raise TypeError
  end.

Definition VarInt (name : option string) : outcome Construct :=
  new _ <- Construct__init__ name;
  Ok {| cls := ClsVarInt; name := name; conflags := 0;
        _parse := VarInt_parse;
        _build := VarInt_build;
        _sizeof := fun _ => raise SizeofError |}.

(** ** ULInt24 (core.py, lines 1534-1556) *)

Definition ULInt24_parse (packer : Packer) (length : Z) (ctx : addr) : M value :=
  do data <- _read_stream length;
  do vals <- lift_outcome (Packer_unpack packer data);
  match vals with
  | v0 :: v1 :: _ => ret (VInt (v0 + Z.shiftl v1 8))
  | _ => raise TypeError
  end.

Definition ULInt24_build (packer : Packer) (length : Z)
    (obj : value) (ctx : addr) : M unit :=
  do n <- match obj with
          | VInt n => ret n
          | VBool b => ret (if b then 1 else 0)
          | _ => raise TypeError
          end;
  let vals := [VInt (n mod 256); VInt (Z.shiftr n 8)] in
  do data <- lift_outcome (Packer_pack packer vals);
  _write_stream length (VBytes data).

Definition ULInt24 (name : option string) : outcome Construct :=
  new packer <- Packer_new "<BH";
  new _ <- Construct__init__ name;
  Ok {| cls := ClsULInt24; name := name; conflags := 0;
        _parse := ULInt24_parse packer (Packer_size packer);
        _build := ULInt24_build packer (Packer_size packer);
        _sizeof := fun _ => ret (Packer_size packer) |}.

(** ** Python operations on values *)

(** [obj[k]] for a name [k]. *)
Definition py_getitem (obj : value) (k : key) : M value :=
  match obj with
  | VDict kvs =>
      match Container_get k kvs with
      | Some v => ret v
      | None => raise KeyError
      end
  | VRef a => ctx_getitem a k
  | _ => raise TypeError
  end.

(** [isinstance(obj, collections.Sequence)] together with the items that
    [for subobj in obj] yields. *)
Definition as_sequence (obj : value) : option (list value) :=
  match obj with
  | VList vs | VTuple vs => Some vs
  | VBytes bs => Some (map (fun b => VInt (Z_of_byte b)) bs)
  | VStr s =>
      Some (map (fun c => VStr (String c EmptyString)) (String.list_ascii_of_string s))
  | _ => None
  end.

Definition value_of_name (n : option string) : value :=
  match n with
  | Some s => VStr s
  | None => VNone
  end.

(** The items that [for subobj in obj] yields: a dictionary yields its
    keys. *)
Definition py_iter (obj : value) : M (list value) :=
  match obj with
  | VDict kvs => ret (map (fun kv => value_of_name (fst kv)) kvs)
  | VRef a =>
      do c <- get_container a;
      ret (map (fun kv => value_of_name (fst kv)) c)
  | _ =>
      match as_sequence obj with
      | Some items => ret items
      | None => raise TypeError
      end
  end.

(** [sc.name == name] for a name given as a value. *)
Definition name_eq (n : option string) (v : value) : bool :=
  match n, v with
  | Some s, VStr s' => String.eqb s s'
  | None, VNone => true
  | _, _ => false
  end.

(** Python's [try: m  except cls: handler  else: k]. *)
Definition try_except_else {A B} (m : M A) (cls : error)
    (handler : M B) (k : A -> M B) : M B :=
  fun s => match m s with
           | (Ok a, s') => k a s'
           | (Raise e, s') =>
               if issubclass e cls then handler s' else (Raise e, s')
           end.

(** A function of the context supplied by the user, such as
    [lambda ctx: ctx.spam_pointer]. *)
Definition callback (A : Type) : Type := addr -> Heap -> outcome A.

Definition call {A} (f : callback A) (ctx : addr) : M A :=
  fun s => (f ctx (heap s), s).

(** ** Subconstruct (core.py, lines 253-272) *)

(** [Subconstruct.__init__]: the wrapper takes the name and the flags of
    what it wraps. *)
Definition Subconstruct__init__ (subcon : Construct) : outcome unit :=
  Construct__init__ (name subcon).

(** ** Range (core.py, lines 527-623) *)

Section Range.
Variables (mincount maxcount : Z) (subcon : Construct).

Definition iteration_context (ctx : addr) : M addr :=
  if _is_flag subcon FLAG_COPY_CONTEXT then ctx_copy ctx else ret ctx.

(** The [while c < self.maxcount] loop under its [except ConstructError]
    clause; [n] is the number of turns left, [maxcount - c].  The handler
    sees [c], [pos] and [obj] as they are when the exception arrives, and
    leaves the loop. *)
Fixpoint Range_parse_loop (n : nat) (obj : list value) (c : Z)
    (ctx : addr) : M value :=
  match n with
  | O => ret (VList obj)
  | S n' =>
      do pos <- tell;
      do ctx' <- iteration_context ctx;
      try_except_else (_parse subcon ctx') ConstructError
        (if c <? mincount then raise RangeError
         else seek pos 0 >> ret (VList obj))
        (fun v => Range_parse_loop n' (obj ++ [v]) (c + 1) ctx)
  end.

Definition Range_parse (ctx : addr) : M value :=
  Range_parse_loop (Z.to_nat maxcount) [] 0 ctx.

(** The [for subobj in obj] loop under its [except ConstructError]
    clause. *)
Fixpoint Range_build_loop (items : list value) (cnt : Z) (ctx : addr)
    : M unit :=
  match items with
  | [] => ret tt
  | subobj :: items' =>
      do ctx' <- iteration_context ctx;
      try_except_else (_build subcon subobj ctx') ConstructError
        (if cnt <? mincount then raise RangeError else ret tt)
        (fun _ => Range_build_loop items' (cnt + 1) ctx)
  end.

Definition Range_build (obj : value) (ctx : addr) : M unit :=
  match as_sequence obj with
  | None => raise RangeError
  | Some items =>
      if (len items <? mincount) || (maxcount <? len items)
      then raise RangeError
      else Range_build_loop items 0 ctx
  end.

Definition Range : outcome Construct :=
  if negb ((0 <=? mincount) && (mincount <=? maxcount)) then Raise RangeError
  else
    new _ <- Subconstruct__init__ subcon;
    Ok {| cls := ClsRange; name := name subcon;
          conflags := _set_flag (_clear_flag (conflags subcon)
                                   FLAG_COPY_CONTEXT) FLAG_DYNAMIC;
          _parse := Range_parse;
          _build := Range_build;
          _sizeof := fun _ => raise SizeofError |}.
End Range.

(** ** Select (core.py, lines 967-1027) *)

Section Select.
Variable include_name : bool.

Fixpoint Select_parse (subcons : list Construct) (ctx : addr) : M value :=
  match subcons with
  | [] => raise SelectError
  | sc :: subcons' =>
      do fallback <- tell;
      do context2 <- ctx_copy ctx;
      try_except_else (_parse sc context2) ConstructError
        (seek fallback 0 >> Select_parse subcons' ctx)
        (fun obj =>
           ctx_update ctx context2 >>
           if include_name then ret (VTuple [value_of_name (name sc); obj])
           else ret obj)
  end.

Fixpoint Select_build_named (n obj : value) (subcons : list Construct)
    (ctx : addr) : M unit :=
  match subcons with
  | [] => raise SelectError
  | sc :: subcons' =>
      if name_eq (name sc) n then _build sc obj ctx
      else Select_build_named n obj subcons' ctx
  end.

Fixpoint Select_build_first (obj : value) (subcons : list Construct)
    (ctx : addr) : M unit :=
  match subcons with
  | [] => raise SelectError
  | sc :: subcons' =>
      do context2 <- ctx_copy ctx;
      try_except_else (build sc obj (Some context2)) Exception
        (Select_build_first obj subcons' ctx)
        (fun data => ctx_update ctx context2 >> write data)
  end.

(** With names, [name, obj = obj] unpacks any iterable of two items; one
    that is not iterable is a [TypeError], another number of items a
    [ValueError]. *)
Definition Select_build (subcons : list Construct) (obj : value)
    (ctx : addr) : M unit :=
  if include_name then
    do items <- py_iter obj;
    match items with
    | [n; obj] => Select_build_named n obj subcons ctx
    | _ => raise ValueError
    end
  else Select_build_first obj subcons ctx.
End Select.

Definition Select (name : option string) (subcons : list Construct)
    (include_name : bool) : outcome Construct :=
  new _ <- Construct__init__ name;
  Ok {| cls := ClsSelect; name := name;
        conflags := _set_flag (_inherit_flags 0 subcons) FLAG_DYNAMIC;
        _parse := Select_parse include_name subcons;
        _build := Select_build include_name subcons;
        _sizeof := fun _ => raise SizeofError |}.

(** ** Pointer (core.py, lines 1033-1073) *)

Section Pointer.
Variables (offsetfunc : callback Z) (subcon : Construct).

Definition Pointer_parse (ctx : addr) : M value :=
  do newpos <- call offsetfunc ctx;
  do origpos <- tell;
  seek newpos (if newpos <? 0 then 2 else 0) >>
  do obj <- _parse subcon ctx;
  seek origpos 0 >>
  ret obj.

Definition Pointer_build (obj : value) (ctx : addr) : M unit :=
  do newpos <- call offsetfunc ctx;
  do origpos <- tell;
  seek newpos (if newpos <? 0 then 2 else 0) >>
  _build subcon obj ctx >>
  seek origpos 0.

Definition Pointer : outcome Construct :=
  new _ <- Subconstruct__init__ subcon;
  Ok {| cls := ClsPointer; name := name subcon; conflags := conflags subcon;
        _parse := Pointer_parse;
        _build := Pointer_build;
        _sizeof := fun _ => ret 0 |}.
End Pointer.

(** ** Peek (core.py, lines 1076-1118) *)

Section Peek.
Variables (subcon : Construct) (performbuild : bool).

Definition Peek_parse (ctx : addr) : M value :=
  do pos <- tell;
  try_finally
    (try_except (_parse subcon ctx) FieldError (ret VNone))
    (seek pos 0).

(** The bare [except:] catches every exception, restores the position
    and raises it again. *)
Definition Peek_build (obj : value) (ctx : addr) : M unit :=
  if performbuild then
    do pos <- tell;
    fun s => match _build subcon obj ctx s with
             | (Ok _, s') => (Ok tt, s')
             | (Raise e, s') => (seek pos 0 >> raise e) s'
             end
  else ret tt.

Definition Peek : outcome Construct :=
  new _ <- Subconstruct__init__ subcon;
  Ok {| cls := ClsPeek; name := name subcon; conflags := conflags subcon;
        _parse := Peek_parse;
        _build := Peek_build;
        _sizeof := _sizeof subcon |}.
End Peek.

(** ** Union (core.py, lines 889-964) *)

Definition _subobj (sc : Construct) (obj : value) : M value :=
  if _is_flag sc FLAG_EMBED then ret obj else py_getitem obj (name sc).

(** The pairs that [dict.update] accepts from a sequence. *)
Fixpoint pairs_of_sequence (vs : list value) : option Container :=
  match vs with
  | [] => Some []
  | (VTuple [k; v] | VList [k; v]) :: vs' =>
      match k, pairs_of_sequence vs' with
      | VStr s, Some c => Some ((Some s, v) :: c)
      | VNone, Some c => Some ((None, v) :: c)
      | _, _ => None
      end
  | _ => None
  end.

Definition _updcon (con : addr) (sc : Construct) (obj : value) : M unit :=
  if _is_flag sc FLAG_EMBED then
    match obj with
    | VRef b => ctx_update con b
    | VDict kvs =>
        do c <- get_container con; put_container con (Container_update c kvs)
    | VList vs | VTuple vs =>
        match pairs_of_sequence vs with
        | Some kvs =>
            do c <- get_container con;
            put_container con (Container_update c kvs)
        | None => raise TypeError
        end
    | _ => raise TypeError
    end
  else ctx_setitem con (name sc) obj.

(** The [buildfrom] keyword: absent, an index, a name, or something else. *)
Inductive buildfrom_arg : Type :=
  | BuildFromNone
  | BuildFromIndex (i : Z)
  | BuildFromName (s : string)
  | BuildFromOther.

(** [l[i]] with Python's negative indices. *)
Definition py_index {A} (l : list A) (i : Z) : outcome A :=
  let j := if i <? 0 then len l + i else i in
  if j <? 0 then Raise IndexError
  else match l !! Z.to_nat j with
       | Some x => Ok x
       | None => Raise IndexError
       end.

Section Union.
Variable buildfrom : buildfrom_arg.

Fixpoint Union_parse_loop (ret_ : addr) (subcons : list Construct)
    (ctx : addr) : M unit :=
  match subcons with
  | [] => ret tt
  | sc :: subcons' =>
      do obj <- _parse sc ctx;
      _updcon ret_ sc obj >>
      Union_parse_loop ret_ subcons' ctx
  end.

Definition Union_parse (subcons : list Construct) (ctx : addr) : M value :=
  do ret_ <- new_container [];
  Union_parse_loop ret_ subcons ctx >>
  ret (VRef ret_).

Fixpoint Union_build_first (obj : value) (subcons : list Construct)
    (ctx : addr) : M unit :=
  match subcons with
  | [] => raise SelectError
  | sc :: subcons' =>
      try_except_else
        (do subobj <- _subobj sc obj; build sc subobj (Some ctx)) Exception
        (Union_build_first obj subcons' ctx)
        (fun data => write data)
  end.

Definition Union_build (subcons : list Construct) (obj : value)
    (ctx : addr) : M unit :=
  match buildfrom with
  | BuildFromIndex index =>
      do sc <- lift_outcome (py_index subcons index);
      do subobj <- _subobj sc obj;
      _build sc subobj ctx
  | BuildFromName n =>
      match filter (fun sc => name sc = Some n) subcons with
      | sc :: _ => do subobj <- _subobj sc obj; _build sc subobj ctx
      | [] => raise StopIteration
      end
  | BuildFromOther => raise TypeError
  | BuildFromNone => Union_build_first obj subcons ctx
  end.

(** [[sc._sizeof(context) for sc in self.subcons]] *)
Fixpoint sizes_of (subcons : list Construct) (ctx : addr) : M (list Z) :=
  match subcons with
  | [] => ret []
  | sc :: subcons' =>
      do n <- _sizeof sc ctx;
      do ns <- sizes_of subcons' ctx;
      ret (n :: ns)
  end.

(** [max] of a list; the empty list is a [ValueError]. *)
Definition py_max (ns : list Z) : outcome Z :=
  match ns with
  | [] => Raise ValueError
  | n :: ns' => Ok (fold_left Z.max ns' n)
  end.

Definition Union_sizeof (subcons : list Construct) (ctx : addr) : M Z :=
  do ns <- sizes_of subcons ctx;
  lift_outcome (py_max ns).
End Union.

(** [[Peek(sc, performbuild=True) for sc in subcons]] *)
Fixpoint peek_all (subcons : list Construct) : outcome (list Construct) :=
  match subcons with
  | [] => Ok []
  | sc :: subcons' =>
      new p <- Peek sc true;
      new ps <- peek_all subcons';
      Ok (p :: ps)
  end.

Definition Union (name : option string) (subcons : list Construct)
    (buildfrom : buildfrom_arg) : outcome Construct :=
  new _ <- Construct__init__ name;
  new args <- peek_all subcons;
  Ok {| cls := ClsUnion; name := name; conflags := 0;
        _parse := Union_parse args;
        _build := Union_build buildfrom args;
        _sizeof := Union_sizeof args |}.

(** ** Struct (core.py, lines 690-761) *)

(** [k in obj] and [obj[k] = v] on the container a struct fills. *)
Definition obj_contains (obj : value) (k : key) : M bool :=
  match obj with
  | VRef a => ctx_contains a k
  | _ => raise TypeError
  end.

Definition obj_setitem (obj : value) (k : key) (v : value) : M unit :=
  match obj with
  | VRef a => ctx_setitem a k v
  | _ => raise TypeError
  end.

Section Struct.
Variables (nested allow_overwrite : bool).

Definition Struct_parse_sub (obj : value) (ctx : addr) (sc : Construct)
    : M unit :=
  if _is_flag sc FLAG_EMBED then
    ctx_setitem ctx (Some "<obj>") obj >>
    _parse sc ctx >>
    do still <- ctx_contains ctx (Some "<obj>");
    if still then ctx_delitem ctx (Some "<obj>") else ret tt
  else
    do subobj <- _parse sc ctx;
    match name sc with
    | Some n =>
        do present <- obj_contains obj (Some n);
        if present && negb allow_overwrite then raise OverwriteError
        else
          obj_setitem obj (Some n) subobj >>
          ctx_setitem ctx (Some n) subobj
    | None => ret tt
    end.

Fixpoint Struct_parse_loop (obj : value) (ctx : addr)
    (subcons : list Construct) : M unit :=
  match subcons with
  | [] => ret tt
  | sc :: subcons' =>
      Struct_parse_sub obj ctx sc >> Struct_parse_loop obj ctx subcons'
  end.

Definition Struct_parse (subcons : list Construct) (ctx : addr) : M value :=
  do given <- ctx_contains ctx (Some "<obj>");
  do oc <- (if given then
              do obj <- ctx_getitem ctx (Some "<obj>");
              ctx_delitem ctx (Some "<obj>") >>
              ret (obj, ctx)
            else
              do a <- new_container [];
              if nested then
                do inner <- new_container [(Some "_", VRef ctx)];
                ret (VRef a, inner)
              else ret (VRef a, ctx));
  Struct_parse_loop (fst oc) (snd oc) subcons >>
  ret (fst oc).

Definition is_valueless (sc : Construct) : bool :=
  bool_decide (cls sc ∈ [ClsComputed; ClsAnchor; ClsAnchorRange; ClsChecksum]).

Definition Struct_build_sub (obj : value) (ctx : addr) (sc : Construct)
    : M unit :=
  do subobj <-
    (if _is_flag sc FLAG_EMBED then
       ctx_setitem ctx (Some "<unnested>") (VBool true) >> ret obj
     else match name sc with
          | None => ret VNone
          | Some n =>
              if is_valueless sc then ret VNone
              else
                do subobj <- py_getitem obj (Some n);
                ctx_setitem ctx (Some n) subobj >> ret subobj
          end);
  _build sc subobj ctx.

Fixpoint Struct_build_loop (obj : value) (ctx : addr)
    (subcons : list Construct) : M unit :=
  match subcons with
  | [] => ret tt
  | sc :: subcons' =>
      Struct_build_sub obj ctx sc >> Struct_build_loop obj ctx subcons'
  end.

Definition Struct_build (subcons : list Construct) (obj : value)
    (ctx : addr) : M unit :=
  do unnested <- ctx_contains ctx (Some "<unnested>");
  do ctx' <- (if unnested then ctx_delitem ctx (Some "<unnested>") >> ret ctx
              else if nested then new_container [(Some "_", VRef ctx)]
              else ret ctx);
  Struct_build_loop obj ctx' subcons.

(** [sum(sc._sizeof(context) for sc in self.subcons)] *)
Fixpoint Struct_sizeof (subcons : list Construct) (ctx : addr) : M Z :=
  match subcons with
  | [] => ret 0
  | sc :: subcons' =>
      do n <- _sizeof sc ctx;
      do m <- Struct_sizeof subcons' ctx;
      ret (n + m)
  end.
End Struct.

Definition Struct (name : option string) (subcons : list Construct)
    (nested allow_overwrite : bool) : outcome Construct :=
  new _ <- Construct__init__ name;
  Ok {| cls := ClsStruct; name := name;
        conflags := _clear_flag (_inherit_flags 0 subcons) FLAG_EMBED;
        _parse := Struct_parse nested allow_overwrite subcons;
        _build := Struct_build nested subcons;
        _sizeof := Struct_sizeof subcons |}.

(** ** Aligned (core.py, lines 1603-1655) *)

Section Aligned.
Variables (subcon : Construct) (modulus : Z) (pattern : list byte).

Definition Aligned_parse (ctx : addr) : M value :=
  do position1 <- tell;
  do obj <- _parse subcon ctx;
  do position2 <- tell;
  let pad := (- (position2 - position1)) mod modulus in
  _read_stream pad >>
  ret obj.

Definition Aligned_build (obj : value) (ctx : addr) : M unit :=
  do position1 <- tell;
  _build subcon obj ctx >>
  do position2 <- tell;
  let pad := (- (position2 - position1)) mod modulus in
  _write_stream pad (VBytes (concat (replicate (Z.to_nat pad) pattern))).

Definition Aligned_sizeof (ctx : addr) : M Z :=
  _sizeof subcon ctx.

Definition Aligned : outcome Construct :=
  if modulus <? 2 then Raise ValueError
  else if negb (len pattern =? 1) then Raise PaddingError
  else
    new _ <- Construct__init__ (name subcon);
    Ok {| cls := ClsAligned; name := name subcon; conflags := 0;
          _parse := Aligned_parse;
          _build := Aligned_build;
          _sizeof := Aligned_sizeof |}.
End Aligned.

(** ** Strings (core.py, lines 1695-1857) *)

(** A text codec: [encode] and [decode] on values. *)
Record Codec : Type := mkCodec {
  codec_encode : value -> outcome value;
  codec_decode : value -> outcome value
}.

Definition _encode_string (obj : value) (encoding : option Codec)
  : outcome value :=
  match encoding with
  | Some codec => codec_encode codec obj
  | None =>
      match obj with
      | VBytes _ => Ok obj
      | _ => Raise StringError
      end
  end.

Definition _decode_string (obj : value) (encoding : option Codec)
  : outcome value :=
  match encoding with
  | Some codec => codec_decode codec obj
  | None => Ok obj
  end.

#[global] Instance byte_eq_dec : EqDecision byte := Byte.byte_eq_dec.

(** [sub in data] on byte strings: [sub] occurs as a contiguous slice. *)
Fixpoint bytes_startswith (sub data : list byte) : bool :=
  match sub, data with
  | [], _ => true
  | b :: sub', d :: data' => bool_decide (b = d) && bytes_startswith sub' data'
  | _ :: _, [] => false
  end.

Fixpoint bytes_contains (sub data : list byte) : bool :=
  bytes_startswith sub data ||
  match data with
  | [] => false
  | _ :: data' => bytes_contains sub data'
  end.

Section CString.
Variables (terminators : list byte) (encoding : option Codec).

(** The [while True] loop of [_parse]; every turn reads one byte, so the
    bytes left in the stream bound the number of turns, and the loop is
    entered with one turn more than that: the turns never run out. *)
Fixpoint CString_parse_loop (fuel : nat) (obj : list byte)
    : M (list byte) :=
  match fuel with
  | O => raise FieldError
  | S fuel' =>
      do char <- _read_stream 1;
      if bytes_contains char terminators then ret obj
      else CString_parse_loop fuel' (obj ++ char)
  end.

Definition CString_parse (ctx : addr) : M value :=
  fun s =>
    (do obj <- CString_parse_loop (S (bytes_left s)) [];
     lift_outcome (_decode_string (VBytes obj) encoding)) s.

Definition CString_build (obj : value) (ctx : addr) : M unit :=
  do obj <- lift_outcome (_encode_string obj encoding);
  match obj with
  | VBytes bs =>
      let bs := bs ++ take 1 terminators in
      _write_stream (len bs) (VBytes bs)
  | _ => raise TypeError
  end.

Definition CString (name : option string) : outcome Construct :=
  if len terminators <? 1 then Raise ValueError
  else
    new _ <- Construct__init__ name;
    Ok {| cls := ClsCString; name := name; conflags := 0;
          _parse := CString_parse;
          _build := CString_build;
          _sizeof := fun _ => raise SizeofError |}.
End CString.

(** ** Running a method on given bytes *)

(** Modelled from the spec: the macros [UBInt8], [UBInt16] and [UBInt32]
    live in [construct/macros.py], which is not part of the sources at hand;
    they are the unsigned big-endian formatted integers of one, two and four
    bytes. *)
Definition UBInt8 (name : option string) := FormatField name ">" "B".
Definition UBInt16 (name : option string) := FormatField name ">" "H".
Definition UBInt32 (name : option string) := FormatField name ">" "L".

(** The state in which a method starts on a stream over [data], with the
    empty context at address 0. *)
Definition start (data : list byte) : State :=
  mkState (BytesIO_new data) [[]].

Definition result {A} (r : outcome A * State) : outcome A := fst r.

Definition final_position {A} (r : outcome A * State) : Z :=
  position (stream (snd r)).

(** ** Notions used to state the properties *)

(** Caught by [except ConstructError]. *)
Definition construct_error (e : error) : Prop :=
  issubclass e ConstructError = true.

(** The kinds declared directly under the root. *)
Definition root_children : list error :=
  [FieldError; SizeofError; AdaptationError; ArrayError; RangeError;
   SwitchError; SelectError; TerminatorError; PaddingError; ConstError;
   StringError; ChecksumError].

(** The subkinds of the adaptation error. *)
Definition adaptation_children : list error :=
  [ValidationError; MappingError; BitIntegerError].

(** Decoding of base-128 groups, least significant group first. *)
Fixpoint lsb_groups_value (bs : list byte) : Z :=
  match bs with
  | [] => 0
  | b :: bs' => Z_of_byte b mod 128 + 128 * lsb_groups_value bs'
  end.

(** The continuation bit is set on every byte but the last. *)
Fixpoint continuation_bits_ok (bs : list byte) : Prop :=
  match bs with
  | [] => False
  | [b] => Z_of_byte b < 128
  | b :: bs' => 128 <= Z_of_byte b /\ continuation_bits_ok bs'
  end.

(** Where [stream.seek(newpos, 2 if newpos < 0 else 0)] puts the cursor. *)
Definition pointer_target (newpos : Z) (st : BytesIO) : BytesIO :=
  mkBytesIO (buffer st)
    (if newpos <? 0 then Z.max 0 (len (buffer st) + newpos) else newpos).

Section RangeRuns.
Variables (subcon : Construct) (ctx : addr).

(** [parses s vs s']: starting in [s], the body of the parsing loop of
    [Range] succeeds once for each item of [vs], in turn, and leaves the
    state [s']. *)
Inductive parses : State -> list value -> State -> Prop :=
  | parses_nil s : parses s [] s
  | parses_cons s ctx' s0 v s1 vs s2 :
      iteration_context subcon ctx s = (Ok ctx', s0) ->
      _parse subcon ctx' s0 = (Ok v, s1) ->
      parses s1 vs s2 ->
      parses s (v :: vs) s2.

(** [builds s items s']: starting in [s], the body of the building loop of
    [Range] builds each of [items], in turn, and leaves the state [s']. *)
Inductive builds : State -> list value -> State -> Prop :=
  | builds_nil s : builds s [] s
  | builds_cons s ctx' s0 x u s1 xs s2 :
      iteration_context subcon ctx s = (Ok ctx', s0) ->
      _build subcon x ctx' s0 = (Ok u, s1) ->
      builds s1 xs s2 ->
      builds s (x :: xs) s2.
End RangeRuns.

(** The state in which a subconstruct of [Select] runs: the store has the
    private copy [c] of the context at its first free address. *)
Definition private_copy (s : State) (c : Container) : State :=
  mkState (stream s) (heap s ++ [c]).

(** The state in which the next subconstruct is tried after a failure that
    left [s1]: the cursor is back at [pos]. *)
Definition rewound (pos : Z) (s1 : State) : State :=
  mkState (mkBytesIO (buffer (stream s1)) pos) (heap s1).

(** The containers a value refers to, directly or within a tuple, a list
    or a dictionary. *)
Fixpoint refs (v : value) : list addr :=
  match v with
  | VRef a => [a]
  | VTuple vs | VList vs => concat (map refs vs)
  | VDict kvs => concat (map (fun kv => refs (snd kv)) kvs)
  | _ => []
  end.

(** [within W c]: what the container [c] holds refers to containers in [W]
    only. *)
Definition within (W : addr -> Prop) (c : Container) : Prop :=
  forall k v x, (k, v) ∈ c -> x ∈ refs v -> W x.

(** [closed W h]: in the store [h], the containers at the addresses in [W]
    refer to containers in [W] only. *)
Definition closed (W : addr -> Prop) (h : Heap) : Prop :=
  forall a c k v x,
    W a -> h !! a = Some c -> (k, v) ∈ c -> x ∈ refs v -> W x.

(** [region W h]: [W] is a part of the store closed under reference that
    takes in every container yet to be made. *)
Definition region (W : addr -> Prop) (h : Heap) : Prop :=
  (forall x, (length h <= x)%nat -> W x) /\ closed W h.

(** [keeps_to W m Q]: started in a store of which [W] is a region, [m]
    makes containers but removes none, leaves the containers outside [W]
    as they are and [W] closed, and what it returns satisfies [Q]. *)
Definition keeps_to {A} (W : addr -> Prop) (m : M A) (Q : A -> Prop)
  : Prop :=
  forall s,
    region W (heap s) ->
    (length (heap s) <= length (heap (snd (m s))))%nat /\
    (forall x, ~ W x -> heap (snd (m s)) !! x = heap s !! x) /\
    closed W (heap (snd (m s))) /\
    (forall a, fst (m s) = Ok a -> Q a).

(** [confined sc]: when it parses, [sc] reaches the store only through
    the context it is handed.  Whatever region of the store holds that
    context, [sc] keeps to it, whether it returns or raises, and what it
    returns refers into the region only. *)
Definition confined (sc : Construct) : Prop :=
  forall (W : addr -> Prop) (a : addr),
    W a ->
    keeps_to W (_parse sc a) (fun v => forall x, x ∈ refs v -> W x).

(** [detached ctx h]: the container at [ctx] cannot be reached from its own
    bindings: what they refer to lies in a region of the store that does
    not hold [ctx]. *)
Definition detached (ctx : addr) (h : Heap) : Prop :=
  exists W : addr -> Prop,
    ~ W ctx /\ region W h /\
    (forall c k v x, h !! ctx = Some c -> (k, v) ∈ c -> x ∈ refs v -> W x).

Section SelectRuns.
Variable ctx : addr.

(** [rejected pre s s']: tried in turn from [s] the way [Select] tries
    them, each of [pre] raises an error of the root kind; [s'] is the
    state in which the subconstruct after [pre] is tried. *)
Inductive rejected : list Construct -> State -> State -> Prop :=
  | rejected_nil s : rejected [] s s
  | rejected_cons sc rest s c e s1 s2 :
      heap s !! ctx = Some c ->
      _parse sc (length (heap s)) (private_copy s c) = (Raise e, s1) ->
      construct_error e ->
      rejected rest (rewound (position (stream s)) s1) s2 ->
      rejected (sc :: rest) s s2.
End SelectRuns.

(** * More of [core.py] *)

(** ** py3compat.py (lines 13-19) *)

(** [byte2int(b)] is [ord(b)]. *)
Definition byte2int (b : list byte) : outcome Z := ord b.

(** ** Iteration and lengths of Python objects *)

(** An integer handed over as a value; anything else is a [TypeError]. *)
Definition expect_int (v : value) : M Z :=
  match int_of_value v with
  | Some n => ret n
  | None => raise TypeError
  end.

(** A length given as an integer or as a function of the context:
    [self.length(context) if callable(self.length) else self.length]. *)
Inductive length_arg : Type :=
  | LengthInt (n : Z)
  | LengthFunc (f : callback Z).

Definition resolve_length (length : length_arg) (ctx : addr) : M Z :=
  match length with
  | LengthInt n => ret n
  | LengthFunc f => call f ctx
  end.

(** ** Adapters (core.py, lines 275-325) *)

Section Adapter.
Variables (subcon : Construct) (_decode _encode : value -> callback value).

Definition Adapter_parse (ctx : addr) : M value :=
  do obj <- _parse subcon ctx;
  call (_decode obj) ctx.

Definition Adapter_build (obj : value) (ctx : addr) : M unit :=
  do obj <- call (_encode obj) ctx;
  _build subcon obj ctx.

Definition Adapter : outcome Construct :=
  new _ <- Subconstruct__init__ subcon;
  Ok {| cls := ClsOther; name := name subcon; conflags := conflags subcon;
        _parse := Adapter_parse;
        _build := Adapter_build;
        _sizeof := _sizeof subcon |}.
End Adapter.

(** [SymmetricAdapter]: the one [_decode] serves both ways. *)
Definition SymmetricAdapter (subcon : Construct)
    (_decode : value -> callback value) : outcome Construct :=
  Adapter subcon _decode _decode.

(** [Validator._decode] *)
Definition Validator_decode (_validate : value -> callback bool)
    (obj : value) : callback value :=
  fun ctx h =>
    match _validate obj ctx h with
    | Ok true => Ok obj
    | Ok false => Raise ValidationError
    | Raise e => Raise e
    end.

Definition Validator (subcon : Construct) (_validate : value -> callback bool)
  : outcome Construct :=
  SymmetricAdapter subcon (Validator_decode _validate).

(** ** MetaField and GreedyBytes (core.py, lines 428-470) *)

Definition MetaField_parse (lengthfunc : callback Z) (ctx : addr) : M value :=
  do length <- call lengthfunc ctx;
  do data <- _read_stream length;
  ret (VBytes data).

Definition MetaField_build (lengthfunc : callback Z) (obj : value) (ctx : addr)
  : M unit :=
  do length <- call lengthfunc ctx;
  _write_stream length obj.

Definition MetaField (name : option string) (lengthfunc : callback Z)
  : outcome Construct :=
  new _ <- Construct__init__ name;
  Ok {| cls := ClsOther; name := name; conflags := _set_flag 0 FLAG_DYNAMIC;
        _parse := MetaField_parse lengthfunc;
        _build := MetaField_build lengthfunc;
        _sizeof := call lengthfunc |}.

Definition GreedyBytes_parse (ctx : addr) : M value :=
  do data <- read_all; ret (VBytes data).

(** [stream.write(obj)]: only a byte string can be written. *)
Definition GreedyBytes_build (obj : value) (ctx : addr) : M unit :=
  match obj with
  | VBytes bs => write bs
  | _ => raise TypeError
  end.

Definition GreedyBytes (name : option string) : outcome Construct :=
  new _ <- Construct__init__ name;
  Ok {| cls := ClsOther; name := name; conflags := 0;
        _parse := GreedyBytes_parse;
        _build := GreedyBytes_build;
        _sizeof := fun _ => raise SizeofError |}.

(** ** MetaArray (core.py, lines 476-524) *)

Section MetaArray.
Variables (countfunc : callback Z) (subcon : Construct).

(** The [while c < count] loop under its [except ConstructError] clause;
    [n] is the number of turns left. *)
Fixpoint MetaArray_parse_loop (n : nat) (obj : list value) (ctx : addr)
    : M value :=
  match n with
  | O => ret (VList obj)
  | S n' =>
      do ctx' <- iteration_context subcon ctx;
      try_except_else (_parse subcon ctx') ConstructError
        (raise ArrayError)
        (fun v => MetaArray_parse_loop n' (obj ++ [v]) ctx)
  end.

Definition MetaArray_parse (ctx : addr) : M value :=
  do count <- call countfunc ctx;
  MetaArray_parse_loop (Z.to_nat count) [] ctx.

Fixpoint MetaArray_build_loop (items : list value) (ctx : addr) : M unit :=
  match items with
  | [] => ret tt
  | subobj :: items' =>
      do ctx' <- iteration_context subcon ctx;
      _build subcon subobj ctx' >>
      MetaArray_build_loop items' ctx
  end.

Definition MetaArray_build (obj : value) (ctx : addr) : M unit :=
  do count <- call countfunc ctx;
  do n <- py_len obj;
  if negb (n =? count) then raise ArrayError
  else
    do items <- py_iter obj;
    MetaArray_build_loop items ctx.

Definition MetaArray_sizeof (ctx : addr) : M Z :=
  do size <- _sizeof subcon ctx;
  do count <- call countfunc ctx;
  ret (size * count).

Definition MetaArray : outcome Construct :=
  new _ <- Subconstruct__init__ subcon;
  Ok {| cls := ClsOther; name := name subcon;
        conflags := _set_flag (_clear_flag (conflags subcon)
                                 FLAG_COPY_CONTEXT) FLAG_DYNAMIC;
        _parse := MetaArray_parse;
        _build := MetaArray_build;
        _sizeof := MetaArray_sizeof |}.
End MetaArray.

(** ** RepeatUntil (core.py, lines 627-684) *)

Section RepeatUntil.
Variables (predicate : value -> callback bool) (subcon : Construct).

(** The [while True] loop of [_parse] under its [except ConstructError]
    clause, which also covers the call of the predicate.  The loop has no
    bound of its own (the subconstruct need not consume anything), so the
    number of turns is a parameter; [None] is the loop cut short. *)
Fixpoint RepeatUntil_parse_loop (turns : nat) (obj : list value) (ctx : addr)
    : M (option value) :=
  match turns with
  | O => ret None
  | S turns' =>
      do ctx' <- iteration_context subcon ctx;
      try_except_else
        (do subobj <- _parse subcon ctx';
         do stop <- call (predicate subobj) ctx;
         ret (subobj, stop))
        ConstructError
        (raise ArrayError)
        (fun r =>
           if snd r then ret (Some (VList (obj ++ [fst r])))
           else RepeatUntil_parse_loop turns' (obj ++ [fst r]) ctx)
  end.

Definition RepeatUntil_parse (turns : nat) (ctx : addr) : M (option value) :=
  RepeatUntil_parse_loop turns [] ctx.

(** The [for subobj in obj] loop of [_build]; both of its branches hand a
    copy of the context to the subconstruct.  The result is [terminated]. *)
Fixpoint RepeatUntil_build_loop (items : list value) (ctx : addr) : M bool :=
  match items with
  | [] => ret false
  | subobj :: items' =>
      do ctx' <- ctx_copy ctx;
      _build subcon subobj ctx' >>
      do stop <- call (predicate subobj) ctx;
      if stop then ret true
      else RepeatUntil_build_loop items' ctx
  end.

Definition RepeatUntil_build (obj : value) (ctx : addr) : M unit :=
  do items <- py_iter obj;
  do terminated <- RepeatUntil_build_loop items ctx;
  if negb terminated then raise ArrayError else ret tt.
End RepeatUntil.

(** ** Anchor, AnchorRange and Computed (core.py, lines 1265-1383) *)

Definition Anchor_parse (name : option string) (ctx : addr) : M value :=
  do position <- tell;
  ctx_setitem ctx name (VInt position) >>
  ret (VInt position).

Definition Anchor_build (name : option string) (obj : value) (ctx : addr)
  : M unit :=
  do position <- tell;
  ctx_setitem ctx name (VInt position).

Definition Anchor (name : option string) : outcome Construct :=
  new _ <- Construct__init__ name;
  Ok {| cls := ClsAnchor; name := name; conflags := 0;
        _parse := Anchor_parse name;
        _build := Anchor_build name;
        _sizeof := fun _ => ret 0 |}.

(** Modelled from the spec: [Container(offset1=a)(offset2=b)(length=c)]
    uses the constructor and the call operator of [Container]
    ([construct/lib/container.py], not part of the sources at hand); as the
    docstrings of [core.py] write containers, each call adds its binding
    and gives the container back, so the new container holds the three
    keys in this order.  The difference [offset2 - offset1] is taken when
    the third call is made. *)
Definition anchor_range (offset1 : value) (offset2 : Z) : M value :=
  do a <- new_container [(Some "offset1"%string, offset1)];
  ctx_setitem a (Some "offset2"%string) (VInt offset2) >>
  do o1 <- expect_int offset1;
  ctx_setitem a (Some "length"%string) (VInt (offset2 - o1)) >>
  ret (VRef a).

Definition AnchorRange_parse (name : option string) (ctx : addr) : M value :=
  do position <- tell;
  do seen <- ctx_contains ctx name;
  if negb seen then
    ctx_setitem ctx name (VInt position) >>
    ret (VInt position)
  else
    do offset1 <- ctx_getitem ctx name;
    do obj <- anchor_range offset1 position;
    ctx_setitem ctx name obj >>
    ret obj.

Definition AnchorRange_build (name : option string) (obj : value) (ctx : addr)
  : M unit :=
  do position <- tell;
  do seen <- ctx_contains ctx name;
  if negb seen then ctx_setitem ctx name (VInt position)
  else
    do offset1 <- ctx_getitem ctx name;
    do obj <- anchor_range offset1 position;
    ctx_setitem ctx name obj.

Definition AnchorRange (name : option string) : outcome Construct :=
  new _ <- Construct__init__ name;
  Ok {| cls := ClsAnchorRange; name := name; conflags := 0;
        _parse := AnchorRange_parse name;
        _build := AnchorRange_build name;
        _sizeof := fun _ => ret 0 |}.

Definition Computed_build (name : option string) (func : callback value)
    (obj : value) (ctx : addr) : M unit :=
  do v <- call func ctx;
  ctx_setitem ctx name v.

Definition Computed (name : option string) (func : callback value)
  : outcome Construct :=
  new _ <- Construct__init__ name;
  Ok {| cls := ClsComputed; name := name; conflags := _set_flag 0 FLAG_DYNAMIC;
        _parse := call func;
        _build := Computed_build name func;
        _sizeof := fun _ => ret 0 |}.

(** ** Pass and Terminator (core.py, lines 1455-1515) *)

(** [assert obj is None] *)
Definition assert_none (obj : value) : M unit :=
  match obj with
  | VNone => ret tt
  | _ => raise AssertionError
  end.

(** The singleton [Pass = Pass(None)]. *)
Definition Pass : Construct :=
  {| cls := ClsOther; name := None; conflags := 0;
     _parse := fun _ => ret VNone;
     _build := fun obj _ => assert_none obj;
     _sizeof := fun _ => ret 0 |}.

Definition Terminator_parse (ctx : addr) : M value :=
  do data <- read 1;
  match data with
  | [] => ret VNone
  | _ => raise TerminatorError
  end.

(** The singleton [Terminator = Terminator(None)]. *)
Definition Terminator : Construct :=
  {| cls := ClsOther; name := None; conflags := 0;
     _parse := Terminator_parse;
     _build := fun obj _ => assert_none obj;
     _sizeof := fun _ => ret 0 |}.

(** ** Padding (core.py, lines 1559-1600) *)

Section Padding.
Variables (length : length_arg) (pattern : list byte) (strict : bool).

Definition Padding_parse (ctx : addr) : M value :=
  do length <- resolve_length length ctx;
  do data <- _read_stream length;
  if strict then
    let expected := concat (replicate (Z.to_nat length) pattern) in
    if negb (bool_decide (data = expected)) then raise PaddingError
    else ret VNone
  else ret VNone.

Definition Padding_build (obj : value) (ctx : addr) : M unit :=
  do length <- resolve_length length ctx;
  let padding := concat (replicate (Z.to_nat length) pattern) in
  _write_stream length (VBytes padding).

Definition Padding : outcome Construct :=
  if negb (len pattern =? 1) then Raise PaddingError
  else
    Ok {| cls := ClsOther; name := None; conflags := 0;
          _parse := Padding_parse;
          _build := Padding_build;
          _sizeof := resolve_length length |}.
End Padding.

(** ** String and GreedyString (core.py, lines 1718-1809 and 1860-1889) *)

(** [bytes.lstrip], [bytes.rstrip] and [bytes.strip] with a set of bytes. *)
Fixpoint bytes_lstrip (chars bs : list byte) : list byte :=
  match bs with
  | [] => []
  | b :: bs' => if bool_decide (b ∈ chars) then bytes_lstrip chars bs' else bs
  end.

Definition bytes_rstrip (chars bs : list byte) : list byte :=
  rev (bytes_lstrip chars (rev bs)).

Definition bytes_strip (chars bs : list byte) : list byte :=
  bytes_rstrip chars (bytes_lstrip chars bs).

(** [bytes.ljust], [bytes.rjust] and [bytes.center] with a fill byte;
    [center] puts [marg/2 + (marg & width & 1)] fill bytes on the left, as
    CPython does. *)
Definition bytes_ljust (width : Z) (fill : byte) (bs : list byte) : list byte :=
  bs ++ replicate (Z.to_nat (width - len bs)) fill.

Definition bytes_rjust (width : Z) (fill : byte) (bs : list byte) : list byte :=
  replicate (Z.to_nat (width - len bs)) fill ++ bs.

Definition bytes_center (width : Z) (fill : byte) (bs : list byte)
  : list byte :=
  let marg := width - len bs in
  if marg <=? 0 then bs
  else
    let left := marg / 2 + Z.land (Z.land marg width) 1 in
    replicate (Z.to_nat left) fill ++ bs
      ++ replicate (Z.to_nat (marg - left)) fill.

(** The slices [obj[:n]] and [obj[n:]] of a byte string; a negative bound
    counts from the end. *)
Definition slice_to (bs : list byte) (n : Z) : list byte :=
  if n <? 0 then take (Z.to_nat (len bs + n)) bs else take (Z.to_nat n) bs.

Definition slice_from (bs : list byte) (n : Z) : list byte :=
  if n <? 0 then drop (Z.to_nat (len bs + n)) bs else drop (Z.to_nat n) bs.

(** The pad character as [__init__] settles it: a byte string is kept,
    anything else goes through the encoding. *)
Definition String_padchar (padchar : value) (encoding : option Codec)
  : outcome value :=
  match padchar with
  | VBytes _ => Ok padchar
  | _ =>
      match encoding with
      | Some codec => codec_encode codec padchar
      | None => Raise TypeError
      end
  end.

(** [len(padchar)] in [__init__]; an object without a length, and a
    container (whose length is in the store), is a [TypeError] here. *)
Definition padchar_len (padchar : value) : outcome Z :=
  match padchar with
  | VBytes bs => Ok (len bs)
  | VStr s => Ok (Z.of_nat (String.length s))
  | VTuple vs | VList vs => Ok (Z.of_nat (length vs))
  | VDict kvs => Ok (Z.of_nat (length kvs))
  | _ => Raise TypeError
  end.

Section String.
Variables (length : length_arg) (encoding : option Codec) (padchar : value)
  (paddir trimdir : string).

(** The strip methods take any byte string; the just methods a single
    byte. *)
Definition String_strip (strip : list byte -> list byte -> list byte)
    (obj : list byte) : M (list byte) :=
  match padchar with
  | VBytes chars => ret (strip chars obj)
  | _ => raise TypeError
  end.

Definition String_just (just : Z -> byte -> list byte -> list byte)
    (width : Z) (obj : list byte) : M (list byte) :=
  match padchar with
  | VBytes [fill] => ret (just width fill obj)
  | _ => raise TypeError
  end.

Definition String_parse (ctx : addr) : M value :=
  do length <- resolve_length length ctx;
  do obj <- _read_stream length;
  do obj <- (if String.eqb paddir "right" then String_strip bytes_rstrip obj
             else if String.eqb paddir "left" then String_strip bytes_lstrip obj
             else String_strip bytes_strip obj);
  lift_outcome (_decode_string (VBytes obj) encoding).

Definition String_build (obj : value) (ctx : addr) : M unit :=
  do length <- resolve_length length ctx;
  do obj <- lift_outcome (_encode_string obj encoding);
  match obj with
  | VBytes obj =>
      do obj <- (if String.eqb paddir "right" then
                   String_just bytes_ljust length obj
                 else if String.eqb paddir "left" then
                   String_just bytes_rjust length obj
                 else String_just bytes_center length obj);
      do obj <- (if length <? len obj then
                   if String.eqb trimdir "right" then ret (slice_to obj length)
                   else if String.eqb trimdir "left" then
                     ret (slice_from obj (- length))
                   else raise StringError
                 else ret obj);
      _write_stream length (VBytes obj)
  | _ => raise TypeError
  end.
End String.

Definition String (name : option string) (length : length_arg)
    (encoding : option Codec) (padchar : value) (paddir trimdir : string)
  : outcome Construct :=
  new padchar <- String_padchar padchar encoding;
  new n <- padchar_len padchar;
  if negb (n =? 1) then Raise ValueError
  else if negb (bool_decide (paddir ∈ ["right"; "left"; "center"]%string))
  then Raise ValueError
  else if negb (bool_decide (trimdir ∈ ["right"; "left"]%string))
  then Raise ValueError
  else
    new _ <- Construct__init__ name;
    Ok {| cls := ClsOther; name := name; conflags := 0;
          _parse := String_parse length encoding padchar paddir;
          _build := String_build length encoding padchar paddir trimdir;
          _sizeof := resolve_length length |}.

Definition GreedyString_parse (encoding : option Codec) (ctx : addr)
  : M value :=
  do obj <- read_all;
  lift_outcome (_decode_string (VBytes obj) encoding).

Definition GreedyString_build (encoding : option Codec) (obj : value)
    (ctx : addr) : M unit :=
  do obj <- lift_outcome (_encode_string obj encoding);
  do n <- py_len obj;
  _write_stream n obj.

Definition GreedyString (name : option string) (encoding : option Codec)
  : outcome Construct :=
  new _ <- Construct__init__ name;
  Ok {| cls := ClsOther; name := name; conflags := 0;
        _parse := GreedyString_parse encoding;
        _build := GreedyString_build encoding;
        _sizeof := fun _ => raise SizeofError |}.

(** ** Prefixed (core.py, lines 2014-2042) *)

Section Prefixed.
Variables (lengthfield subcon : Construct).

Definition Prefixed_parse (ctx : addr) : M value :=
  do length <- _parse lengthfield ctx;
  do length <- expect_int length;
  do data <- _read_stream length;
  parse subcon data (Some ctx).

Definition Prefixed_build (obj : value) (ctx : addr) : M unit :=
  do data <- build subcon obj (Some ctx);
  _build lengthfield (VInt (len data)) ctx >>
  _write_stream (len data) (VBytes data).

Definition Prefixed_sizeof (ctx : addr) : M Z :=
  do a <- _sizeof lengthfield ctx;
  do b <- _sizeof subcon ctx;
  ret (a + b).

Definition Prefixed : outcome Construct :=
  new _ <- Subconstruct__init__ subcon;
  Ok {| cls := ClsOther; name := name subcon; conflags := conflags subcon;
        _parse := Prefixed_parse;
        _build := Prefixed_build;
        _sizeof := Prefixed_sizeof |}.
End Prefixed.

(** ** Notions used to state the further properties *)

(** The items of a list up to and including the first one that satisfies
    [p]. *)
Fixpoint up_to_first {A} (p : A -> bool) (l : list A) : list A :=
  match l with
  | [] => []
  | x :: l' => if p x then [x] else x :: up_to_first p l'
  end.

(** The stream after the byte strings [enc v], for [v] in [items], have
    been written to it in turn. *)
Definition written (enc : value -> list byte) (items : list value)
    (st : BytesIO) : BytesIO :=
  fold_left (fun st v => BytesIO_write (enc v) st) items st.

(** The bindings of a container that holds, under each name, the value of
    the byte at the same place. *)
Definition byte_bindings (names : list string) (bs : list byte) : Container :=
  zip_with (fun n b => (Some n, VInt (Z_of_byte b))) names bs.

(** Comparisons of literal strings. *)
Ltac eval_eqb :=
  repeat match goal with
         | |- context [String.eqb ?a ?b] =>
             let r := eval vm_compute in (String.eqb a b) in
             change (String.eqb a b) with r
         end;
  cbv iota.

(** * Properties *)

(** ** Bytes *)

Lemma Z_of_byte_range (b : byte) : 0 <= Z_of_byte b < 256.
Proof.
  unfold Z_of_byte. pose proof (Byte.to_N_bounded b). lia.
Qed.

Lemma Z_of_byte_of_Z (n : Z) : Z_of_byte (byte_of_Z n) = n mod 256.
Proof.
  unfold Z_of_byte, byte_of_Z.
  assert (H : 0 <= n mod 256 < 256) by (apply Z.mod_pos_bound; lia).
  destruct (Byte.of_N (Z.to_N (n mod 256))) as [b|] eqn:E.
  - apply Byte.to_of_N in E. rewrite E. lia.
  - apply Byte.of_N_None_iff in E. lia.
Qed.

Lemma byte_of_Z_of_byte (b : byte) : byte_of_Z (Z_of_byte b) = b.
Proof.
  unfold Z_of_byte, byte_of_Z.
  pose proof (Byte.to_N_bounded b) as Hb.
  rewrite Z.mod_small by lia.
  rewrite N2Z.id, Byte.of_to_N. reflexivity.
Qed.

(** ** Streams *)

Lemma len_nonneg {A} (l : list A) : 0 <= len l.
Proof. unfold len. lia. Qed.

Lemma len_app {A} (l k : list A) : len (l ++ k) = len l + len k.
Proof. unfold len. rewrite length_app. lia. Qed.

Lemma len_cons {A} (x : A) (l : list A) : len (x :: l) = 1 + len l.
Proof. unfold len. cbn [length]. lia. Qed.

Lemma _read_stream_ok (n : Z) (s : State) :
  0 <= n ->
  0 <= position (stream s) ->
  position (stream s) + n <= len (buffer (stream s)) ->
  _read_stream n s =
    (Ok (take (Z.to_nat n) (drop (Z.to_nat (position (stream s)))
                              (buffer (stream s)))),
     mkState (mkBytesIO (buffer (stream s)) (position (stream s) + n))
             (heap s)).
Proof.
  intros Hn Hp Hlen. unfold _read_stream, bind, read, BytesIO_read, len in *.
  destruct (n <? 0) eqn:E; [lia|].
  cbn.
  assert (Hl : Z.of_nat (length (take (Z.to_nat n)
                (drop (Z.to_nat (position (stream s))) (buffer (stream s)))))
               = n).
  { rewrite length_take, length_drop. lia. }
  rewrite Hl, Z.eqb_refl. reflexivity.
Qed.

Lemma _read_stream_eof (n : Z) (s : State) :
  0 < n ->
  0 <= position (stream s) ->
  len (buffer (stream s)) < position (stream s) + n ->
  result (_read_stream n s) = Raise FieldError.
Proof.
  intros Hn Hp Hlen. unfold _read_stream, bind, read, BytesIO_read, len in *.
  destruct (n <? 0) eqn:E; [lia|].
  cbn.
  destruct (_ =? n) eqn:E2; [|reflexivity].
  apply Z.eqb_eq in E2. rewrite length_take, length_drop in E2. lia.
Qed.

Lemma _write_stream_bytes (bs : list byte) (s : State) :
  _write_stream (len bs) (VBytes bs) s =
    (Ok tt, mkState (BytesIO_write bs (stream s)) (heap s)).
Proof.
  unfold _write_stream, bind, py_len, ret, write.
  pose proof (len_nonneg bs).
  destruct (len bs <? 0) eqn:E; [lia|].
  rewrite Z.eqb_refl. reflexivity.
Qed.

(** Writing at the end of the buffer appends. *)
Lemma BytesIO_write_at_end (bs buf : list byte) :
  BytesIO_write bs (mkBytesIO buf (len buf)) =
    mkBytesIO (buf ++ bs) (len buf + len bs).
Proof.
  destruct bs as [|b bs].
  - cbn. rewrite app_nil_r. change (len []) with 0. f_equal. lia.
  - unfold BytesIO_write. cbn [position buffer].
    replace (Z.to_nat (len buf)) with (length buf) by (unfold len; lia).
    rewrite Nat.sub_diag. cbn [replicate].
    rewrite app_nil_r, firstn_all.
    rewrite drop_ge by (cbn [length]; lia). rewrite app_nil_r. reflexivity.
Qed.

Lemma BytesIO_write_fresh (bs : list byte) :
  BytesIO_write bs (BytesIO_new []) = mkBytesIO bs (len bs).
Proof. apply (BytesIO_write_at_end bs []). Qed.

(** Reading the byte under the cursor. *)
Lemma read_one_at (pre rest : list byte) (b : byte) (h : Heap) :
  _read_stream 1 (mkState (mkBytesIO (pre ++ b :: rest) (len pre)) h) =
    (Ok [b], mkState (mkBytesIO (pre ++ b :: rest) (len (pre ++ [b]))) h).
Proof.
  rewrite _read_stream_ok; cbn [stream position buffer heap].
  - unfold len at 1. rewrite Nat2Z.id, drop_app_length.
    rewrite len_app, len_cons. reflexivity.
  - lia.
  - apply len_nonneg.
  - rewrite len_app, len_cons. pose proof (len_nonneg rest). lia.
Qed.

(** ** C1: VarInt *)

Lemma int2byte_ok (i : Z) :
  0 <= i < 256 -> int2byte i = Ok [byte_of_Z i].
Proof.
  intros H. unfold int2byte.
  replace (0 <=? i) with true by (symmetry; apply Z.leb_le; lia).
  replace (i <? 256) with true by (symmetry; apply Z.ltb_lt; lia).
  reflexivity.
Qed.

Lemma write_one_at_end (b : byte) (buf : list byte) (h : list Container) :
  _write_stream 1 (VBytes [b]) (mkState (mkBytesIO buf (len buf)) h) =
    (Ok tt, mkState (mkBytesIO (buf ++ [b]) (len (buf ++ [b]))) h).
Proof.
  change 1 with (len [b]). rewrite _write_stream_bytes.
  cbn [stream heap]. rewrite BytesIO_write_at_end, len_app. reflexivity.
Qed.

Lemma lor_128_low7 (v : Z) :
  0 <= v -> Z.lor 128 (Z.land v 127) = 128 + v mod 128.
Proof.
  intros Hv. change 127 with (Z.ones 7). rewrite Z.land_ones by lia.
  assert (Hland : Z.land 128 (v mod 2 ^ 7) = 0).
  { apply Z.bits_inj'. intros n Hn. rewrite Z.land_spec, Z.bits_0.
    destruct (Z.ltb_spec n 7).
    - change 128 with (2 ^ 7). rewrite Z.pow2_bits_false by lia. reflexivity.
    - rewrite Z.mod_pow2_bits_high by lia. apply andb_false_r. }
  rewrite <- Z.lxor_lor by exact Hland.
  rewrite <- Z.add_nocarry_lxor by exact Hland.
  reflexivity.
Qed.

(** The loop of [_build] on a stream whose cursor is at its end: it
    appends groups with the continuation bit set and hands the last group,
    below 128, to the final write. *)
Lemma VarInt_build_loop_spec (fuel : nat) :
  forall (v : Z) (buf : list byte) (h : list Container),
    0 <= v -> v < 2 ^ (7 * Z.of_nat fuel + 7) ->
    exists (groups : list byte) (r : Z),
      VarInt_build_loop fuel v (mkState (mkBytesIO buf (len buf)) h) =
        (Ok r, mkState (mkBytesIO (buf ++ groups) (len (buf ++ groups))) h) /\
      0 <= r < 128 /\
      Forall (fun b => 128 <= Z_of_byte b) groups /\
      lsb_groups_value (groups ++ [byte_of_Z r]) = v.
Proof.
  induction fuel as [|fuel IH]; intros v buf h Hv Hlt.
  - exists [], v. cbn [VarInt_build_loop]. unfold ret.
    rewrite app_nil_r. change (2 ^ (7 * Z.of_nat 0 + 7)) with 128 in Hlt.
    split; [reflexivity|]. split; [lia|]. split; [constructor|].
    cbn [app lsb_groups_value]. rewrite Z_of_byte_of_Z.
    rewrite (Z.mod_small v 256) by lia. rewrite Z.mod_small by lia. lia.
  - cbn [VarInt_build_loop].
    destruct (127 <? v) eqn:Hbig.
    + apply Z.ltb_lt in Hbig.
      rewrite lor_128_low7 by exact Hv.
      pose proof (Z.mod_pos_bound v 128 ltac:(lia)) as Hm.
      unfold bind at 1. unfold lift_outcome.
      rewrite int2byte_ok by lia.
      unfold bind at 1. rewrite write_one_at_end.
      rewrite Z.shiftr_div_pow2 by lia. change (2 ^ 7) with 128.
      destruct (IH (v / 128) (buf ++ [byte_of_Z (128 + v mod 128)]) h)
        as (groups & r & Hrun & Hr & Hcont & Hval).
      * apply Z.div_pos; lia.
      * apply Z.div_lt_upper_bound; [lia|].
        replace (7 * Z.of_nat (S fuel) + 7) with (7 + (7 * Z.of_nat fuel + 7))
          in Hlt by lia.
        rewrite Z.pow_add_r in Hlt by lia. exact Hlt.
      * exists (byte_of_Z (128 + v mod 128) :: groups), r.
        rewrite Hrun. rewrite <- app_assoc. cbn [app].
        split; [reflexivity|]. split; [exact Hr|].
        assert (Hb : Z_of_byte (byte_of_Z (128 + v mod 128)) = 128 + v mod 128)
          by (rewrite Z_of_byte_of_Z; apply Z.mod_small; lia).
        split.
        -- constructor; [rewrite Hb; lia | exact Hcont].
        -- cbn [app lsb_groups_value]. rewrite Hval, Hb.
           replace ((128 + v mod 128) mod 128) with (v mod 128)
             by (clear - Hm; Z.div_mod_to_equations; lia).
           pose proof (Z.div_mod v 128 ltac:(lia)). lia.
    + apply Z.ltb_ge in Hbig.
      exists [], v. unfold ret. rewrite app_nil_r.
      split; [reflexivity|]. split; [lia|]. split; [constructor|].
      cbn [app lsb_groups_value]. rewrite Z_of_byte_of_Z.
      rewrite (Z.mod_small v 256) by lia. rewrite Z.mod_small by lia. lia.
Qed.

Lemma continuation_bits_ok_app (groups : list byte) (b : byte) :
  Forall (fun g => 128 <= Z_of_byte g) groups ->
  Z_of_byte b < 128 ->
  continuation_bits_ok (groups ++ [b]).
Proof.
  induction 1 as [|g groups Hg _ IH]; intros Hb.
  - exact Hb.
  - cbn [app]. destruct (groups ++ [b]) eqn:E.
    + destruct groups; discriminate.
    + cbn. split; [exact Hg|]. apply IH. exact Hb.
Qed.

(** For every non-negative [v], [VarInt] builds the base-128 groups of [v],
    least significant group first, with the continuation bit on every byte
    but the last: the encoding of Protocol Buffers. *)
Lemma VarInt_build_protobuf (nm : option string) (c : Construct) (v : Z)
    (s : State) :
  VarInt nm = Ok c ->
  0 <= v ->
  exists data,
    result (build c (VInt v) None s) = Ok data /\
    continuation_bits_ok data /\
    lsb_groups_value data = v.
Proof.
  intros Hc Hv. unfold VarInt in Hc.
  destruct (Construct__init__ nm) as [[]|]; cbn [obind] in Hc; [|discriminate].
  injection Hc as <-.
  unfold result, build, with_stream, build_stream, bind, new_container, ret.
  cbn [_build stream heap fst snd]. unfold VarInt_build.
  replace (v <? 0) with false by (symmetry; apply Z.ltb_ge; lia).
  unfold bind at 1.
  destruct (VarInt_build_loop_spec (Z.to_nat (Z.log2 v)) v [] (heap s ++ [[]])
              Hv) as (groups & r & Hrun & Hr & Hcont & Hval).
  { destruct (Z.eq_dec v 0) as [->|Hnz]; [reflexivity|].
    pose proof (Z.log2_nonneg v).
    pose proof (Z.log2_spec v ltac:(lia)) as [_ Hup].
    eapply Z.lt_le_trans; [exact Hup|].
    apply Z.pow_le_mono_r; lia. }
  change (BytesIO_new []) with (mkBytesIO [] (len (@nil byte))).
  exists (groups ++ [byte_of_Z r]).
  rewrite Hrun. unfold lift_outcome, bind.
  rewrite int2byte_ok by lia. rewrite write_one_at_end.
  cbn [app fst snd stream buffer]. split; [reflexivity|].
  split; [|exact Hval].
  apply continuation_bits_ok_app; [exact Hcont|].
  rewrite Z_of_byte_of_Z, Z.mod_small; lia.
Qed.

(** What [_parse] makes of a two-group encoding: the groups change
    places. *)
Lemma land_127 (b : Z) : 0 <= b -> Z.land b 127 = b mod 128.
Proof.
  intros Hb. change 127 with (Z.ones 7). rewrite Z.land_ones by lia.
  reflexivity.
Qed.

Lemma land_128_zero (b : Z) :
  0 <= b < 256 -> (Z.land b 128 =? 0) = (b <? 128).
Proof.
  intros Hb.
  assert (Hbit : Z.land b 128 = if Z.testbit b 7 then 128 else 0).
  { apply Z.bits_inj'. intros n Hn. rewrite Z.land_spec.
    change 128 with (2 ^ 7) at 1.
    destruct (Z.eq_dec n 7) as [->|Hne].
    - rewrite Z.pow2_bits_true by lia. rewrite andb_true_r.
      destruct (Z.testbit b 7); reflexivity.
    - rewrite Z.pow2_bits_false by lia. rewrite andb_false_r.
      destruct (Z.testbit b 7); [|symmetry; apply Z.bits_0].
      change 128 with (2 ^ 7). symmetry. apply Z.pow2_bits_false. lia. }
  rewrite Hbit.
  destruct (Z.testbit b 7) eqn:E.
  - assert (128 <= b).
    { destruct (Z_lt_le_dec b 128) as [Hlt|]; [|assumption].
      rewrite (Z.bits_above_log2 b 7) in E; [discriminate|lia|].
      destruct (Z.eq_dec b 0) as [->|]; [reflexivity|].
      apply Z.log2_lt_pow2; lia. }
    symmetry. apply Z.ltb_ge. lia.
  - assert (b < 128).
    { destruct (Z_lt_le_dec b 128) as [|Hge]; [assumption|].
      assert (Hb7 : Z.testbit b 7 = true).
      { rewrite Z.testbit_true by lia. change (2 ^ 7) with 128.
        assert (Hq : b / 128 = 1).
        { symmetry. apply Z.div_unique with (r := b - 128); lia. }
        rewrite Hq. reflexivity. }
      congruence. }
    symmetry. apply Z.ltb_lt. lia.
Qed.

Lemma lor_shiftl_7 (x y : Z) :
  0 <= x -> 0 <= y < 128 -> Z.lor (Z.shiftl x 7) y = x * 128 + y.
Proof.
  intros Hx Hy.
  assert (Hland : Z.land (Z.shiftl x 7) y = 0).
  { apply Z.bits_inj'. intros n Hn. rewrite Z.land_spec, Z.bits_0.
    destruct (Z.ltb_spec n 7).
    - rewrite Z.shiftl_spec_low by lia. reflexivity.
    - rewrite (Z.bits_above_log2 y n); [apply andb_false_r|lia|].
      destruct (Z.eq_dec y 0) as [->|]; [cbn; lia|].
      assert (Z.log2 y < 7) by (apply Z.log2_lt_pow2; lia). lia. }
  rewrite <- Z.lxor_lor by exact Hland.
  rewrite <- Z.add_nocarry_lxor by exact Hland.
  rewrite Z.shiftl_mul_pow2 by lia. reflexivity.
Qed.

(** For every [v] of two groups, [VarInt] builds the low group with the
    continuation bit and then the high group, and parses these two bytes as
    the number with the groups the other way round: parsing what was built
    gives [v] back only if its two groups are equal. *)
Lemma VarInt_parse_swaps_two_groups (nm : option string) (c : Construct)
    (v : Z) (s : State) :
  VarInt nm = Ok c ->
  128 <= v < 16384 ->
  result (build c (VInt v) None s) =
    Ok [byte_of_Z (128 + v mod 128); byte_of_Z (v / 128)] /\
  result (parse c [byte_of_Z (128 + v mod 128); byte_of_Z (v / 128)] None s) =
    Ok (VInt (v mod 128 * 128 + v / 128)) /\
  (v mod 128 <> v / 128 ->
   result (parse c [byte_of_Z (128 + v mod 128); byte_of_Z (v / 128)] None s)
     <> Ok (VInt v)).
Proof.
  intros Hc Hv. unfold VarInt in Hc.
  destruct (Construct__init__ nm) as [[]|]; cbn [obind] in Hc; [|discriminate].
  injection Hc as <-.
  pose proof (Z.mod_pos_bound v 128 ltac:(lia)) as Hm.
  assert (Hd : 1 <= v / 128 < 128).
  { split; [apply Z.div_le_lower_bound; lia
           | apply Z.div_lt_upper_bound; lia]. }
  assert (Hb0 : Z_of_byte (byte_of_Z (128 + v mod 128)) = 128 + v mod 128)
    by (rewrite Z_of_byte_of_Z; apply Z.mod_small; lia).
  assert (Hb1 : Z_of_byte (byte_of_Z (v / 128)) = v / 128)
    by (rewrite Z_of_byte_of_Z; apply Z.mod_small; lia).
  assert (Hparse :
    result (parse {| cls := ClsVarInt; name := nm; conflags := 0;
                     _parse := VarInt_parse; _build := VarInt_build;
                     _sizeof := fun _ => raise SizeofError |}
              [byte_of_Z (128 + v mod 128); byte_of_Z (v / 128)] None s)
    = Ok (VInt (v mod 128 * 128 + v / 128))).
  { unfold result, parse, with_stream, parse_stream, bind, new_container, ret.
    cbn [_parse stream heap fst snd]. unfold VarInt_parse, bind.
    unfold bytes_left, BytesIO_new. cbn [stream buffer position length].
    change (Z.to_nat 0) with 0%nat. cbn [Nat.sub VarInt_parse_loop].
    unfold bind at 1.
    change (mkBytesIO [byte_of_Z (128 + v mod 128); byte_of_Z (v / 128)] 0)
      with (mkBytesIO ([] ++ byte_of_Z (128 + v mod 128)
                          :: [byte_of_Z (v / 128)]) (len (@nil byte))).
    rewrite read_one_at. unfold bind at 1, lift_outcome at 1. cbn [ord].
    rewrite Hb0.
    rewrite land_128_zero by lia.
    replace (128 + v mod 128 <? 128) with false
      by (symmetry; apply Z.ltb_ge; lia).
    rewrite land_127 by lia.
    replace ((128 + v mod 128) mod 128) with (v mod 128)
      by (clear - Hm; Z.div_mod_to_equations; lia).
    change (Z.shiftl 0 7) with 0. rewrite Z.lor_0_l.
    unfold bind at 1.
    change ([] ++ byte_of_Z (128 + v mod 128) :: [byte_of_Z (v / 128)])
      with ([byte_of_Z (128 + v mod 128)] ++ byte_of_Z (v / 128) :: []).
    change (len ([] ++ [byte_of_Z (128 + v mod 128)]))
      with (len [byte_of_Z (128 + v mod 128)]).
    rewrite read_one_at. unfold bind at 1, lift_outcome at 1. cbn [ord].
    rewrite Hb1.
    rewrite land_128_zero by lia.
    replace (v / 128 <? 128) with true by (symmetry; apply Z.ltb_lt; lia).
    rewrite land_127 by lia. rewrite (Z.mod_small (v / 128)) by lia.
    rewrite lor_shiftl_7 by lia. reflexivity. }
  split; [|split].
  - unfold result, build, with_stream, build_stream, bind, new_container, ret.
    cbn [_build stream heap fst snd]. unfold VarInt_build.
    replace (v <? 0) with false by (symmetry; apply Z.ltb_ge; lia).
    assert (Hlog : 7 <= Z.log2 v) by (apply Z.log2_le_pow2; lia).
    destruct (Z.to_nat (Z.log2 v)) as [|fuel] eqn:Efuel; [lia|].
    unfold bind at 1. cbn [VarInt_build_loop].
    replace (127 <? v) with true by (symmetry; apply Z.ltb_lt; lia).
    rewrite lor_128_low7 by lia.
    unfold bind at 1, lift_outcome at 1. rewrite int2byte_ok by lia.
    unfold bind at 1.
    change (BytesIO_new []) with (mkBytesIO [] (len (@nil byte))).
    rewrite write_one_at_end.
    rewrite Z.shiftr_div_pow2 by lia. change (2 ^ 7) with 128.
    assert (Hexit : forall st,
      VarInt_build_loop fuel (v / 128) st = (Ok (v / 128), st)).
    { intros st. destruct fuel; cbn [VarInt_build_loop]; [reflexivity|].
      replace (127 <? v / 128) with false by (symmetry; apply Z.ltb_ge; lia).
      reflexivity. }
    rewrite Hexit. unfold bind, lift_outcome. rewrite int2byte_ok by lia.
    rewrite write_one_at_end. reflexivity.
  - exact Hparse.
  - intros Hne. rewrite Hparse. intros [= Heq].
    pose proof (Z.div_mod v 128 ltac:(lia)). apply Hne. nia.
Qed.


(** C1 (the code departs from the claim).  [VarInt] builds 645 as
    [85 05] and parses [85 05] as 645, and refuses a negative value; it
    builds 300 as [AC 02], low group first as Protocol Buffers do, but
    [_parse] shifts the accumulator before or-ing each group in, so it reads
    [AC 02] back as 5634: parsing what was built does not give 300. *)
Theorem VarInt_roundtrip_fails_at_300 :
  exists c, VarInt None = Ok c /\
    run (parse c [x85; x05] None) = Ok (VInt 645) /\
    run (build c (VInt 645) None) = Ok [x85; x05] /\
    run (build c (VInt (-1)) None) = Raise ValueError /\
    run (build c (VInt 300) None) = Ok [xac; x02] /\
    run (parse c [xac; x02] None) = Ok (VInt 5634) /\
    run (do data <- build c (VInt 300) None; parse c data None)
      <> Ok (VInt 300).
Proof.
  eexists. split; [reflexivity|].
  repeat split; try (vm_compute; reflexivity).
  vm_compute. discriminate.
Qed.

(** ** C2: the size of Aligned *)

(** C2 (the code departs from the claim).  [Aligned(UBInt8("num"),
    modulus=4)] reports the size of the bare field, 1, although it builds
    four bytes and consumes four bytes when parsing. *)
Theorem Aligned_sizeof_omits_padding :
  exists c, (new f <- UBInt8 (Some "num"); Aligned f 4 [x00]) = Ok c /\
    run (sizeof c None) = Ok 1 /\
    run (build c (VInt 255) None) = Ok [xff; x00; x00; x00] /\
    result (_parse c 0%nat (start [xff; x00; x00; x00; x07])) = Ok (VInt 255) /\
    final_position (_parse c 0%nat (start [xff; x00; x00; x00; x07])) = 4.
Proof.
  eexists. split; [reflexivity|].
  repeat split; vm_compute; reflexivity.
Qed.

Lemma len_concat_replicate (n : nat) (pattern : list byte) :
  len pattern = 1 -> len (concat (replicate n pattern)) = Z.of_nat n.
Proof.
  intros Hp. induction n as [|n IH]; [reflexivity|].
  cbn [replicate concat]. rewrite len_app, IH, Hp. lia.
Qed.

(** Whenever the wrapped construct builds [n] bytes at the end of the
    stream and [n] is not a multiple of the modulus, [Aligned] writes
    [n + (-n mod modulus)] bytes, yet its size is the [n] of the wrapped
    construct. *)
Lemma Aligned_build_exceeds_sizeof (subcon A : Construct) (modulus : Z)
    (pattern : list byte) (ctx : addr) (obj : value) (n : Z) (u : unit)
    (s s1 : State) :
  Aligned subcon modulus pattern = Ok A ->
  _sizeof subcon ctx s = (Ok n, s) ->
  _build subcon obj ctx s = (Ok u, s1) ->
  position (stream s1) = position (stream s) + n ->
  position (stream s1) = len (buffer (stream s1)) ->
  n mod modulus <> 0 ->
  exists s2,
    _build A obj ctx s = (Ok tt, s2) /\
    _sizeof A ctx s = (Ok n, s) /\
    position (stream s2) - position (stream s) = n + (- n) mod modulus /\
    position (stream s2) - position (stream s) <> n.
Proof.
  intros HA Hsize Hsub Hpos Hend Hn. unfold Aligned in HA.
  destruct (modulus <? 2) eqn:Hmod; [discriminate|]. apply Z.ltb_ge in Hmod.
  destruct (len pattern =? 1) eqn:Hpat; cbn [negb] in HA; [|discriminate].
  apply Z.eqb_eq in Hpat.
  destruct (Construct__init__ (name subcon)) as [[]|]; cbn [obind] in HA;
    [|discriminate].
  injection HA as <-. cbn [_build _sizeof].
  pose proof (Z.mod_pos_bound (- n) modulus ltac:(lia)) as Hpad.
  assert (Hpadnz : (- n) mod modulus <> 0).
  { intros H0. apply Hn. apply Z.mod_divide in H0; [|lia].
    apply Z.mod_divide; [lia|]. destruct H0 as [k Hk]. exists (- k). lia. }
  unfold Aligned_build, Aligned_sizeof, bind, tell, BytesIO_tell.
  rewrite Hsub. cbv zeta.
  replace (- (position (stream s1) - position (stream s))) with (- n) by lia.
  set (pad := (- n) mod modulus) in *.
  set (padding := concat (replicate (Z.to_nat pad) pattern)).
  assert (Hlen : len padding = pad).
  { unfold padding. rewrite len_concat_replicate by exact Hpat. lia. }
  eexists. split.
  { rewrite <- Hlen at 1. rewrite _write_stream_bytes. reflexivity. }
  split; [exact Hsize|].
  cbn [stream].
  destruct (stream s1) as [buf p]. cbn [position buffer] in *.
  rewrite Hend. rewrite BytesIO_write_at_end. cbn [position].
  rewrite <- Hend. lia.
Qed.

(** ** C8: ULInt24 *)

Lemma le_int_le_bytes_3 (v : Z) :
  0 <= v < 2 ^ 24 ->
  Z_of_byte (byte_of_Z (v mod 256))
  + Z.shiftl (Z_of_byte (byte_of_Z (Z.shiftr v 8))
              + 256 * (Z_of_byte (byte_of_Z (Z.shiftr v 8 / 256)) + 256 * 0)) 8
  = v.
Proof.
  intros Hv.
  rewrite !Z_of_byte_of_Z, Z.shiftl_mul_pow2, Z.shiftr_div_pow2 by lia.
  change (2 ^ 8) with 256. change (2 ^ 24) with 16777216 in Hv.
  rewrite Z.mod_mod by lia.
  pose proof (Z.div_mod v 256 ltac:(lia)).
  pose proof (Z.mod_pos_bound v 256 ltac:(lia)).
  pose proof (Z.div_mod (v / 256) 256 ltac:(lia)).
  pose proof (Z.mod_pos_bound (v / 256) 256 ltac:(lia)).
  assert (0 <= v / 256 / 256 < 256) by
    (split; [apply Z.div_pos; [apply Z.div_pos|]; lia
            | apply Z.div_lt_upper_bound; [lia|];
              apply Z.div_lt_upper_bound; lia]).
  rewrite (Z.mod_small (v / 256 / 256)) by lia.
  lia.
Qed.

Lemma ULInt24_pack_ok (v : Z) :
  0 <= v < 2 ^ 24 ->
  Packer_pack (mkPacker LittleEndian [mkCode 1 false; mkCode 2 false])
    [VInt (v mod 256); VInt (Z.shiftr v 8)]
  = Ok [byte_of_Z (v mod 256); byte_of_Z (Z.shiftr v 8);
        byte_of_Z (Z.shiftr v 8 / 256)].
Proof.
  intros Hv. change (2 ^ 24) with 16777216 in Hv.
  pose proof (Z.mod_pos_bound v 256 ltac:(lia)).
  assert (0 <= Z.shiftr v 8 < 65536).
  { rewrite Z.shiftr_div_pow2 by lia. change (2 ^ 8) with 256.
    split; [apply Z.div_pos; lia | apply Z.div_lt_upper_bound; lia]. }
  unfold Packer_pack, pack_fields, pack_field, code_min, code_max; cbn.
  change (2 ^ (8 * Z.of_nat 1) - 1) with 255.
  change (2 ^ (8 * Z.of_nat 2) - 1) with 65535.
  replace (0 <=? v mod 256) with true by (symmetry; apply Z.leb_le; lia).
  replace (v mod 256 <=? 255) with true by (symmetry; apply Z.leb_le; lia).
  replace (0 <=? Z.shiftr v 8) with true by (symmetry; apply Z.leb_le; lia).
  replace (Z.shiftr v 8 <=? 65535) with true by (symmetry; apply Z.leb_le; lia).
  reflexivity.
Qed.

Lemma ULInt24_unpack_ok (b0 b1 b2 : byte) :
  Packer_unpack (mkPacker LittleEndian [mkCode 1 false; mkCode 2 false])
    [b0; b1; b2]
  = Ok [Z_of_byte b0 + 256 * 0;
        Z_of_byte b1 + 256 * (Z_of_byte b2 + 256 * 0)].
Proof. reflexivity. Qed.

(** C8.  [ULInt24] parses [01 02 03] as [0x030201]; for every [v] with
    [0 <= v < 2^24], building [v] gives exactly three bytes and parsing
    them gives [v] back. *)
Theorem ULInt24_roundtrip (nm : option string) (c : Construct) (v : Z) (s : State) :
  ULInt24 nm = Ok c ->
  0 <= v < 2 ^ 24 ->
  result (parse c [x01; x02; x03] None s) = Ok (VInt 0x030201) /\
  exists data,
    result (build c (VInt v) None s) = Ok data /\
    len data = 3 /\
    result (parse c data None s) = Ok (VInt v).
Proof.
  intros Hc Hv. unfold ULInt24 in Hc. cbn in Hc.
  destruct (Construct__init__ nm); cbn in Hc; [|discriminate].
  injection Hc as <-.
  split; [reflexivity|].
  exists [byte_of_Z (v mod 256); byte_of_Z (Z.shiftr v 8);
          byte_of_Z (Z.shiftr v 8 / 256)].
  unfold result, build, parse, with_stream, build_stream, parse_stream, bind,
    new_container, ret; cbn.
  unfold ULInt24_build, ULInt24_parse, bind, ret, lift_outcome; cbn.
  pose proof (ULInt24_pack_ok v Hv) as Hp.
  unfold Packer_pack in Hp; cbn in Hp. rewrite Hp. cbn.
  repeat split.
  rewrite _read_stream_ok by (unfold len; cbn; lia).
  change (Z.to_nat (Z.of_nat 1 + (Z.of_nat 2 + 0))) with 3%nat.
  change (Z.to_nat (position _)) with 0%nat.
  unfold BytesIO_new. cbn [firstn skipn buffer stream].
  rewrite ULInt24_unpack_ok. cbn.
  rewrite Z.mul_0_r, Z.add_0_r.
  rewrite le_int_le_bytes_3 by exact Hv. reflexivity.
Qed.

Lemma ULInt24_roundtrip_witness :
  result (parse (mkConstruct ClsULInt24 None 0
                   (ULInt24_parse (mkPacker LittleEndian
                                     [mkCode 1 false; mkCode 2 false]) 3)
                   (ULInt24_build (mkPacker LittleEndian
                                     [mkCode 1 false; mkCode 2 false]) 3)
                   (fun _ => ret 3))
            [x01; x02; x03] None empty_state) = Ok (VInt 0x030201) /\
  exists data,
    result (build (mkConstruct ClsULInt24 None 0
                   (ULInt24_parse (mkPacker LittleEndian
                                     [mkCode 1 false; mkCode 2 false]) 3)
                   (ULInt24_build (mkPacker LittleEndian
                                     [mkCode 1 false; mkCode 2 false]) 3)
                   (fun _ => ret 3))
              (VInt 0x030201) None empty_state) = Ok data /\
    len data = 3 /\
    result (parse (mkConstruct ClsULInt24 None 0
                   (ULInt24_parse (mkPacker LittleEndian
                                     [mkCode 1 false; mkCode 2 false]) 3)
                   (ULInt24_build (mkPacker LittleEndian
                                     [mkCode 1 false; mkCode 2 false]) 3)
                   (fun _ => ret 3))
              data None empty_state) = Ok (VInt 0x030201).
Proof.
  apply (ULInt24_roundtrip None _ 0x030201 empty_state).
  - reflexivity.
  - lia.
Defined.

(** ** C7: CString *)

Lemma bytes_contains_single (b : byte) (l : list byte) :
  bytes_contains [b] l = bool_decide (b ∈ l).
Proof.
  induction l as [|d l IH]; cbn.
  - symmetry. apply bool_decide_eq_false. apply not_elem_of_nil.
  - rewrite IH. rewrite andb_true_r.
    destruct (bool_decide (b = d)) eqn:E1; cbn.
    + apply bool_decide_eq_true in E1 as ->.
      symmetry. apply bool_decide_eq_true. left.
    + apply bool_decide_eq_false in E1.
      destruct (bool_decide (b ∈ l)) eqn:E2.
      * apply bool_decide_eq_true in E2.
        symmetry. apply bool_decide_eq_true. by right.
      * apply bool_decide_eq_false in E2.
        symmetry. apply bool_decide_eq_false.
        intros [?|?]%elem_of_cons; done.
Qed.

(** The scanning loop on a stream that holds [payload], free of
    terminators, then a terminator [t]: it stops right after [t]. *)
Lemma CString_parse_loop_spec (terminators payload : list byte) (t : byte) :
  t ∈ terminators ->
  Forall (fun b => b ∉ terminators) payload ->
  forall (fuel : nat) (pre rest acc : list byte) (h : Heap),
    (length payload < fuel)%nat ->
    CString_parse_loop terminators fuel acc
      (mkState (mkBytesIO (pre ++ payload ++ t :: rest) (len pre)) h) =
    (Ok (acc ++ payload),
     mkState (mkBytesIO (pre ++ payload ++ t :: rest)
                (len pre + len payload + 1)) h).
Proof.
  intros Ht Hfree. induction Hfree as [|b payload Hb Hfree IH];
    intros fuel pre rest acc h Hfuel.
  - destruct fuel as [|fuel]; [cbn in Hfuel; lia|].
    cbn [CString_parse_loop app]. unfold bind.
    rewrite read_one_at. rewrite bytes_contains_single.
    rewrite bool_decide_eq_true_2 by exact Ht.
    unfold ret. rewrite app_nil_r, len_app, len_cons.
    change (len []) with 0. repeat (lia || f_equal).
  - destruct fuel as [|fuel]; [cbn in Hfuel; lia|].
    cbn [CString_parse_loop]. unfold bind.
    change ((b :: payload) ++ t :: rest) with (b :: (payload ++ t :: rest)).
    rewrite read_one_at. rewrite bytes_contains_single.
    rewrite bool_decide_eq_false_2 by exact Hb.
    replace (pre ++ b :: payload ++ t :: rest)
      with ((pre ++ [b]) ++ payload ++ t :: rest)
      by (rewrite <- app_assoc; reflexivity).
    rewrite IH by (cbn in Hfuel; lia).
    rewrite <- app_assoc. cbn [app].
    rewrite len_app, !len_cons. change (len []) with 0.
    repeat (lia || f_equal).
Qed.

(** C7.  For a byte string [payload] that holds none of the terminator
    bytes (and no codec), [CString] builds [payload] followed by exactly the
    first terminator; parsing [payload], any terminator [t] and whatever
    follows returns [payload] without [t] and leaves the stream right after
    [t]; so parsing what was built returns [payload]. *)
Theorem CString_roundtrip (terminators : list byte) (nm : option string)
    (c : Construct) (payload : list byte) (s : State) :
  CString terminators None nm = Ok c ->
  Forall (fun b => b ∉ terminators) payload ->
  exists t0,
    take 1 terminators = [t0] /\
    result (build c (VBytes payload) None s) = Ok (payload ++ [t0]) /\
    result (parse c (payload ++ [t0]) None s) = Ok (VBytes payload) /\
    forall (t : byte) (rest : list byte) (ctx : addr) (h : Heap),
      t ∈ terminators ->
      _parse c ctx (mkState (BytesIO_new (payload ++ t :: rest)) h) =
        (Ok (VBytes payload),
         mkState (mkBytesIO (payload ++ t :: rest) (len payload + 1)) h).
Proof.
  intros Hc Hfree. unfold CString in Hc.
  destruct terminators as [|t0 ts]; [cbn in Hc; discriminate|].
  assert (Hlt : (len (t0 :: ts) <? 1) = false).
  { apply Z.ltb_ge. rewrite len_cons. pose proof (len_nonneg ts). lia. }
  rewrite Hlt in Hc.
  destruct (Construct__init__ nm); cbn in Hc; [|discriminate].
  injection Hc as <-.
  assert (Hparse : forall (t : byte) (rest : list byte) (ctx : addr) (h : Heap),
    t ∈ t0 :: ts ->
    CString_parse (t0 :: ts) None ctx
      (mkState (BytesIO_new (payload ++ t :: rest)) h) =
    (Ok (VBytes payload),
     mkState (mkBytesIO (payload ++ t :: rest) (len payload + 1)) h)).
  { intros t rest ctx h Ht. unfold CString_parse, bind, BytesIO_new.
    pose proof (CString_parse_loop_spec (t0 :: ts) payload t Ht Hfree
                  (S (bytes_left (mkState (mkBytesIO (payload ++ t :: rest) 0) h)))
                  [] rest [] h) as Hloop.
    cbn [app] in Hloop. change (len []) with 0 in Hloop.
    rewrite Hloop.
    - reflexivity.
    - unfold bytes_left; cbn. rewrite length_app. cbn. lia. }
  exists t0. split; [reflexivity|]. split; [|split].
  - unfold result, build, with_stream, build_stream, bind, new_container, ret.
    cbn [_build stream heap fst snd].
    unfold CString_build, bind, lift_outcome, _encode_string.
    cbn [take firstn].
    rewrite _write_stream_bytes. cbn [stream fst snd].
    rewrite BytesIO_write_fresh. reflexivity.
  - unfold result, parse, with_stream, parse_stream, bind, new_container, ret.
    cbn [_parse stream heap fst snd].
    rewrite (Hparse t0 [] _ _ ltac:(left)). reflexivity.
  - exact Hparse.
Qed.

Lemma CString_roundtrip_witness :
  exists t0,
    take 1 [x00] = [t0] /\
    result (build (mkConstruct ClsCString None 0
                     (CString_parse [x00] None) (CString_build [x00] None)
                     (fun _ => raise SizeofError))
              (VBytes [x68; x65; x6c; x6c; x6f]) None empty_state)
      = Ok ([x68; x65; x6c; x6c; x6f] ++ [t0]) /\
    result (parse (mkConstruct ClsCString None 0
                     (CString_parse [x00] None) (CString_build [x00] None)
                     (fun _ => raise SizeofError))
              ([x68; x65; x6c; x6c; x6f] ++ [t0]) None empty_state)
      = Ok (VBytes [x68; x65; x6c; x6c; x6f]) /\
    forall (t : byte) (rest : list byte) (ctx : addr) (h : Heap),
      t ∈ [x00] ->
      _parse (mkConstruct ClsCString None 0
                (CString_parse [x00] None) (CString_build [x00] None)
                (fun _ => raise SizeofError)) ctx
        (mkState (BytesIO_new ([x68; x65; x6c; x6c; x6f] ++ t :: rest)) h) =
        (Ok (VBytes [x68; x65; x6c; x6c; x6f]),
         mkState (mkBytesIO ([x68; x65; x6c; x6c; x6f] ++ t :: rest)
                    (len [x68; x65; x6c; x6c; x6f] + 1)) h).
Proof.
  apply (CString_roundtrip [x00] None _ [x68; x65; x6c; x6c; x6f] empty_state).
  - reflexivity.
  - repeat constructor; intros H; apply list_elem_of_In in H; cbn in H;
      intuition discriminate.
Defined.

(** ** Store operations leave the stream alone *)

Lemma get_container_inv (a : addr) (s : State) :
  snd (get_container a s) = s.
Proof. unfold get_container. destruct (heap s !! a); reflexivity. Qed.

Lemma ctx_setitem_stream (a : addr) (k : key) (v : value) (s : State) :
  stream (snd (ctx_setitem a k v s)) = stream s.
Proof.
  unfold ctx_setitem, bind, get_container, put_container.
  destruct (heap s !! a); reflexivity.
Qed.

Lemma ctx_update_stream (a b : addr) (s : State) :
  stream (snd (ctx_update a b s)) = stream s.
Proof.
  unfold ctx_update, bind, get_container, put_container.
  destruct (heap s !! a); [|reflexivity].
  destruct (heap s !! b); reflexivity.
Qed.

Lemma _updcon_stream (a : addr) (sc : Construct) (v : value) (s : State) :
  stream (snd (_updcon a sc v s)) = stream s.
Proof.
  unfold _updcon. destruct (_is_flag sc FLAG_EMBED).
  - destruct v; try reflexivity.
    + destruct (pairs_of_sequence vs); [|reflexivity].
      unfold bind, get_container, put_container.
      destruct (heap s !! a); reflexivity.
    + destruct (pairs_of_sequence vs); [|reflexivity].
      unfold bind, get_container, put_container.
      destruct (heap s !! a); reflexivity.
    + unfold bind, get_container, put_container.
      destruct (heap s !! a); reflexivity.
    + apply ctx_update_stream.
  - apply ctx_setitem_stream.
Qed.

(** ** C3: Union *)

(** [Peek] leaves the cursor where it found it, whatever the wrapped
    construct did and however it ended. *)
Lemma Peek_parse_position (subcon : Construct) (ctx : addr) (s : State) :
  0 <= position (stream s) ->
  final_position (Peek_parse subcon ctx s) = position (stream s).
Proof.
  intros Hpos.
  unfold final_position, Peek_parse, bind, tell, try_finally, try_except,
    seek, BytesIO_seek, BytesIO_tell.
  cbn [fst snd].
  assert (Hlt : (position (stream s) <? 0) = false) by (apply Z.ltb_ge; lia).
  destruct (_parse subcon ctx s) as [[v|e] s1]; cbn.
  - rewrite Hlt. reflexivity.
  - destruct (issubclass e FieldError); cbn; rewrite Hlt; reflexivity.
Qed.

Lemma peek_all_spec (subcons args : list Construct) :
  peek_all subcons = Ok args ->
  Forall2 (fun sc p => _parse p = Peek_parse sc /\ _sizeof p = _sizeof sc)
    subcons args.
Proof.
  revert args. induction subcons as [|sc subcons IH]; intros args H.
  - injection H as <-. constructor.
  - cbn in H. unfold Peek in H.
    destruct (Subconstruct__init__ sc); cbn in H; [|discriminate].
    destruct (peek_all subcons) as [ps|]; cbn in H; [|discriminate].
    injection H as <-. constructor; [split; reflexivity|].
    apply IH. reflexivity.
Qed.

Lemma Union_parse_loop_position (ret_ : addr) (subcons args : list Construct)
    (ctx : addr) :
  Forall2 (fun sc p => _parse p = Peek_parse sc /\ _sizeof p = _sizeof sc)
    subcons args ->
  forall s, 0 <= position (stream s) ->
    final_position (Union_parse_loop ret_ args ctx s) = position (stream s).
Proof.
  induction 1 as [|sc p subcons args [Hp _] _ IH]; intros s Hpos.
  - reflexivity.
  - cbn [Union_parse_loop]. unfold bind. rewrite Hp.
    pose proof (Peek_parse_position sc ctx s Hpos) as Hpeek.
    unfold final_position in *.
    destruct (Peek_parse sc ctx s) as [[v|e] s1]; cbn [snd] in *;
      [|exact Hpeek].
    pose proof (_updcon_stream ret_ p v s1) as Hupd.
    destruct (_updcon ret_ p v s1) as [[u|e] s2]; cbn [snd] in *.
    + rewrite IH by (rewrite Hupd, Hpeek; exact Hpos).
      rewrite Hupd. exact Hpeek.
    + rewrite Hupd. exact Hpeek.
Qed.

(** C3, as the code has it.  For subconstructs [A] and [B] whose sizes are
    defined, the size of [Union(A, B)] is the larger of the two; parsing
    leaves the cursor where it was before the call, however the parse ends:
    every member is read under a [Peek]. *)
Theorem Union_sizeof_max_parse_restores (nm : option string)
    (A B : Construct) (bf : buildfrom_arg) (U : Construct) (ctx : addr) :
  Union nm [A; B] bf = Ok U ->
  (forall s s1 s2 a b,
     _sizeof A ctx s = (Ok a, s1) ->
     _sizeof B ctx s1 = (Ok b, s2) ->
     _sizeof U ctx s = (Ok (Z.max a b), s2)) /\
  (forall s,
     0 <= position (stream s) ->
     final_position (_parse U ctx s) = position (stream s)).
Proof.
  intros HU. unfold Union in HU.
  destruct (Construct__init__ nm) as [[]|]; cbn [obind] in HU; [|discriminate].
  destruct (peek_all [A; B]) as [args|] eqn:Hargs; cbn [obind] in HU;
    [|discriminate].
  injection HU as <-.
  pose proof (peek_all_spec _ _ Hargs) as Hspec.
  split.
  - intros s s1 s2 a b Ha Hb. cbn [_sizeof].
    inversion Hspec as [|? pa ? args' [_ Hsa] Hrest]; subst.
    inversion Hrest as [|? pb ? args'' [_ Hsb] Hnil]; subst.
    inversion Hnil; subst.
    unfold Union_sizeof, bind. cbn [sizes_of]. unfold bind.
    rewrite Hsa, Ha, Hsb, Hb. reflexivity.
  - intros s Hpos. cbn [_parse].
    unfold Union_parse, bind, new_container.
    pose proof (Union_parse_loop_position (length (heap s)) _ _ ctx Hspec
                  (mkState (stream s) (heap s ++ [[]])) Hpos) as Hloop.
    unfold final_position in *. cbn [stream] in Hloop.
    destruct (Union_parse_loop _ args ctx _) as [[u|e] s1]; cbn [snd] in *;
      exact Hloop.
Qed.

Lemma Union_sizeof_max_parse_restores_witness :
  exists A B U,
    UBInt8 (Some "a") = Ok A /\ UBInt16 (Some "b") = Ok B /\
    Union None [A; B] BuildFromNone = Ok U /\
    _sizeof U 0%nat (start []) = (Ok (Z.max 1 2), start []) /\
    final_position (_parse U 0%nat (start [x01; x02; x03])) = 0.
Proof.
  eexists _, _, _.
  split; [reflexivity|]. split; [reflexivity|].
  match goal with
  | |- Union None [?A; ?B] _ = _ /\ _ =>
      destruct (Union_sizeof_max_parse_restores None A B BuildFromNone _ 0%nat
                  eq_refl) as [Hsize Hpos]
  end.
  split; [reflexivity|].
  split.
  - apply (Hsize (start []) (start [])); reflexivity.
  - apply (Hpos (start [x01; x02; x03])). cbn. lia.
Defined.

(** C3, the claim as stated fails: [Union(UBInt8("a"), UBInt16("b"))] has
    size 2, and parsing [01 02 03] from position 0 yields both members but
    leaves the cursor at 0, not at 2. *)
Lemma Union_parse_leaves_cursor_at_start :
  exists A B U,
    UBInt8 (Some "a") = Ok A /\ UBInt16 (Some "b") = Ok B /\
    Union None [A; B] BuildFromNone = Ok U /\
    run (sizeof U None) = Ok 2 /\
    _parse U 0%nat (start [x01; x02; x03]) =
      (Ok (VRef 1%nat),
       mkState (mkBytesIO [x01; x02; x03] 0)
               [[]; [(Some "a", VInt 1); (Some "b", VInt 258)]]) /\
    final_position (_parse U 0%nat (start [x01; x02; x03])) <> 2.
Proof.
  eexists _, _, _.
  split; [reflexivity|]. split; [reflexivity|]. split; [reflexivity|].
  split; [vm_compute; reflexivity|].
  split; [vm_compute; reflexivity|].
  vm_compute. discriminate.
Qed.

(** ** C9: Pointer *)

Lemma seek_pointer_target (newpos : Z) (s : State) :
  seek newpos (if newpos <? 0 then 2 else 0) s =
    (Ok tt, mkState (pointer_target newpos (stream s)) (heap s)).
Proof.
  unfold seek, BytesIO_seek, pointer_target.
  destruct (newpos <? 0) eqn:E.
  - reflexivity.
  - reflexivity.
Qed.

Lemma seek_back (p : Z) (s : State) :
  0 <= p ->
  seek p 0 s = (Ok tt, mkState (mkBytesIO (buffer (stream s)) p) (heap s)).
Proof.
  intros Hp. unfold seek, BytesIO_seek.
  change (0 =? 0) with true. cbn match.
  replace (p <? 0) with false by (symmetry; apply Z.ltb_ge; lia).
  reflexivity.
Qed.

(** C9.  [Pointer] runs its subconstruct with the cursor at the offset the
    offset function computes from the context, a negative offset counting
    from the end of the stream; when the subconstruct returns, parsing and
    building put the cursor back where it was before the call, and nothing
    else about the outcome is changed.  Conversely a [Pointer] that returns
    always leaves the cursor where it found it.  Its size is 0 in every
    context. *)
Theorem Pointer_restores_position (offsetfunc : callback Z)
    (subcon P : Construct) (ctx : addr) (s : State) :
  Pointer offsetfunc subcon = Ok P ->
  0 <= position (stream s) ->
  _sizeof P ctx s = (Ok 0, s) /\
  (forall newpos v s1,
     offsetfunc ctx (heap s) = Ok newpos ->
     _parse subcon ctx (mkState (pointer_target newpos (stream s)) (heap s))
       = (Ok v, s1) ->
     _parse P ctx s =
       (Ok v, mkState (mkBytesIO (buffer (stream s1)) (position (stream s)))
                      (heap s1))) /\
  (forall newpos obj u s1,
     offsetfunc ctx (heap s) = Ok newpos ->
     _build subcon obj ctx (mkState (pointer_target newpos (stream s)) (heap s))
       = (Ok u, s1) ->
     _build P obj ctx s =
       (Ok tt, mkState (mkBytesIO (buffer (stream s1)) (position (stream s)))
                       (heap s1))) /\
  (forall v s', _parse P ctx s = (Ok v, s') ->
     position (stream s') = position (stream s)) /\
  (forall obj u s', _build P obj ctx s = (Ok u, s') ->
     position (stream s') = position (stream s)).
Proof.
  intros HP Hpos. unfold Pointer in HP.
  destruct (Subconstruct__init__ subcon) as [[]|]; cbn [obind] in HP;
    [|discriminate].
  injection HP as <-. cbn [_sizeof _parse _build].
  split; [reflexivity|].
  split; [|split; [|split]].
  - intros newpos v s1 Hoff Hsub.
    unfold Pointer_parse, bind, call, tell, BytesIO_tell.
    rewrite Hoff, seek_pointer_target, Hsub.
    rewrite seek_back by exact Hpos. reflexivity.
  - intros newpos obj u s1 Hoff Hsub.
    unfold Pointer_build, bind, call, tell, BytesIO_tell.
    rewrite Hoff, seek_pointer_target, Hsub.
    rewrite seek_back by exact Hpos. reflexivity.
  - intros v s'.
    unfold Pointer_parse, bind, call, tell, BytesIO_tell.
    destruct (offsetfunc ctx (heap s)) as [newpos|]; [|discriminate].
    rewrite seek_pointer_target.
    destruct (_parse subcon ctx _) as [[v1|e] s1]; [|discriminate].
    rewrite seek_back by exact Hpos. unfold ret.
    intros [= _ <-]. reflexivity.
  - intros obj u s'.
    unfold Pointer_build, bind, call, tell, BytesIO_tell.
    destruct (offsetfunc ctx (heap s)) as [newpos|]; [|discriminate].
    rewrite seek_pointer_target.
    destruct (_build subcon obj ctx _) as [[u1|e] s1]; [|discriminate].
    rewrite seek_back by exact Hpos.
    intros [= _ <-]. reflexivity.
Qed.

Lemma Pointer_restores_position_witness :
  exists F P,
    UBInt8 (Some "pointer") = Ok F /\
    Pointer (fun _ _ => Ok 2) F = Ok P /\
    _sizeof P 0%nat (start [x00; x00; x07]) = (Ok 0, start [x00; x00; x07]) /\
    _parse P 0%nat (start [x00; x00; x07]) =
      (Ok (VInt 7), start [x00; x00; x07]) /\
    _build P (VInt 7) 0%nat (start []) =
      (Ok tt, mkState (mkBytesIO [x00; x00; x07] 0) [[]]).
Proof.
  eexists _, _. split; [reflexivity|].
  match goal with
  | |- Pointer _ ?F = _ /\ _ =>
      destruct (Pointer_restores_position (fun _ _ => Ok 2) F _ 0%nat
                  (start [x00; x00; x07]) eq_refl ltac:(cbn; lia))
        as (Hsize & Hparse & _);
      destruct (Pointer_restores_position (fun _ _ => Ok 2) F _ 0%nat
                  (start []) eq_refl ltac:(cbn; lia))
        as (_ & _ & Hbuild & _)
  end.
  split; [reflexivity|].
  split; [exact Hsize|]. split.
  - apply (Hparse 2 (VInt 7)
             (mkState (mkBytesIO [x00; x00; x07] 3) [[]])); reflexivity.
  - apply (Hbuild 2 (VInt 7) tt
             (mkState (mkBytesIO [x00; x00; x07] 3) [[]])); reflexivity.
Defined.

(** ** C6 and C10: Range *)

Section RangeFacts.
Variables (mincount maxcount : Z) (subcon : Construct) (ctx : addr).

Lemma iteration_context_stream s :
  stream (snd (iteration_context subcon ctx s)) = stream s.
Proof.
  unfold iteration_context, ctx_copy, bind, get_container, new_container.
  destruct (_is_flag subcon FLAG_COPY_CONTEXT); [|reflexivity].
  destruct (heap s !! ctx); reflexivity.
Qed.

(** The loop after some successes: the items parsed so far are kept in
    front. *)
Lemma Range_parse_loop_parses s vs s1 :
  parses subcon ctx s vs s1 ->
  forall n obj c,
    Range_parse_loop mincount subcon (length vs + n) obj c ctx s =
    Range_parse_loop mincount subcon n (obj ++ vs) (c + len vs) ctx s1.
Proof.
  induction 1 as [s|s ctx' s0 v s1 vs s2 Hctx Hv _ IH]; intros n obj c.
  - rewrite app_nil_r. change (len []) with 0. rewrite Z.add_0_r.
    reflexivity.
  - cbn [length Nat.add Range_parse_loop].
    unfold bind at 1. unfold tell at 1. unfold bind at 1.
    rewrite Hctx. unfold try_except_else. rewrite Hv.
    rewrite IH. rewrite <- app_assoc. cbn [app].
    rewrite len_cons. f_equal. lia.
Qed.

(** One more turn, in which the subconstruct raises. *)
Lemma Range_parse_loop_raise s ctx' s0 e s1 n obj c :
  iteration_context subcon ctx s = (Ok ctx', s0) ->
  _parse subcon ctx' s0 = (Raise e, s1) ->
  Range_parse_loop mincount subcon (S n) obj c ctx s =
    if issubclass e ConstructError then
      if c <? mincount then (Raise RangeError, s1)
      else (seek (position (stream s)) 0 >> ret (VList obj)) s1
    else (Raise e, s1).
Proof.
  intros Hctx He. cbn [Range_parse_loop].
  unfold bind at 1. unfold tell at 1. unfold bind at 1.
  rewrite Hctx. unfold try_except_else. rewrite He.
  destruct (issubclass e ConstructError); [|reflexivity].
  destruct (c <? mincount); reflexivity.
Qed.

(** Whatever list the loop returns holds the items it started with and at
    most one more per turn, and at least [mincount] of them if it stopped
    early. *)
Lemma Range_parse_loop_length n :
  forall obj c s v s',
    c = len obj ->
    mincount <= c + Z.of_nat n ->
    Range_parse_loop mincount subcon n obj c ctx s = (Ok v, s') ->
    exists l, v = VList l /\ mincount <= len l <= c + Z.of_nat n.
Proof.
  induction n as [|n IH]; intros obj c s v s' Hc Hmin Hrun.
  - cbn in Hrun. injection Hrun as <- <-. exists obj. split; [reflexivity|].
    lia.
  - cbn [Range_parse_loop] in Hrun.
    unfold bind at 1 in Hrun. unfold tell at 1 in Hrun.
    unfold bind at 1 in Hrun.
    destruct (iteration_context subcon ctx s) as [[ctx'|e] s0];
      [|discriminate].
    unfold try_except_else in Hrun.
    destruct (_parse subcon ctx' s0) as [[x|e] s1].
    + apply IH in Hrun as (l & -> & Hl).
      * exists l. split; [reflexivity|]. lia.
      * rewrite len_app, len_cons. change (len []) with 0. lia.
      * lia.
    + destruct (issubclass e ConstructError); [|discriminate].
      destruct (c <? mincount) eqn:Hlt; [discriminate|].
      apply Z.ltb_ge in Hlt.
      unfold bind, seek in Hrun.
      destruct (BytesIO_seek _ _ _); [|discriminate].
      injection Hrun as <- <-. exists obj. split; [reflexivity|]. lia.
Qed.

(** The build loop after some successes. *)
Lemma Range_build_loop_builds s xs s1 :
  builds subcon ctx s xs s1 ->
  forall rest cnt,
    Range_build_loop mincount subcon (xs ++ rest) cnt ctx s =
    Range_build_loop mincount subcon rest (cnt + len xs) ctx s1.
Proof.
  induction 1 as [s|s ctx' s0 x u s1 xs s2 Hctx Hx _ IH]; intros rest cnt.
  - change (len []) with 0. rewrite Z.add_0_r. reflexivity.
  - cbn [app Range_build_loop]. unfold bind at 1.
    rewrite Hctx. unfold try_except_else. rewrite Hx.
    rewrite IH. rewrite len_cons. f_equal. lia.
Qed.
End RangeFacts.

Lemma Range_inv (mincount maxcount : Z) (subcon R : Construct) :
  Range mincount maxcount subcon = Ok R ->
  0 <= mincount <= maxcount /\
  _parse R = Range_parse mincount maxcount subcon /\
  _build R = Range_build mincount maxcount subcon.
Proof.
  unfold Range. intros H.
  destruct ((0 <=? mincount) && (mincount <=? maxcount)) eqn:E;
    cbn [negb] in H; [|discriminate].
  apply andb_true_iff in E as [E1%Z.leb_le E2%Z.leb_le].
  destruct (Subconstruct__init__ subcon) as [[]|]; cbn [obind] in H;
    [|discriminate].
  injection H as <-. repeat split; assumption.
Qed.

(** C6, as the code has it.  For [Range(min, max, C)], which exists only
    when [0 <= min <= max]: a list returned by parsing has between [min]
    and [max] items; [max] successes in a row are returned as they are;
    when the subconstruct raises an error of the root kind
    ([ConstructError]) after the items [vs], fewer than [max], a range
    error is raised if [vs] has fewer than [min] items, and otherwise [vs]
    is returned with the cursor back where it was before the failed
    attempt; an error that is not of the root kind leaves [Range] as it
    is; building raises a range error when the input is not a sequence or
    its length is outside [min, max]. *)
Theorem Range_bounds (mincount maxcount : Z) (subcon R : Construct)
    (ctx : addr) (s : State) :
  Range mincount maxcount subcon = Ok R ->
  0 <= mincount <= maxcount /\
  (forall v s', _parse R ctx s = (Ok v, s') ->
     exists l, v = VList l /\ mincount <= len l <= maxcount) /\
  (forall vs s1,
     parses subcon ctx s vs s1 -> len vs = maxcount ->
     _parse R ctx s = (Ok (VList vs), s1)) /\
  (forall vs s1 ctx' s0 e s2,
     parses subcon ctx s vs s1 -> len vs < maxcount ->
     iteration_context subcon ctx s1 = (Ok ctx', s0) ->
     _parse subcon ctx' s0 = (Raise e, s2) ->
     (construct_error e -> len vs < mincount ->
        _parse R ctx s = (Raise RangeError, s2)) /\
     (construct_error e -> mincount <= len vs -> 0 <= position (stream s1) ->
        _parse R ctx s =
          (Ok (VList vs),
           mkState (mkBytesIO (buffer (stream s2)) (position (stream s1)))
                   (heap s2))) /\
     (~ construct_error e -> _parse R ctx s = (Raise e, s2))) /\
  (forall obj, as_sequence obj = None ->
     _build R obj ctx s = (Raise RangeError, s)) /\
  (forall obj items, as_sequence obj = Some items ->
     len items < mincount \/ maxcount < len items ->
     _build R obj ctx s = (Raise RangeError, s)).
Proof.
  intros HR. apply Range_inv in HR as (Hmm & -> & ->).
  split; [exact Hmm|].
  split; [|split; [|split; [|split]]].
  - intros v s' Hrun. unfold Range_parse in Hrun.
    apply Range_parse_loop_length in Hrun as (l & -> & Hl).
    + exists l. split; [reflexivity|]. lia.
    + reflexivity.
    + lia.
  - intros vs s1 Hvs Hlen. unfold Range_parse.
    replace (Z.to_nat maxcount) with (length vs + 0)%nat
      by (unfold len in Hlen; lia).
    rewrite (Range_parse_loop_parses _ _ _ _ _ _ Hvs). reflexivity.
  - intros vs s1 ctx' s0 e s2 Hvs Hlen Hctx He. unfold Range_parse.
    replace (Z.to_nat maxcount)
      with (length vs + S (Z.to_nat maxcount - length vs - 1))%nat
      by (unfold len in Hlen; lia).
    rewrite (Range_parse_loop_parses _ _ _ _ _ _ Hvs).
    rewrite (Range_parse_loop_raise _ _ _ _ _ _ _ _ _ _ _ Hctx He).
    cbn [app]. rewrite Z.add_0_l.
    split; [|split].
    + intros Hce Hlt. rewrite Hce.
      replace (len vs <? mincount) with true by (symmetry; apply Z.ltb_lt; lia).
      reflexivity.
    + intros Hce Hge Hpos. rewrite Hce.
      replace (len vs <? mincount) with false
        by (symmetry; apply Z.ltb_ge; lia).
      unfold bind. rewrite seek_back by exact Hpos. reflexivity.
    + intros Hce. unfold construct_error in Hce.
      destruct (issubclass e ConstructError); [congruence|reflexivity].
  - intros obj Hseq. unfold Range_build. rewrite Hseq. reflexivity.
  - intros obj items Hseq Hlen. unfold Range_build. rewrite Hseq.
    replace ((len items <? mincount) || (maxcount <? len items)) with true.
    + reflexivity.
    + symmetry. apply orb_true_iff.
      destruct Hlen; [left; apply Z.ltb_lt | right; apply Z.ltb_lt]; lia.
Qed.

(** C10, as the code has it.  When [Range(min, max).build] is given a
    sequence of a valid length and the subconstruct raises an error of the
    root kind on an item that comes after at least [min] built items, the
    build returns normally in the state the failed attempt left: the error
    is dropped, no later item is built and the stream is not rewound, so
    the output holds the items built before the failure followed by
    whatever the failed attempt had written when it failed; if the failed
    attempt wrote nothing, the stream is the one the earlier items
    produced. *)
Theorem Range_build_drops_late_error (mincount maxcount : Z)
    (subcon R : Construct) (ctx : addr) (obj : value)
    (pre post : list value) (x : value) (s s1 s0 s2 : State) (ctx' : addr)
    (e : error) :
  Range mincount maxcount subcon = Ok R ->
  as_sequence obj = Some (pre ++ x :: post) ->
  mincount <= len (pre ++ x :: post) <= maxcount ->
  builds subcon ctx s pre s1 ->
  mincount <= len pre ->
  iteration_context subcon ctx s1 = (Ok ctx', s0) ->
  _build subcon x ctx' s0 = (Raise e, s2) ->
  construct_error e ->
  _build R obj ctx s = (Ok tt, s2) /\
  (stream s2 = stream s0 -> stream (snd (_build R obj ctx s)) = stream s1).
Proof.
  intros HR Hseq Hlen Hpre Hmin Hctx Hx He.
  apply Range_inv in HR as (Hmm & _ & ->).
  assert (Hrun : Range_build mincount maxcount subcon obj ctx s = (Ok tt, s2)).
  { unfold Range_build. rewrite Hseq.
    replace ((len (pre ++ x :: post) <? mincount)
             || (maxcount <? len (pre ++ x :: post))) with false.
    - rewrite (Range_build_loop_builds _ _ _ _ _ _ Hpre).
      cbn [Range_build_loop]. unfold bind at 1. rewrite Hctx.
      unfold try_except_else. rewrite Hx, He.
      replace (0 + len pre <? mincount) with false
        by (symmetry; apply Z.ltb_ge; lia).
      reflexivity.
    - symmetry. apply orb_false_iff. split; apply Z.ltb_ge; lia. }
  split; [exact Hrun|].
  intros Hs. rewrite Hrun. cbn [snd]. rewrite Hs.
  pose proof (iteration_context_stream subcon ctx s1) as Hic.
  rewrite Hctx in Hic. exact Hic.
Qed.

Lemma Range_bounds_witness :
  exists F R,
    UBInt8 None = Ok F /\ Range 3 5 F = Ok R /\
    0 <= 3 <= 5 /\
    _parse R 0%nat (start [x01; x02]) =
      (Raise RangeError, mkState (mkBytesIO [x01; x02] 2) [[]]) /\
    _parse R 0%nat (start [x01; x02; x03; x04]) =
      (Ok (VList [VInt 1; VInt 2; VInt 3; VInt 4]),
       mkState (mkBytesIO [x01; x02; x03; x04] 4) [[]]) /\
    _parse R 0%nat (start [x01; x02; x03; x04; x05; x06]) =
      (Ok (VList [VInt 1; VInt 2; VInt 3; VInt 4; VInt 5]),
       mkState (mkBytesIO [x01; x02; x03; x04; x05; x06] 5) [[]]) /\
    _build R (VInt 0) 0%nat (start []) = (Raise RangeError, start []) /\
    _build R (VList [VInt 1; VInt 2]) 0%nat (start []) =
      (Raise RangeError, start []).
Proof.
  eexists _, _. split; [reflexivity|].
  match goal with
  | |- Range _ _ ?F = _ /\ _ =>
      destruct (Range_bounds 3 5 F _ 0%nat (start [x01; x02]) eq_refl)
        as (Hmm & _ & _ & Hshort & _);
      destruct (Range_bounds 3 5 F _ 0%nat (start [x01; x02; x03; x04])
                  eq_refl)
        as (_ & _ & _ & Hstop & _);
      destruct (Range_bounds 3 5 F _ 0%nat
                  (start [x01; x02; x03; x04; x05; x06]) eq_refl)
        as (_ & _ & Hfull & _);
      destruct (Range_bounds 3 5 F _ 0%nat (start []) eq_refl)
        as (_ & _ & _ & _ & Hnoseq & Hlen)
  end.
  split; [reflexivity|]. split; [exact Hmm|].
  split; [|split; [|split; [|split]]].
  - edestruct (Hshort [VInt 1; VInt 2]) as (Hlow & _).
    + repeat (eapply parses_cons; [reflexivity|reflexivity|]).
      apply parses_nil.
    + reflexivity.
    + reflexivity.
    + reflexivity.
    + apply Hlow; reflexivity.
  - edestruct (Hstop [VInt 1; VInt 2; VInt 3; VInt 4]) as (_ & Hhigh & _).
    + repeat (eapply parses_cons; [reflexivity|reflexivity|]).
      apply parses_nil.
    + reflexivity.
    + reflexivity.
    + reflexivity.
    + apply Hhigh; [reflexivity| |]; unfold len; cbn; lia.
  - eapply (Hfull [VInt 1; VInt 2; VInt 3; VInt 4; VInt 5]).
    + repeat (eapply parses_cons; [reflexivity|reflexivity|]).
      apply parses_nil.
    + reflexivity.
  - apply Hnoseq. reflexivity.
  - apply (Hlen _ [VInt 1; VInt 2]); [reflexivity|]. left. reflexivity.
Defined.

(** C6, the claim as stated fails: in [Range(0, 5, Struct(UBInt8("a"),
    UBInt8("a")))] the subconstruct fails on its first attempt with the
    overwrite error, which is a [ValueError]; no items are required, yet
    the empty list is not returned and the cursor is not taken back to 0:
    the overwrite error leaves [Range] with the cursor at 2. *)
Lemma Range_does_not_recover_from_overwrite :
  exists A S R,
    UBInt8 (Some "a") = Ok A /\
    Struct None [A; A] true false = Ok S /\
    Range 0 5 S = Ok R /\
    result (_parse R 0%nat (start [x01; x02])) = Raise OverwriteError /\
    final_position (_parse R 0%nat (start [x01; x02])) = 2 /\
    result (_parse R 0%nat (start [x01; x02])) <> Ok (VList []) /\
    result (_parse R 0%nat (start [x01; x02])) <> Raise RangeError.
Proof.
  eexists _, _, _.
  split; [reflexivity|]. split; [reflexivity|]. split; [reflexivity|].
  split; [vm_compute; reflexivity|]. split; [vm_compute; reflexivity|].
  split; vm_compute; discriminate.
Qed.

Lemma Range_build_drops_late_error_witness :
  exists F R,
    UBInt8 None = Ok F /\ Range 3 5 F = Ok R /\
    _build R (VList [VInt 1; VInt 2; VInt 3; VInt 400; VInt 5]) 0%nat
      (start []) =
      (Ok tt, mkState (mkBytesIO [x01; x02; x03] 3) [[]]) /\
    (stream (mkState (mkBytesIO [x01; x02; x03] 3) [[]]) =
     stream (mkState (mkBytesIO [x01; x02; x03] 3) [[]]) ->
     stream (snd (_build R (VList [VInt 1; VInt 2; VInt 3; VInt 400; VInt 5])
                    0%nat (start []))) =
     stream (mkState (mkBytesIO [x01; x02; x03] 3) [[]])).
Proof.
  eexists _, _. split; [reflexivity|].
  match goal with
  | |- Range _ _ ?F = _ /\ _ =>
      pose proof (Range_build_drops_late_error 3 5 F _ 0%nat
        (VList [VInt 1; VInt 2; VInt 3; VInt 400; VInt 5])
        [VInt 1; VInt 2; VInt 3] [VInt 5] (VInt 400)
        (start [])
        (mkState (mkBytesIO [x01; x02; x03] 3) [[]])
        (mkState (mkBytesIO [x01; x02; x03] 3) [[]])
        (mkState (mkBytesIO [x01; x02; x03] 3) [[]])
        0%nat FieldError eq_refl eq_refl) as H
  end.
  split; [reflexivity|].
  apply H.
  - unfold len; cbn; lia.
  - repeat (eapply builds_cons; [reflexivity|reflexivity|]).
    apply builds_nil.
  - unfold len; cbn; lia.
  - reflexivity.
  - reflexivity.
  - reflexivity.
Defined.

(** C10, the claim as stated fails: in [Range(1, 5, Struct(UBInt8("a"),
    UBInt8("b")))] the second item fails at its second field, whose value
    does not fit a byte, after its first field has been written.  The
    error is dropped and the build returns, but the output is not made of
    the item built before the failure only: it holds the first byte of the
    failed item as well. *)
Lemma Range_build_keeps_partial_item :
  exists A B T R,
    UBInt8 (Some "a"%string) = Ok A /\
    UBInt8 (Some "b"%string) = Ok B /\
    Struct None [A; B] true false = Ok T /\
    Range 1 5 T = Ok R /\
    let item1 := VDict [(Some "a"%string, VInt 1); (Some "b"%string, VInt 2)] in
    let item2 := VDict [(Some "a"%string, VInt 3); (Some "b"%string, VInt 400)] in
    result (build T item1 None empty_state) = Ok [x01; x02] /\
    result (build T item2 None empty_state) = Raise FieldError /\
    result (build R (VList [item1; item2]) None empty_state)
      = Ok [x01; x02; x03] /\
    result (build R (VList [item1; item2]) None empty_state)
      <> Ok [x01; x02].
Proof.
  eexists _, _, _, _.
  split; [reflexivity|]. split; [reflexivity|]. split; [reflexivity|].
  split; [reflexivity|]. cbv zeta.
  split; [vm_compute; reflexivity|]. split; [vm_compute; reflexivity|].
  split; [vm_compute; reflexivity|]. vm_compute. discriminate.
Qed.

(** ** C5: Select *)

Section SelectFacts.
Variables (include_name : bool) (ctx : addr).

Lemma ctx_copy_ok s c :
  heap s !! ctx = Some c ->
  ctx_copy ctx s = (Ok (length (heap s)), private_copy s c).
Proof.
  intros Hc. unfold ctx_copy, bind, get_container, new_container.
  rewrite Hc. reflexivity.
Qed.

Lemma Select_parse_rejected pre s s1 :
  rejected ctx pre s s1 ->
  0 <= position (stream s) ->
  position (stream s1) = position (stream s) /\
  forall post,
    Select_parse include_name (pre ++ post) ctx s =
    Select_parse include_name post ctx s1.
Proof.
  induction 1 as [s|sc rest s c e s1 s2 Hc Hsc He _ IH]; intros Hpos.
  - split; [reflexivity|]. intros post. reflexivity.
  - destruct IH as [IHpos IHrun]; [exact Hpos|].
    split; [exact IHpos|]. intros post.
    cbn [app Select_parse].
    unfold bind at 1. unfold tell at 1. unfold bind at 1.
    rewrite (ctx_copy_ok _ _ Hc). unfold try_except_else.
    rewrite Hsc, He. unfold bind at 1.
    rewrite seek_back by exact Hpos.
    apply IHrun.
Qed.

End SelectFacts.

(** *** Regions of the store *)

Lemma Container_set_elem (k k' : key) (v v' : value) (c : Container) :
  (k', v') ∈ Container_set k v c -> (k', v') = (k, v) \/ (k', v') ∈ c.
Proof.
  induction c as [|[k0 v0] c IH]; cbn [Container_set].
  - intros H. apply list_elem_of_singleton in H. left. exact H.
  - destruct (bool_decide (k = k0)).
    + intros H. apply elem_of_cons in H as [H|H]; [left; exact H|].
      right. apply elem_of_cons. right. exact H.
    + intros H. apply elem_of_cons in H as [H|H].
      * right. apply elem_of_cons. left. exact H.
      * destruct (IH H) as [E|E]; [left; exact E|].
        right. apply elem_of_cons. right. exact E.
Qed.

Lemma Container_del_elem (k k' : key) (v' : value) (c : Container) :
  (k', v') ∈ Container_del k c -> (k', v') ∈ c.
Proof.
  induction c as [|[k0 v0] c IH]; cbn [Container_del]; [auto|].
  destruct (bool_decide (k = k0)).
  - intros H. apply elem_of_cons. right. exact H.
  - intros H. apply elem_of_cons in H as [H|H].
    + apply elem_of_cons. left. exact H.
    + apply elem_of_cons. right. apply IH. exact H.
Qed.

Lemma Container_get_elem (k : key) (v : value) (c : Container) :
  Container_get k c = Some v -> exists k', (k', v) ∈ c.
Proof.
  induction c as [|[k0 v0] c IH]; cbn [Container_get]; [discriminate|].
  destruct (bool_decide (k = k0)).
  - intros [= <-]. exists k0. apply elem_of_cons. left. reflexivity.
  - intros H. destruct (IH H) as (k' & Hk'). exists k'.
    apply elem_of_cons. right. exact Hk'.
Qed.

Section Regions.
Variable W : addr -> Prop.

Lemma keeps_to_ret {A} (a : A) (Q : A -> Prop) :
  Q a -> keeps_to W (ret a) Q.
Proof.
  intros Ha s [_ Hcl]. cbn. repeat split; auto. intros a' [= <-]. exact Ha.
Qed.

Lemma keeps_to_raise {A} (e : error) (Q : A -> Prop) :
  keeps_to W (raise e) Q.
Proof. intros s [_ Hcl]. cbn. repeat split; auto. discriminate. Qed.

Lemma keeps_to_bind {A B} (m : M A) (k : A -> M B) (Q : A -> Prop)
    (R : B -> Prop) :
  keeps_to W m Q ->
  (forall a, Q a -> keeps_to W (k a) R) ->
  keeps_to W (bind m k) R.
Proof.
  intros Hm Hk s Hreg. destruct (Hm s Hreg) as (Hlen & Hframe & Hcl & HQ).
  unfold bind. destruct (m s) as [[a|e] s1]; cbn [fst snd] in *.
  - assert (Hreg1 : region W (heap s1)).
    { split; [|exact Hcl]. intros x Hx. apply (proj1 Hreg). lia. }
    destruct (Hk a (HQ a eq_refl) s1 Hreg1) as (Hlen' & Hframe' & Hcl' & HR).
    repeat split.
    + lia.
    + intros x Hx. rewrite Hframe' by exact Hx. apply Hframe. exact Hx.
    + exact Hcl'.
    + exact HR.
  - repeat split; auto. discriminate.
Qed.

Lemma keeps_to_weaken {A} (m : M A) (Q Q' : A -> Prop) :
  keeps_to W m Q -> (forall a, Q a -> Q' a) -> keeps_to W m Q'.
Proof.
  intros Hm HQ s Hreg. destruct (Hm s Hreg) as (Hlen & Hframe & Hcl & Hq).
  repeat split; auto.
Qed.

(** A computation that leaves the store alone. *)
Lemma keeps_to_store {A} (m : M A) :
  (forall s, heap (snd (m s)) = heap s) ->
  keeps_to W m (fun _ => True).
Proof.
  intros Hm s [_ Hcl]. rewrite Hm. repeat split; auto.
Qed.

Lemma keeps_to_get_container (a : addr) :
  W a -> keeps_to W (get_container a) (within W).
Proof.
  intros Ha s [_ Hcl]. unfold get_container.
  destruct (heap s !! a) as [c|] eqn:Hc; cbn [fst snd].
  - repeat split; auto. intros c' [= <-] k v x Hkv Hx.
    apply (Hcl a c k v x Ha Hc Hkv Hx).
  - repeat split; auto. discriminate.
Qed.

Lemma keeps_to_put_container (a : addr) (c : Container) :
  W a -> within W c -> keeps_to W (put_container a c) (fun _ => True).
Proof.
  intros Ha Hc s [_ Hcl]. unfold put_container. cbn [fst snd heap].
  repeat split; auto.
  - rewrite length_insert. lia.
  - intros x Hx. apply list_lookup_insert_ne. intros ->. apply Hx. exact Ha.
  - intros a' c' k v x Ha' Hc' Hkv Hx.
    destruct (Nat.eq_dec a a') as [<-|Hne].
    + pose proof (lookup_lt_Some _ _ _ Hc') as Hlt.
      rewrite length_insert in Hlt.
      rewrite list_lookup_insert_eq in Hc' by exact Hlt.
      injection Hc' as <-. apply (Hc k v x Hkv Hx).
    + rewrite list_lookup_insert_ne in Hc' by exact Hne.
      apply (Hcl a' c' k v x Ha' Hc' Hkv Hx).
Qed.

Lemma keeps_to_new_container (c : Container) :
  within W c -> keeps_to W (new_container c) W.
Proof.
  intros Hc s [Hnew Hcl]. unfold new_container. cbn [fst snd heap].
  repeat split.
  - rewrite length_app. lia.
  - intros x Hx. apply lookup_app_l.
    destruct (Nat.lt_ge_cases x (length (heap s))) as [Hlt|Hge];
      [exact Hlt|]. exfalso. apply Hx, Hnew. exact Hge.
  - intros a' c' k v x Ha' Hc' Hkv Hx.
    destruct (Nat.lt_ge_cases a' (length (heap s))) as [Hlt|Hge].
    + rewrite lookup_app_l in Hc' by exact Hlt.
      apply (Hcl a' c' k v x Ha' Hc' Hkv Hx).
    + rewrite lookup_app_r in Hc' by exact Hge.
      destruct (a' - length (heap s))%nat as [|n]; cbn in Hc';
        [|discriminate].
      injection Hc' as <-. apply (Hc k v x Hkv Hx).
  - intros a [= <-]. apply Hnew. lia.
Qed.

Lemma keeps_to_ctx_contains (a : addr) (k : key) :
  W a -> keeps_to W (ctx_contains a k) (fun _ => True).
Proof.
  intros Ha. unfold ctx_contains.
  eapply keeps_to_bind; [apply keeps_to_get_container; exact Ha|].
  intros c _. apply keeps_to_ret. exact I.
Qed.

Lemma keeps_to_ctx_getitem (a : addr) (k : key) :
  W a -> keeps_to W (ctx_getitem a k) (fun v => forall x, x ∈ refs v -> W x).
Proof.
  intros Ha. unfold ctx_getitem.
  eapply keeps_to_bind; [apply keeps_to_get_container; exact Ha|].
  intros c Hc. destruct (Container_get k c) as [v|] eqn:Hv.
  - apply keeps_to_ret. intros x Hx.
    destruct (Container_get_elem _ _ _ Hv) as (k' & Hk').
    apply (Hc k' v x Hk' Hx).
  - apply keeps_to_raise.
Qed.

Lemma keeps_to_ctx_setitem (a : addr) (k : key) (v : value) :
  W a -> (forall x, x ∈ refs v -> W x) ->
  keeps_to W (ctx_setitem a k v) (fun _ => True).
Proof.
  intros Ha Hv. unfold ctx_setitem.
  eapply keeps_to_bind; [apply keeps_to_get_container; exact Ha|].
  intros c Hc. apply keeps_to_put_container; [exact Ha|].
  intros k' v' x Hkv Hx.
  destruct (Container_set_elem _ _ _ _ _ Hkv) as [[= -> ->]|Hin].
  - apply Hv. exact Hx.
  - apply (Hc k' v' x Hin Hx).
Qed.

Lemma keeps_to_ctx_delitem (a : addr) (k : key) :
  W a -> keeps_to W (ctx_delitem a k) (fun _ => True).
Proof.
  intros Ha. unfold ctx_delitem.
  eapply keeps_to_bind; [apply keeps_to_get_container; exact Ha|].
  intros c Hc. destruct (Container_contains k c).
  - apply keeps_to_put_container; [exact Ha|].
    intros k' v' x Hkv Hx.
    apply (Hc k' v' x (Container_del_elem _ _ _ _ Hkv) Hx).
  - apply keeps_to_raise.
Qed.

(** *** Structs keep to the region of their context *)

Lemma Struct_parse_sub_keeps (allow_overwrite : bool) (obj : value)
    (ctx : addr) (sc : Construct) :
  confined sc -> W ctx -> (forall x, x ∈ refs obj -> W x) ->
  keeps_to W (Struct_parse_sub allow_overwrite obj ctx sc) (fun _ => True).
Proof.
  intros Hsc Hctx Hobj. unfold Struct_parse_sub.
  destruct (_is_flag sc FLAG_EMBED).
  - eapply keeps_to_bind;
      [apply keeps_to_ctx_setitem; [exact Hctx | exact Hobj]|].
    intros _ _. eapply keeps_to_bind; [apply (Hsc W ctx Hctx)|].
    intros _ _. eapply keeps_to_bind;
      [apply keeps_to_ctx_contains; exact Hctx|].
    intros still _. destruct still.
    + apply keeps_to_ctx_delitem. exact Hctx.
    + apply keeps_to_ret. exact I.
  - eapply keeps_to_bind; [apply (Hsc W ctx Hctx)|].
    intros subobj Hsub. destruct (name sc) as [n|].
    + assert (Hc : keeps_to W (obj_contains obj (Some n)) (fun _ => True)).
      { unfold obj_contains. destruct obj; try apply keeps_to_raise.
        apply keeps_to_ctx_contains. apply Hobj. left. }
      eapply keeps_to_bind; [exact Hc|].
      intros present _. destruct (present && negb allow_overwrite).
      * apply keeps_to_raise.
      * eapply keeps_to_bind.
        -- unfold obj_setitem. destruct obj; try apply keeps_to_raise.
           apply keeps_to_ctx_setitem; [apply Hobj; left | exact Hsub].
        -- intros _ _. apply keeps_to_ctx_setitem; [exact Hctx | exact Hsub].
    + apply keeps_to_ret. exact I.
Qed.

Lemma Struct_parse_loop_keeps (allow_overwrite : bool) (obj : value)
    (ctx : addr) (subcons : list Construct) :
  Forall confined subcons -> W ctx -> (forall x, x ∈ refs obj -> W x) ->
  keeps_to W (Struct_parse_loop allow_overwrite obj ctx subcons)
    (fun _ => True).
Proof.
  intros Hsubs Hctx Hobj.
  induction Hsubs as [|sc subcons Hsc _ IH]; cbn [Struct_parse_loop].
  - apply keeps_to_ret. exact I.
  - eapply keeps_to_bind;
      [apply Struct_parse_sub_keeps; [exact Hsc | exact Hctx | exact Hobj]|].
    intros _ _. exact IH.
Qed.

Lemma Struct_parse_keeps (nested allow_overwrite : bool)
    (subcons : list Construct) (ctx : addr) :
  Forall confined subcons -> W ctx ->
  keeps_to W (Struct_parse nested allow_overwrite subcons ctx)
    (fun v => forall x, x ∈ refs v -> W x).
Proof.
  intros Hsubs Hctx. unfold Struct_parse.
  eapply keeps_to_bind; [apply keeps_to_ctx_contains; exact Hctx|].
  intros given _.
  eapply keeps_to_bind
    with (Q := fun oc => (forall x, x ∈ refs (fst oc) -> W x) /\ W (snd oc)).
  - destruct given.
    + eapply keeps_to_bind; [apply keeps_to_ctx_getitem; exact Hctx|].
      intros obj Hobj.
      eapply keeps_to_bind; [apply keeps_to_ctx_delitem; exact Hctx|].
      intros _ _. apply keeps_to_ret. split; [exact Hobj | exact Hctx].
    + eapply keeps_to_bind.
      { apply keeps_to_new_container. intros k v x Hkv.
        apply elem_of_nil in Hkv. destruct Hkv. }
      intros a Ha.
      assert (Hrefs : forall x, x ∈ refs (VRef a) -> W x).
      { intros x Hx. apply list_elem_of_singleton in Hx. subst x. exact Ha. }
      destruct nested.
      * eapply keeps_to_bind.
        { apply keeps_to_new_container. intros k v x Hkv Hx.
          apply list_elem_of_singleton in Hkv. injection Hkv as -> ->.
          apply list_elem_of_singleton in Hx. subst x. exact Hctx. }
        intros inner Hinner. apply keeps_to_ret.
        split; [exact Hrefs | exact Hinner].
      * apply keeps_to_ret. split; [exact Hrefs | exact Hctx].
  - intros [obj ctx'] [Hobj Hctx']. cbn [fst snd] in *.
    eapply keeps_to_bind;
      [apply Struct_parse_loop_keeps;
         [exact Hsubs | exact Hctx' | exact Hobj]|].
    intros _ _. apply keeps_to_ret. exact Hobj.
Qed.
End Regions.

(** A struct of confined subconstructs is confined. *)
Lemma Struct_confined (nm : option string) (subcons : list Construct)
    (nested allow_overwrite : bool) (T : Construct) :
  Struct nm subcons nested allow_overwrite = Ok T ->
  Forall confined subcons ->
  confined T.
Proof.
  unfold Struct. destruct (Construct__init__ nm) as [[]|]; [|discriminate].
  cbn [obind]. intros [= <-] Hsubs W a Ha. cbn [_parse].
  apply Struct_parse_keeps; [exact Hsubs | exact Ha].
Qed.

(** A formatted field never touches the store. *)
Lemma FormatField_parse_heap (packer : Packer) (length : Z) (a : addr)
    (s : State) :
  heap (snd (FormatField_parse packer length a s)) = heap s.
Proof.
  unfold FormatField_parse, try_except, bind, _read_stream, read,
    lift_outcome, raise, ret.
  destruct (length <? 0); cbn.
  - reflexivity.
  - destruct (negb _); cbn; [reflexivity|].
    destruct (Packer_unpack _ _) as [[|v vs]|e]; cbn; try reflexivity.
    destruct (issubclass e Exception); reflexivity.
Qed.

Lemma FormatField_parse_int (packer : Packer) (length : Z) (a : addr)
    (s : State) (v : value) :
  fst (FormatField_parse packer length a s) = Ok v -> exists n, v = VInt n.
Proof.
  unfold FormatField_parse, try_except, bind, lift_outcome.
  destruct (_read_stream length s) as [[data|e] s1]; cbn.
  - destruct (Packer_unpack packer data) as [[|n vs]|e]; cbn.
    + discriminate.
    + intros [= <-]. exists n. reflexivity.
    + destruct (issubclass e Exception); discriminate.
  - destruct (issubclass e Exception); discriminate.
Qed.

(** A formatted field is confined. *)
Lemma FormatField_confined (nm : option string) (endianity format : string)
    (F : Construct) :
  FormatField nm endianity format = Ok F -> confined F.
Proof.
  unfold FormatField. intros H.
  destruct (negb _); [discriminate|].
  destruct (negb _); [discriminate|].
  destruct (Packer_new _) as [packer|]; cbn [obind] in H; [|discriminate].
  destruct (Construct__init__ nm) as [[]|]; cbn [obind] in H; [|discriminate].
  injection H as <-. intros W a Ha s [_ Hcl]. cbn [_parse].
  rewrite FormatField_parse_heap. repeat split; auto.
  intros v Hv x Hx. apply FormatField_parse_int in Hv as (n & ->).
  apply elem_of_nil in Hx. destruct Hx.
Qed.

(** Failed attempts of confined subconstructs leave the caller's context
    as it was, when it cannot be reached from its own bindings. *)
Lemma rejected_context (ctx : addr) (W : addr -> Prop)
    (pre : list Construct) (s s1 : State) :
  rejected ctx pre s s1 ->
  Forall confined pre ->
  ~ W ctx ->
  region W (heap s) ->
  (forall c k v x,
     heap s !! ctx = Some c -> (k, v) ∈ c -> x ∈ refs v -> W x) ->
  heap s1 !! ctx = heap s !! ctx.
Proof.
  induction 1 as [s|sc rest s c e s1 s2 Hc Hsc He _ IH];
    intros Hconf HW Hreg Hself.
  - reflexivity.
  - inversion Hconf as [|? ? Hsc_conf Hrest]; subst.
    pose proof (lookup_lt_Some _ _ _ Hc) as Hlt.
    destruct Hreg as [Hnew Hcl].
    assert (Hreg' : region W (heap (private_copy s c))).
    { split; cbn [private_copy heap].
      - intros x Hx. rewrite length_app in Hx. apply Hnew. lia.
      - intros a' c' k v x Ha' Hc' Hkv Hx.
        destruct (Nat.lt_ge_cases a' (length (heap s))) as [Hl|Hg].
        + rewrite lookup_app_l in Hc' by exact Hl.
          apply (Hcl a' c' k v x Ha' Hc' Hkv Hx).
        + rewrite lookup_app_r in Hc' by exact Hg.
          destruct (a' - length (heap s))%nat as [|n]; cbn in Hc';
            [|discriminate].
          injection Hc' as <-. apply (Hself c k v x Hc Hkv Hx). }
    destruct (Hsc_conf W (length (heap s)) (Hnew _ (Nat.le_refl _))
                (private_copy s c) Hreg') as (Hlen & Hframe & Hcl' & _).
    rewrite Hsc in Hlen, Hframe, Hcl'. cbn [snd private_copy heap] in *.
    assert (Hkeep : heap s1 !! ctx = heap s !! ctx).
    { rewrite Hframe by exact HW. apply lookup_app_l. exact Hlt. }
    rewrite <- Hkeep. apply IH.
    + exact Hrest.
    + exact HW.
    + split; [|exact Hcl']. cbn [rewound heap]. intros x Hx.
      apply Hnew. rewrite length_app in Hlen. lia.
    + cbn [rewound heap]. intros c' k v x Hc'. rewrite Hkeep, Hc in Hc'.
      injection Hc' as <-. apply (Hself c k v x Hc).
Qed.

(** C5, as the code has it.  [Select] tries its subconstructs in the order
    they were given, each on a private copy of the context and with the
    cursor at the position of the call.  After subconstructs that raised
    errors of the root kind ([ConstructError]) the cursor is back at that
    position; and the caller's context is as it was, whatever the failed
    subconstructs wrote to their copies, when they are confined to the
    context they are handed and the caller's context cannot be reached
    from its own bindings (the copy is a shallow one).  The first
    subconstruct that returns gives the result (paired with its name when
    [include_name] is set) and the bindings of its copy are written into
    the caller's context.  If every subconstruct raised an error of the
    root kind, a select error is raised.  An error that is not of the root
    kind leaves [Select] as it is, without rewinding. *)
Theorem Select_parse_atomic (nm : option string) (subcons : list Construct)
    (include_name : bool) (S : Construct) (ctx : addr) (s : State) :
  Select nm subcons include_name = Ok S ->
  0 <= position (stream s) ->
  (forall pre post s1,
     subcons = pre ++ post -> rejected ctx pre s s1 ->
     position (stream s1) = position (stream s) /\
     (Forall confined pre -> detached ctx (heap s) ->
      heap s1 !! ctx = heap s !! ctx) /\
     _parse S ctx s = Select_parse include_name post ctx s1) /\
  (forall pre sc post s1 c v s2 c1 c2,
     subcons = pre ++ sc :: post -> rejected ctx pre s s1 ->
     heap s1 !! ctx = Some c ->
     _parse sc (length (heap s1)) (private_copy s1 c) = (Ok v, s2) ->
     heap s2 !! ctx = Some c1 ->
     heap s2 !! length (heap s1) = Some c2 ->
     _parse S ctx s =
       (Ok (if include_name then VTuple [value_of_name (name sc); v] else v),
        mkState (stream s2) (<[ctx := Container_update c1 c2]> (heap s2)))) /\
  (forall s1,
     rejected ctx subcons s s1 ->
     _parse S ctx s = (Raise SelectError, s1)) /\
  (forall pre sc post s1 c e s2,
     subcons = pre ++ sc :: post -> rejected ctx pre s s1 ->
     heap s1 !! ctx = Some c ->
     _parse sc (length (heap s1)) (private_copy s1 c) = (Raise e, s2) ->
     ~ construct_error e ->
     _parse S ctx s = (Raise e, s2)).
Proof.
  intros HS Hpos. unfold Select in HS.
  destruct (Construct__init__ nm) as [[]|]; cbn [obind] in HS; [|discriminate].
  injection HS as <-. cbn [_parse].
  split; [|split; [|split]].
  - intros pre post s1 -> Hrej.
    destruct (Select_parse_rejected include_name ctx _ _ _ Hrej Hpos)
      as [Hp Hrun].
    split; [exact Hp|]. split; [|apply Hrun].
    intros Hconf (W & HW & Hreg & Hself).
    apply (rejected_context ctx W _ _ _ Hrej Hconf HW Hreg Hself).
  - intros pre sc post s1 c v s2 c1 c2 -> Hrej Hc Hsc Hc1 Hc2.
    destruct (Select_parse_rejected include_name ctx _ _ _ Hrej Hpos)
      as [_ Hrun].
    rewrite Hrun. cbn [Select_parse].
    unfold bind at 1. unfold tell at 1. unfold bind at 1.
    rewrite (ctx_copy_ok _ _ _ Hc). unfold try_except_else. rewrite Hsc.
    unfold bind, ctx_update, bind, get_container, put_container.
    rewrite Hc1, Hc2. destruct include_name; reflexivity.
  - intros s1 Hrej.
    destruct (Select_parse_rejected include_name ctx _ _ _ Hrej Hpos)
      as [_ Hrun].
    specialize (Hrun []). rewrite app_nil_r in Hrun. rewrite Hrun.
    reflexivity.
  - intros pre sc post s1 c e s2 -> Hrej Hc Hsc He.
    destruct (Select_parse_rejected include_name ctx _ _ _ Hrej Hpos)
      as [_ Hrun].
    rewrite Hrun. cbn [Select_parse].
    unfold bind at 1. unfold tell at 1. unfold bind at 1.
    rewrite (ctx_copy_ok _ _ _ Hc). unfold try_except_else. rewrite Hsc.
    unfold construct_error in He.
    destruct (issubclass e ConstructError); [congruence|reflexivity].
Qed.

Lemma Select_parse_atomic_witness :
  exists A B T C S,
    UBInt8 (Some "a"%string) = Ok A /\
    UBInt16 (Some "b"%string) = Ok B /\
    Struct None [A; B] false false = Ok T /\
    UBInt8 None = Ok C /\
    Select None [T; C] false = Ok S /\
    (exists s1,
       rejected 0%nat [T] (start [x07]) s1 /\
       position (stream s1) = position (stream (start [x07])) /\
       heap s1 !! 1%nat = Some [(Some "a"%string, VInt 7)] /\
       heap s1 !! 0%nat = heap (start [x07]) !! 0%nat) /\
    _parse S 0%nat (start [x07]) =
      (Ok (VInt 7),
       mkState (mkBytesIO [x07] 1)
         [[]; [(Some "a"%string, VInt 7)]; [(Some "a"%string, VInt 7)]; []]).
Proof.
  eexists _, _, _, _, _.
  split; [reflexivity|]. split; [reflexivity|].
  match goal with
  | |- Struct None [?A; ?B] false false = Ok ?T0 /\ _ =>
      split; [reflexivity|]; split; [reflexivity|];
      assert (Hconf : Forall confined [T0])
        by (constructor; [|constructor];
            apply (Struct_confined None [A; B] false false); [reflexivity|];
            constructor;
              [apply (FormatField_confined (Some "a"%string) ">" "B");
               reflexivity|];
            constructor;
              [apply (FormatField_confined (Some "b"%string) ">" "H");
               reflexivity|];
            constructor)
  end.
  match goal with
  | |- Select None [?T0; ?C] false = _ /\ _ =>
      destruct (Select_parse_atomic None [T0; C] false _ 0%nat (start [x07])
                  eq_refl ltac:(cbn; lia)) as (Hfail & Hfirst & _);
      assert (Hrej : rejected 0%nat [T0] (start [x07])
                (mkState (mkBytesIO [x07] 0)
                   [[]; [(Some "a"%string, VInt 7)];
                    [(Some "a"%string, VInt 7)]]));
      [ eapply rejected_cons; [reflexivity|reflexivity|reflexivity|];
        apply rejected_nil
      | destruct (Hfail [T0] [C] _ eq_refl Hrej) as (Hpos & Hctx & _);
        pose proof (Hfirst [T0] C [] _ [] (VInt 7)
                      (mkState (mkBytesIO [x07] 1)
                         [[]; [(Some "a"%string, VInt 7)];
                          [(Some "a"%string, VInt 7)]; []]) [] []
                      eq_refl Hrej eq_refl eq_refl eq_refl eq_refl) as Hok ]
  end.
  split; [reflexivity|]. split.
  - eexists. split; [exact Hrej|]. split; [exact Hpos|].
    split; [reflexivity|].
    apply Hctx; [exact Hconf|].
    exists (fun x => (1 <= x)%nat). split; [|split].
    + cbn. lia.
    + split.
      * intros x Hx. exact Hx.
      * intros a c k v x Ha Hc. destruct a as [|a]; [lia|].
        destruct a; discriminate Hc.
    + intros c k v x Hc Hkv. injection Hc as <-.
      apply elem_of_nil in Hkv. destruct Hkv.
  - exact Hok.
Defined.

(** C5, the claim as stated fails: in [Select(Struct(UBInt8("a"),
    UBInt8("a")), UBInt8)] the first subconstruct fails on [01 02] with the
    overwrite error, which is a [ValueError]; [Select] neither rewinds nor
    tries the second subconstruct, which would return 1 from position 0:
    the overwrite error leaves [Select] with the cursor at 2. *)
Lemma Select_does_not_recover_from_overwrite :
  exists A S B Sel,
    UBInt8 (Some "a") = Ok A /\
    Struct None [A; A] true false = Ok S /\
    UBInt8 None = Ok B /\
    Select None [S; B] false = Ok Sel /\
    result (_parse Sel 0%nat (start [x01; x02])) = Raise OverwriteError /\
    final_position (_parse Sel 0%nat (start [x01; x02])) = 2 /\
    result (_parse B 0%nat (start [x01; x02])) = Ok (VInt 1) /\
    result (_parse Sel 0%nat (start [x01; x02])) <> Ok (VInt 1) /\
    result (_parse Sel 0%nat (start [x01; x02])) <> Raise SelectError.
Proof.
  eexists _, _, _, _.
  split; [reflexivity|]. split; [reflexivity|]. split; [reflexivity|].
  split; [reflexivity|].
  split; [vm_compute; reflexivity|]. split; [vm_compute; reflexivity|].
  split; [vm_compute; reflexivity|].
  split; vm_compute; discriminate.
Qed.

(** ** C4: the error taxonomy *)

(** C4, as the code has it.  The field, size-of, adaptation, array, range,
    switch, select, terminator, padding, const, string and checksum errors
    are direct children of the root kind [ConstructError]; the validation,
    mapping and bit-integer errors are direct children of the adaptation
    error; a handler for the root kind catches exactly the root kind, these
    twelve and these three.  The overwrite error derives from the built-in
    [ValueError] instead, so a handler for the root kind does not catch it:
    it is what a struct raises when a field parses under a name its
    container already holds and overwriting is not allowed. *)
Theorem error_taxonomy :
  Forall (fun k => base k = Some ConstructError) root_children /\
  Forall (fun k => base k = Some AdaptationError) adaptation_children /\
  (forall e, issubclass e ConstructError =
             bool_decide (e ∈ ConstructError
                              :: root_children ++ adaptation_children)) /\
  base OverwriteError = Some ValueError /\
  issubclass OverwriteError ConstructError = false /\
  issubclass OverwriteError ValueError = true /\
  (forall (e : error) (handler : M value) (s : State),
     try_except (raise e) ConstructError handler s =
       if issubclass e ConstructError then handler s else (Raise e, s)) /\
  (forall (sc : Construct) (a ctx : addr) (n : string)
          (s s1 : State) (v : value) (c : Container),
     _is_flag sc FLAG_EMBED = false ->
     name sc = Some n ->
     _parse sc ctx s = (Ok v, s1) ->
     heap s1 !! a = Some c ->
     Container_contains (Some n) c = true ->
     Struct_parse_sub false (VRef a) ctx sc s = (Raise OverwriteError, s1)).
Proof.
  split; [repeat constructor|].
  split; [repeat constructor|].
  split; [intros e; destruct e; reflexivity|].
  split; [reflexivity|]. split; [reflexivity|]. split; [reflexivity|].
  split.
  - intros e handler s. reflexivity.
  - intros sc a ctx n s s1 v c Hflag Hname Hsc Hc Hin.
    unfold Struct_parse_sub. rewrite Hflag. unfold bind at 1. rewrite Hsc.
    rewrite Hname. unfold bind, obj_contains, ctx_contains, bind,
      get_container.
    rewrite Hc. unfold ret. rewrite Hin. reflexivity.
Qed.

Lemma error_taxonomy_witness :
  exists A,
    UBInt8 (Some "a") = Ok A /\
    Struct_parse_sub false (VRef 1%nat) 2%nat A
      (mkState (mkBytesIO [x01; x02] 1)
         [[]; [(Some "a", VInt 1)]; [(Some "_", VRef 0%nat); (Some "a", VInt 1)]])
    = (Raise OverwriteError,
       mkState (mkBytesIO [x01; x02] 2)
         [[]; [(Some "a", VInt 1)]; [(Some "_", VRef 0%nat); (Some "a", VInt 1)]]).
Proof.
  eexists. split; [reflexivity|].
  destruct error_taxonomy as (_ & _ & _ & _ & _ & _ & _ & Hdup).
  eapply (Hdup _ 1%nat 2%nat "a"%string _ _ (VInt 2)
            [(Some "a"%string, VInt 1)]); reflexivity.
Defined.

(** C4, the claim as stated fails: the overwrite error is not a child of
    the root kind; [Struct(UBInt8("a"), UBInt8("a"))] raises it on [01 02],
    and a handler for the root kind around the parse does not catch it. *)
Lemma overwrite_error_escapes_root_handler :
  base OverwriteError <> Some ConstructError /\
  issubclass OverwriteError ConstructError = false /\
  exists A S,
    UBInt8 (Some "a") = Ok A /\
    Struct None [A; A] true false = Ok S /\
    result (_parse S 0%nat (start [x01; x02])) = Raise OverwriteError /\
    result (try_except (_parse S 0%nat) ConstructError (ret VNone)
              (start [x01; x02])) = Raise OverwriteError.
Proof.
  split; [discriminate|]. split; [reflexivity|].
  eexists _, _. split; [reflexivity|]. split; [reflexivity|].
  split; vm_compute; reflexivity.
Qed.

(** ** The scanning loops never run out of turns *)

(** Reading one byte either fails at the end of the stream or moves the
    cursor one byte on. *)
Lemma _read_stream_one_cases (s : State) :
  0 <= position (stream s) ->
  (exists b s',
     _read_stream 1 s = (Ok [b], s') /\
     0 <= position (stream s') /\
     S (bytes_left s') = bytes_left s) \/
  (exists s', _read_stream 1 s = (Raise FieldError, s')).
Proof.
  intros Hpos.
  destruct (Z_lt_le_dec (len (buffer (stream s))) (position (stream s) + 1))
    as [Heof|Hin].
  - right. pose proof (_read_stream_eof 1 s ltac:(lia) Hpos Heof) as H.
    unfold result in H. destruct (_read_stream 1 s) as [r s'].
    cbn in H. subst r. eexists. reflexivity.
  - left. rewrite _read_stream_ok by lia.
    assert (Hlt : (Z.to_nat (position (stream s)) < length (buffer (stream s)))%nat)
      by (unfold len in Hin; lia).
    destruct (drop (Z.to_nat (position (stream s))) (buffer (stream s)))
      as [|b rest] eqn:E.
    + apply (f_equal length) in E. rewrite length_drop in E. cbn in E. lia.
    + exists b. eexists. split; [reflexivity|].
      unfold bytes_left. cbn [stream position buffer].
      unfold len in Hin. split; lia.
Qed.

(** With more turns than bytes left, the number of turns does not matter:
    the loop of [VarInt._parse] ends by itself. *)
Lemma VarInt_parse_loop_fuel (f1 : nat) :
  forall (f2 : nat) (acc : Z) (s : State),
    0 <= position (stream s) ->
    (bytes_left s < f1)%nat -> (bytes_left s < f2)%nat ->
    VarInt_parse_loop f1 acc s = VarInt_parse_loop f2 acc s.
Proof.
  induction f1 as [|f1 IH]; intros f2 acc s Hpos H1 H2; [lia|].
  destruct f2 as [|f2]; [lia|].
  cbn [VarInt_parse_loop]. unfold bind at 1 3.
  destruct (_read_stream_one_cases s Hpos)
    as [(b & s' & -> & Hpos' & Hleft)|(s' & ->)]; [|reflexivity].
  unfold bind, lift_outcome. cbn [ord].
  destruct (Z.land (Z_of_byte b) 128 =? 0); [reflexivity|].
  apply IH; [exact Hpos'|lia|lia].
Qed.

(** The same for the loop of [CString._parse]. *)
Lemma CString_parse_loop_fuel (terminators : list byte) (f1 : nat) :
  forall (f2 : nat) (obj : list byte) (s : State),
    0 <= position (stream s) ->
    (bytes_left s < f1)%nat -> (bytes_left s < f2)%nat ->
    CString_parse_loop terminators f1 obj s =
    CString_parse_loop terminators f2 obj s.
Proof.
  induction f1 as [|f1 IH]; intros f2 obj s Hpos H1 H2; [lia|].
  destruct f2 as [|f2]; [lia|].
  cbn [CString_parse_loop]. unfold bind at 1 2.
  destruct (_read_stream_one_cases s Hpos)
    as [(b & s' & -> & Hpos' & Hleft)|(s' & ->)]; [|reflexivity].
  destruct (bytes_contains [b] terminators); [reflexivity|].
  apply IH; [exact Hpos'|lia|lia].
Qed.

(** ** The literal scenarios *)

Example UBInt16_parse_258 :
  (new c <- UBInt16 None; run (parse c [x01; x02] None)) = Ok (VInt 258).
Proof. reflexivity. Qed.

Example UBInt16_build_258 :
  (new c <- UBInt16 None; run (build c (VInt 258) None)) = Ok [x01; x02].
Proof. reflexivity. Qed.

Example CString_parse_hello :
  (new c <- CString [x00] None None;
   run (parse c [x68; x65; x6c; x6c; x6f; x00] None))
  = Ok (VBytes [x68; x65; x6c; x6c; x6f]).
Proof. reflexivity. Qed.

Example CString_build_hello :
  (new c <- CString [x00] None None;
   run (build c (VBytes [x68; x65; x6c; x6c; x6f]) None))
  = Ok [x68; x65; x6c; x6c; x6f; x00].
Proof. reflexivity. Qed.

Example Range_parse_two :
  (new f <- UBInt8 None; new c <- Range 3 5 f;
   run (parse c [x01; x02] None)) = Raise RangeError.
Proof. reflexivity. Qed.

Example Range_parse_six :
  (new f <- UBInt8 None; new c <- Range 3 5 f;
   run (parse c [x01; x02; x03; x04; x05; x06] None))
  = Ok (VList [VInt 1; VInt 2; VInt 3; VInt 4; VInt 5]).
Proof. reflexivity. Qed.

Example Select_parse_falls_through :
  (new a <- UBInt32 None; new b <- UBInt16 None; new c <- UBInt8 None;
   new sel <- Select None [a; b; c] false;
   run (parse sel [x07] None)) = Ok (VInt 7).
Proof. reflexivity. Qed.

Example Select_parse_none_matches :
  (new a <- UBInt32 None; new b <- UBInt16 None;
   new sel <- Select None [a; b] false;
   run (parse sel [x07] None)) = Raise SelectError.
Proof. reflexivity. Qed.

Example Select_build_first_wins :
  (new a <- UBInt32 None; new b <- UBInt16 None; new c <- UBInt8 None;
   new sel <- Select None [a; b; c] false;
   run (build sel (VInt 7) None)) = Ok [x00; x00; x00; x07].
Proof. reflexivity. Qed.

Example Union_build_by_index :
  (new a <- UBInt8 (Some "a"); new b <- UBInt16 (Some "b");
   new u <- Union None [a; b] (BuildFromIndex 1);
   run (build u (VDict [(Some "a", VInt 1); (Some "b", VInt 2)]) None))
  = Ok [x00; x02].
Proof. reflexivity. Qed.

Example Struct_build_fields :
  (new a <- FormatField (Some "a") "<" "H"; new b <- UBInt8 (Some "b");
   new st <- Struct None [a; b] true false;
   run (build st (VDict [(Some "a", VInt 1); (Some "b", VInt 2)]) None))
  = Ok [x01; x00; x02].
Proof. reflexivity. Qed.

Example Struct_missing_key :
  (new a <- UBInt8 (Some "missingkey");
   new st <- Struct None [a] true false;
   run (build st (VDict []) None)) = Raise KeyError.
Proof. reflexivity. Qed.

Example Pointer_build_pads_to_offset :
  (new f <- UBInt8 (Some "pointer"); new p <- Pointer (fun _ _ => Ok 2) f;
   run (build p (VInt 7) None)) = Ok [x00; x00; x07].
Proof. reflexivity. Qed.

Example Range_init_rejects_bounds :
  (new f <- UBInt8 None; Range 2 (-7) f) = Raise RangeError.
Proof. reflexivity. Qed.

Example Aligned_init_rejects_modulus :
  (new f <- UBInt8 None; Aligned f 1 [x00]) = Raise ValueError.
Proof. reflexivity. Qed.

(** * Further properties *)

(** ** py3compat *)

(** X1 (py3compat.py, [int2byte] and [byte2int]): [int2byte] makes a byte
    string out of exactly the integers from 0 to 255, and [byte2int] gives
    the integer back; any other integer is a [ValueError]. *)
Theorem int2byte_byte2int (i : Z) :
  obind (int2byte i) byte2int =
    if (0 <=? i) && (i <? 256) then Ok i else Raise ValueError.
Proof.
  unfold int2byte.
  destruct ((0 <=? i) && (i <? 256)) eqn:E; [|reflexivity].
  apply andb_true_iff in E. destruct E as [H1 H2].
  apply Z.leb_le in H1. apply Z.ltb_lt in H2.
  cbn. rewrite Z_of_byte_of_Z, Z.mod_small by lia. reflexivity.
Qed.

(** ** Helper methods *)

Lemma _read_stream_neg (n : Z) (s : State) :
  n < 0 -> _read_stream n s = (Raise ValueError, s).
Proof.
  intros H. unfold _read_stream.
  replace (n <? 0) with true by (symmetry; apply Z.ltb_lt; lia).
  reflexivity.
Qed.

(** What a successful read leaves behind. *)
Lemma _read_stream_inv (n : Z) (s : State) (data : list byte) (s' : State) :
  _read_stream n s = (Ok data, s') ->
  0 <= n /\ len data = n /\
  s' = mkState (mkBytesIO (buffer (stream s)) (position (stream s) + n))
               (heap s).
Proof.
  unfold _read_stream.
  destruct (Z.ltb_spec n 0) as [Hn|Hn]; [discriminate|].
  unfold bind, read, BytesIO_read. cbn.
  destruct (Z.eqb_spec
              (len (take (Z.to_nat n)
                      (drop (Z.to_nat (position (stream s)))
                         (buffer (stream s))))) n) as [E|E];
    cbn; [|discriminate].
  intros [= <- <-]. rewrite E. auto.
Qed.

(** X2 (core.py, [_read_stream]): a read is all or nothing.  When it
    returns, it returns exactly [length] bytes, the ones under the cursor,
    and the cursor has moved by [length]; otherwise it raises [ValueError]
    for a negative length, before touching the stream, and [FieldError]
    when the stream is short.  Nothing else is raised and there is no
    short read. *)
Theorem read_stream_all_or_nothing (n : Z) (s : State) :
  match _read_stream n s with
  | (Ok data, s') =>
      0 <= n /\ len data = n /\
      data = take (Z.to_nat n)
               (drop (Z.to_nat (position (stream s))) (buffer (stream s))) /\
      s' = mkState (mkBytesIO (buffer (stream s)) (position (stream s) + n))
                   (heap s)
  | (Raise e, s') =>
      (n < 0 /\ e = ValueError /\ s' = s) \/
      (0 <= n /\ e = FieldError /\
       len (drop (Z.to_nat (position (stream s))) (buffer (stream s))) < n)
  end.
Proof.
  destruct (Z.ltb_spec n 0) as [Hn|Hn].
  - rewrite _read_stream_neg by lia. left. auto.
  - unfold _read_stream, bind, read, BytesIO_read.
    replace (n <? 0) with false by (symmetry; apply Z.ltb_ge; lia).
    cbn.
    set (rest := drop (Z.to_nat (position (stream s))) (buffer (stream s))).
    destruct (Z.eqb_spec (len (take (Z.to_nat n) rest)) n) as [E|E].
    + cbn. rewrite E. auto.
    + cbn. right. repeat split; auto.
      unfold len in *. rewrite length_take in E. lia.
Qed.

(** (core.py, [_write_stream]): a write is all or nothing.  It writes
    the data only when its length is the announced one, and then the
    cursor moves by that length; a negative length is a [ValueError] and
    any other length a [FieldError], both with the stream untouched. *)
Lemma write_stream_all_or_nothing (n : Z) (bs : list byte) (s : State) :
  _write_stream n (VBytes bs) s =
    if n <? 0 then (Raise ValueError, s)
    else if len bs =? n then
      (Ok tt, mkState (BytesIO_write bs (stream s)) (heap s))
    else (Raise FieldError, s).
Proof.
  unfold _write_stream.
  destruct (n <? 0); [reflexivity|].
  unfold bind, py_len, ret.
  destruct (len bs =? n); reflexivity.
Qed.

(** ** Fields *)

Lemma take_len {A} (l : list A) : take (Z.to_nat (len l)) l = l.
Proof. unfold len. rewrite Nat2Z.id. apply firstn_all. Qed.

(** Reading a whole fresh stream. *)
Lemma _read_stream_fresh (bs : list byte) (h : Heap) :
  _read_stream (len bs) (mkState (BytesIO_new bs) h) =
    (Ok bs, mkState (mkBytesIO bs (len bs)) h).
Proof.
  rewrite _read_stream_ok; cbn [stream position buffer heap BytesIO_new].
  - change (Z.to_nat 0) with 0%nat. rewrite drop_0, take_len. reflexivity.
  - apply len_nonneg.
  - lia.
  - lia.
Qed.

Lemma StaticField_inv (nm : option string) (n : Z) (f : Construct) :
  StaticField nm n = Ok f ->
  _parse f = StaticField_parse n /\ _build f = StaticField_build n /\
  _sizeof f = (fun _ => ret n).
Proof.
  unfold StaticField. destruct (Construct__init__ nm) as [[]|]; [|discriminate].
  cbn. intros [= <-]. auto.
Qed.

(** X3 (core.py, [StaticField]): a field of [n] bytes builds any string of
    [n] bytes into exactly those bytes, parses them back to the same
    string, and [n] is also what [sizeof] reports. *)
Theorem StaticField_roundtrip (nm : option string) (bs : list byte)
    (f : Construct) (s : State) :
  StaticField nm (len bs) = Ok f ->
  result (build f (VBytes bs) None s) = Ok bs /\
  result (parse f bs None s) = Ok (VBytes bs) /\
  result (sizeof f None s) = Ok (len bs).
Proof.
  intros Hf. apply StaticField_inv in Hf. destruct Hf as (Hp & Hb & Hs).
  unfold build, parse, sizeof, build_stream, parse_stream, with_stream,
    bind, new_container, result.
  rewrite Hp, Hb, Hs. repeat split.
  - unfold StaticField_build, bind, ret. cbn [heap stream].
    rewrite _write_stream_bytes. cbn [fst snd stream heap ret].
    rewrite BytesIO_write_fresh. reflexivity.
  - unfold StaticField_parse, bind, ret. cbn [heap stream].
    rewrite _read_stream_fresh. reflexivity.
Qed.

Lemma StaticField_roundtrip_witness :
  exists f,
    StaticField (Some "tag"%string) 3 = Ok f /\
    result (build f (VBytes ["a"; "b"; "c"]%byte) None empty_state)
      = Ok ["a"; "b"; "c"]%byte /\
    result (parse f ["a"; "b"; "c"]%byte None empty_state)
      = Ok (VBytes ["a"; "b"; "c"]%byte).
Proof.
  eexists. split; [reflexivity|].
  match goal with
  | |- result (build ?F _ _ _) = _ /\ _ =>
      destruct (StaticField_roundtrip (Some "tag"%string)
                  ["a"; "b"; "c"]%byte F empty_state eq_refl)
        as (Hb & Hp & _)
  end.
  split; [exact Hb | exact Hp].
Defined.

(** *** The packer *)

Lemma length_le_bytes (w : nat) (n : Z) : length (le_bytes w n) = w.
Proof.
  revert n. induction w as [|w IH]; intros n; cbn; [reflexivity|].
  rewrite IH. reflexivity.
Qed.

Lemma le_int_le_bytes (w : nat) (n : Z) :
  le_int (le_bytes w n) = n mod 2 ^ (8 * Z.of_nat w).
Proof.
  revert n. induction w as [|w IH]; intros n.
  - cbn. rewrite Z.mod_1_r. reflexivity.
  - cbn [le_bytes le_int]. rewrite IH, Z_of_byte_of_Z.
    replace (8 * Z.of_nat (S w)) with (8 + 8 * Z.of_nat w) by lia.
    rewrite Z.pow_add_r by lia. change (2 ^ 8) with 256.
    rewrite Z.rem_mul_r by lia. reflexivity.
Qed.

Lemma pack_field_length (o : endianity) (fc : fieldcode) (v : value)
    (bs : list byte) :
  pack_field o fc v = Ok bs -> length bs = code_width fc.
Proof.
  unfold pack_field. destruct (int_of_value v); [|discriminate].
  destruct (_ && _); [|discriminate].
  intros [= <-]. destruct o; rewrite ?length_rev; apply length_le_bytes.
Qed.

(** Unpacking what was packed gives the integer back. *)
Lemma unpack_pack_field (o : endianity) (fc : fieldcode) (n : Z) :
  (0 < code_width fc)%nat ->
  code_min fc <= n <= code_max fc ->
  exists bs, pack_field o fc (VInt n) = Ok bs /\
             length bs = code_width fc /\
             unpack_field o fc bs = n.
Proof.
  intros Hw Hn. unfold pack_field. cbn [int_of_value].
  replace ((code_min fc <=? n) && (n <=? code_max fc)) with true
    by (symmetry; apply andb_true_iff; split; apply Z.leb_le; lia).
  eexists. split; [reflexivity|]. split.
  { destruct o; rewrite ?length_rev; apply length_le_bytes. }
  unfold unpack_field.
  assert (Hu : le_int (match o with
                       | LittleEndian =>
                           match o with
                           | LittleEndian => le_bytes (code_width fc) n
                           | BigEndian => rev (le_bytes (code_width fc) n)
                           end
                       | BigEndian =>
                           rev match o with
                               | LittleEndian => le_bytes (code_width fc) n
                               | BigEndian => rev (le_bytes (code_width fc) n)
                               end
                       end) = n mod 2 ^ (8 * Z.of_nat (code_width fc))).
  { destruct o; rewrite ?rev_involutive; apply le_int_le_bytes. }
  rewrite Hu. clear Hu.
  unfold code_min, code_max in Hn.
  set (W := 8 * Z.of_nat (code_width fc)) in *.
  assert (HW : 0 < W) by (unfold W; lia).
  assert (Hp : 2 ^ W = 2 * 2 ^ (W - 1)).
  { rewrite <- Z.pow_succ_r by lia. f_equal. lia. }
  assert (Hpos : 0 < 2 ^ (W - 1)) by (apply Z.pow_pos_nonneg; lia).
  destruct (code_signed fc); cbn [andb].
  - destruct (Z.leb_spec (2 ^ (W - 1)) (n mod 2 ^ W)) as [H|H].
    + destruct (Z.ltb_spec n 0) as [Hneg|Hneg].
      * rewrite <- (Z.mod_add n 1) by lia.
        rewrite Z.mod_small by lia. lia.
      * rewrite Z.mod_small in H by lia. lia.
    + destruct (Z.ltb_spec n 0) as [Hneg|Hneg].
      * rewrite <- (Z.mod_add n 1) in H by lia.
        rewrite Z.mod_small in H by lia. lia.
      * apply Z.mod_small. lia.
  - apply Z.mod_small. lia.
Qed.

Lemma code_of_ascii_width (c : Ascii.ascii) (fc : fieldcode) :
  code_of_ascii c = Some fc -> (0 < code_width fc)%nat.
Proof.
  unfold code_of_ascii.
  repeat (destruct (Ascii.eqb c _); [intros [= <-]; cbn; lia|]).
  discriminate.
Qed.

(** What the constructor of [FormatField] leaves behind. *)
Lemma FormatField_inv (nm : option string) (e fmt : string) (f : Construct) :
  FormatField nm e fmt = Ok f ->
  exists o c fc,
    fmt = String.String c EmptyString /\ code_of_ascii c = Some fc /\
    let p := mkPacker o [fc] in
    _parse f = FormatField_parse p (Z.of_nat (code_width fc) + 0) /\
    _build f = FormatField_build p (Z.of_nat (code_width fc) + 0) /\
    _sizeof f = (fun _ => ret (Z.of_nat (code_width fc) + 0)) /\
    conflags f = 0 /\ name f = nm /\ cls f = ClsFormatField.
Proof.
  unfold FormatField.
  destruct (negb _) eqn:E1; [discriminate|].
  destruct (negb (_ =? 1)) eqn:E2; [discriminate|].
  apply negb_false_iff in E2. apply Z.eqb_eq in E2.
  destruct fmt as [|c [|c' fmt]]; cbn in E2; try lia.
  destruct (Packer_new (e +:+ String.String c EmptyString)) as [p|] eqn:Ep;
    [|discriminate].
  cbn [obind]. destruct (Construct__init__ nm) as [[]|]; [|discriminate].
  cbn [obind]. intros [= <-]. cbn [_parse _build _sizeof].
  apply negb_false_iff in E1.
  assert (He : e = ">"%string \/ e = "<"%string \/ e = "="%string).
  { apply orb_true_iff in E1. destruct E1 as [E1|E1].
    - apply orb_true_iff in E1. destruct E1 as [E1|E1].
      + left. apply String.eqb_eq. exact E1.
      + right. left. apply String.eqb_eq. exact E1.
    - right. right. apply String.eqb_eq. exact E1. }
  destruct He as [->|[->| ->]]; cbv -[code_of_ascii] in Ep;
    (destruct (code_of_ascii c) as [fc|] eqn:Ec; [|discriminate]);
    injection Ep as <-; eexists _, c, fc;
    (split; [reflexivity|]); (split; [exact Ec|]);
    cbn; auto 8.
Qed.

(** X4 (core.py, [FormatField]): for every integer format and every byte
    order, an integer within the range of the format builds into exactly
    as many bytes as [sizeof] reports, and parsing those bytes gives the
    integer back. *)
Theorem FormatField_roundtrip (nm : option string) (e : string)
    (c : Ascii.ascii) (fc : fieldcode) (f : Construct) (n : Z) (s : State) :
  FormatField nm e (String.String c EmptyString) = Ok f ->
  code_of_ascii c = Some fc ->
  code_min fc <= n <= code_max fc ->
  exists bs,
    result (build f (VInt n) None s) = Ok bs /\
    result (sizeof f None s) = Ok (len bs) /\
    result (parse f bs None s) = Ok (VInt n).
Proof.
  intros Hf Hc Hn.
  apply FormatField_inv in Hf.
  destruct Hf as (o & c' & fc' & [= <-] & Hc' & Hp & Hb & Hs & _).
  rewrite Hc in Hc'. injection Hc' as <-.
  pose proof (code_of_ascii_width _ _ Hc) as Hw.
  destruct (unpack_pack_field o fc n Hw Hn) as (bs & Hpack & Hlen & Hun).
  assert (Hl : len bs = Z.of_nat (code_width fc) + 0)
    by (unfold len; lia).
  exists bs.
  unfold build, parse, sizeof, build_stream, parse_stream, with_stream,
    bind, new_container, result.
  rewrite Hp, Hb, Hs. cbn [heap stream]. repeat split.
  - unfold FormatField_build, try_except, bind, lift_outcome, Packer_pack.
    cbn [packer_order packer_codes pack_fields]. rewrite Hpack.
    cbn [obind]. rewrite app_nil_r, <- Hl, _write_stream_bytes.
    cbn [fst snd stream heap ret]. rewrite BytesIO_write_fresh. reflexivity.
  - cbn. rewrite Hl. reflexivity.
  - unfold FormatField_parse, try_except, bind, lift_outcome.
    rewrite <- Hl, _read_stream_fresh.
    unfold Packer_unpack, Packer_size. cbn [packer_codes fold_right].
    rewrite Hl, Z.eqb_refl. cbn [packer_order unpack_fields].
    rewrite <- Hlen, firstn_all, Hun. reflexivity.
Qed.

Lemma FormatField_roundtrip_witness :
  exists f bs,
    FormatField (Some "temperature"%string) ">" "h" = Ok f /\
    result (build f (VInt (-2)) None empty_state) = Ok bs /\
    result (sizeof f None empty_state) = Ok (len bs) /\
    result (parse f bs None empty_state) = Ok (VInt (-2)).
Proof.
  eexists.
  match goal with
  | |- exists bs, ?F0 = Ok ?F /\ _ =>
      destruct (FormatField_roundtrip (Some "temperature"%string) ">"
                  "h"%char (mkCode 2 true) F (-2) empty_state eq_refl eq_refl
                  ltac:(cbn; lia))
        as (bs & H)
  end.
  exists bs. split; [reflexivity | exact H].
Defined.

(** X5 (core.py, [FormatField]): whatever goes wrong in a format field
    surfaces as [FieldError]: short input, an integer outside the range of
    the format, an object that is no integer.  A failed build has written
    nothing. *)
Theorem FormatField_only_FieldError (packer : Packer) (length : Z)
    (obj : value) (ctx : addr) (s : State) :
  match FormatField_parse packer length ctx s with
  | (Ok _, _) => True
  | (Raise e, _) => e = FieldError
  end /\
  match FormatField_build packer length obj ctx s with
  | (Ok _, _) => True
  | (Raise e, s') => e = FieldError /\ s' = s
  end.
Proof.
  assert (Hall : forall e', issubclass e' Exception = true)
    by (intros []; reflexivity).
  split.
  - unfold FormatField_parse, try_except.
    destruct (bind _ _ s) as [[v|e'] s']; [exact I|].
    rewrite Hall. reflexivity.
  - unfold FormatField_build, try_except, bind, lift_outcome.
    destruct (Packer_pack packer [obj]) as [data|e'].
    + rewrite write_stream_all_or_nothing.
      destruct (length <? 0).
      { rewrite Hall. cbn. auto. }
      destruct (len data =? length); [exact I|].
      rewrite Hall. cbn. auto.
    + rewrite Hall. cbn. auto.
Qed.

(** ** Peek *)

(** X6 (core.py, [Peek]): [Peek] hands on what its subconstruct parsed,
    turns a [FieldError] of the subconstruct into [None] and lets every
    other exception through, a [RangeError] or an [ArrayError] as well; in
    each case the cursor is back where it was.  A build that fails
    re-raises the exception with the cursor back where it was, and without
    [performbuild] nothing is built at all. *)
Theorem Peek_outcome (subcon : Construct) (obj : value) (ctx : addr)
    (s : State) :
  0 <= position (stream s) ->
  Peek_parse subcon ctx s =
    (match result (_parse subcon ctx s) with
     | Ok v => Ok v
     | Raise e => if bool_decide (e = FieldError) then Ok VNone else Raise e
     end,
     let s1 := snd (_parse subcon ctx s) in
     mkState (mkBytesIO (buffer (stream s1)) (position (stream s))) (heap s1))
  /\
  Peek_build subcon true obj ctx s =
    (match result (_build subcon obj ctx s) with
     | Ok _ => (Ok tt, snd (_build subcon obj ctx s))
     | Raise e =>
         let s1 := snd (_build subcon obj ctx s) in
         (Raise e,
          mkState (mkBytesIO (buffer (stream s1)) (position (stream s)))
                  (heap s1))
     end)
  /\
  Peek_build subcon false obj ctx s = (Ok tt, s).
Proof.
  intros Hpos. split; [|split].
  - unfold Peek_parse, bind, tell, try_finally, try_except, BytesIO_tell,
      result.
    destruct (_parse subcon ctx s) as [[v|e] s1]; cbn [fst snd].
    + rewrite seek_back by lia. reflexivity.
    + replace (issubclass e FieldError) with (bool_decide (e = FieldError))
        by (destruct e; reflexivity).
      destruct (bool_decide (e = FieldError)); unfold ret;
        rewrite seek_back by lia; reflexivity.
  - unfold Peek_build, bind, tell, BytesIO_tell, result.
    destruct (_build subcon obj ctx s) as [[[]|e] s1]; cbn [fst snd].
    + reflexivity.
    + rewrite seek_back by lia. reflexivity.
  - reflexivity.
Qed.

Lemma Peek_outcome_witness :
  Peek_parse Terminator 0%nat (start ["a"%byte]) =
    (Raise TerminatorError, start ["a"%byte]).
Proof.
  destruct (Peek_outcome Terminator VNone 0%nat (start ["a"%byte]))
    as (H & _).
  - cbn. lia.
  - exact H.
Defined.

(** ** Aligned *)

Lemma Aligned_inv (subcon : Construct) (modulus : Z) (pattern : list byte)
    (f : Construct) :
  Aligned subcon modulus pattern = Ok f ->
  2 <= modulus /\ len pattern = 1 /\
  _parse f = Aligned_parse subcon modulus /\
  _build f = Aligned_build subcon modulus pattern.
Proof.
  unfold Aligned.
  destruct (Z.ltb_spec modulus 2); [discriminate|].
  destruct (Z.eqb_spec (len pattern) 1); [|discriminate].
  cbn [negb]. destruct (Construct__init__ (name subcon)) as [[]|];
    [|discriminate].
  cbn. intros [= <-]. auto.
Qed.

Lemma BytesIO_write_position (bs : list byte) (st : BytesIO) :
  position (BytesIO_write bs st) = position st + len bs.
Proof.
  destruct bs; cbn [BytesIO_write position].
  - change (len []) with 0. lia.
  - reflexivity.
Qed.

Lemma pad_to_modulus (d m : Z) : 0 < m -> (d + (- d) mod m) mod m = 0.
Proof.
  intros Hm. rewrite Z.add_mod_idemp_r by lia.
  replace (d + - d) with 0 by lia. apply Z.mod_0_l. lia.
Qed.

(** X7 (core.py, [Aligned]): whenever an aligned construct parses or
    builds, the cursor has moved by a multiple of the modulus, whatever
    the subconstruct did. *)
Theorem Aligned_moves_by_multiple (subcon : Construct) (modulus : Z)
    (pattern : list byte) (f : Construct) (obj : value) (ctx : addr)
    (s : State) :
  Aligned subcon modulus pattern = Ok f ->
  match _parse f ctx s with
  | (Ok _, s') =>
      (position (stream s') - position (stream s)) mod modulus = 0
  | (Raise _, _) => True
  end /\
  match _build f obj ctx s with
  | (Ok _, s') =>
      (position (stream s') - position (stream s)) mod modulus = 0
  | (Raise _, _) => True
  end.
Proof.
  intros Hf. apply Aligned_inv in Hf. destruct Hf as (Hm & Hpat & -> & ->).
  split.
  - unfold Aligned_parse, bind, tell, BytesIO_tell.
    destruct (_parse subcon ctx s) as [[v|e] s1]; [|exact I].
    set (pad := (- (position (stream s1) - position (stream s))) mod modulus).
    destruct (_read_stream pad s1) as [[data|e] s2] eqn:Hr; [|exact I].
    apply _read_stream_inv in Hr as (_ & _ & ->). cbn [ret stream position].
    replace (position (stream s1) + pad - position (stream s))
      with (position (stream s1) - position (stream s) + pad) by lia.
    apply pad_to_modulus. lia.
  - unfold Aligned_build, bind, tell, BytesIO_tell.
    destruct (_build subcon obj ctx s) as [[[]|e] s1]; [|exact I].
    set (pad := (- (position (stream s1) - position (stream s))) mod modulus).
    rewrite write_stream_all_or_nothing.
    destruct (pad <? 0); [exact I|].
    destruct (Z.eqb_spec (len (concat (replicate (Z.to_nat pad) pattern))) pad)
      as [E|E]; [|exact I].
    cbn [stream]. rewrite BytesIO_write_position, E.
    replace (position (stream s1) + pad - position (stream s))
      with (position (stream s1) - position (stream s) + pad) by lia.
    apply pad_to_modulus. lia.
Qed.

Lemma Aligned_moves_by_multiple_witness :
  exists f,
    Aligned Terminator 4 [x00] = Ok f /\
    match _build f VNone 0%nat (start []) with
    | (Ok _, s') => (position (stream s') - 0) mod 4 = 0
    | (Raise _, _) => True
    end.
Proof.
  eexists. split; [reflexivity|].
  match goal with
  | |- match _build ?F _ _ _ with _ => _ end =>
      exact (proj2 (Aligned_moves_by_multiple Terminator 4 [x00] F VNone
                      0%nat (start []) eq_refl))
  end.
Defined.

(** ** Padding *)

Lemma concat_replicate_single {A} (n : nat) (c : A) :
  concat (replicate n [c]) = replicate n c.
Proof. induction n as [|n IH]; cbn; [reflexivity|]. rewrite IH. reflexivity. Qed.

Lemma len_replicate {A} (n : Z) (c : A) :
  0 <= n -> len (replicate (Z.to_nat n) c) = n.
Proof. intros Hn. unfold len. rewrite length_replicate. lia. Qed.

Lemma Padding_inv (n : length_arg) (pattern : list byte) (strict : bool)
    (f : Construct) :
  Padding n pattern strict = Ok f ->
  (exists c, pattern = [c]) /\
  _parse f = Padding_parse n pattern strict /\
  _build f = Padding_build n pattern /\
  _sizeof f = resolve_length n.
Proof.
  unfold Padding.
  destruct (Z.eqb_spec (len pattern) 1) as [E|E]; [|discriminate].
  cbn [negb]. intros [= <-]. split; [|auto].
  unfold len in E.
  destruct pattern as [|c [|c' p]]; cbn [length] in E; try lia.
  exists c. reflexivity.
Qed.

(** X8 (core.py, [Padding]): padding of [n] bytes builds into [n] copies
    of the pattern byte, whatever object it is handed, and reports [n] as
    its size.  Parsing consumes [n] bytes and yields [None]; in strict mode
    it accepts the [n] copies of the pattern byte and nothing else, any
    other [n] bytes being a [PaddingError]; otherwise it accepts any [n]
    bytes. *)
Theorem Padding_pattern (n : Z) (pattern : list byte) (strict : bool)
    (f : Construct) (obj : value) (data : list byte) (s : State) :
  Padding (LengthInt n) pattern strict = Ok f ->
  0 <= n ->
  len data = n ->
  exists c,
    pattern = [c] /\
    result (build f obj None s) = Ok (replicate (Z.to_nat n) c) /\
    result (sizeof f None s) = Ok n /\
    result (parse f data None s) =
      if strict && negb (bool_decide (data = replicate (Z.to_nat n) c))
      then Raise PaddingError else Ok VNone.
Proof.
  intros Hf Hn Hd. apply Padding_inv in Hf.
  destruct Hf as ((c & ->) & Hp & Hb & Hs). exists c.
  split; [reflexivity|].
  unfold build, parse, sizeof, build_stream, parse_stream, with_stream,
    bind, new_container, result.
  rewrite Hp, Hb, Hs. cbn [heap stream]. repeat split.
  - unfold Padding_build, bind, resolve_length, ret.
    rewrite concat_replicate_single.
    rewrite <- (len_replicate n c Hn) at 1.
    rewrite _write_stream_bytes. cbn [fst snd stream heap].
    rewrite BytesIO_write_fresh. reflexivity.
  - unfold Padding_parse, bind, resolve_length, ret.
    rewrite <- Hd at 1. rewrite _read_stream_fresh.
    rewrite concat_replicate_single.
    destruct strict; cbn [andb]; [|reflexivity].
    destruct (negb (bool_decide (data = replicate (Z.to_nat n) c)));
      reflexivity.
Qed.

Lemma Padding_pattern_witness :
  exists f,
    Padding (LengthInt 2) [x00] true = Ok f /\
    result (build f VNone None empty_state) = Ok [x00; x00] /\
    result (parse f [x00; x01] None empty_state) = Raise PaddingError.
Proof.
  eexists. split; [reflexivity|].
  match goal with
  | |- result (build ?F _ _ _) = _ /\ _ =>
      destruct (Padding_pattern 2 [x00] true F VNone [x00; x01] empty_state
                  eq_refl ltac:(lia) eq_refl)
        as (c & Hc & Hb & _ & Hp)
  end.
  injection Hc as <-. split; [exact Hb | exact Hp].
Defined.

(** ** Terminator and GreedyBytes *)

(** At the end of the stream [Terminator] succeeds. *)
Lemma Terminator_parse_at_end (ctx : addr) (s : State) :
  len (buffer (stream s)) <= position (stream s) ->
  result (Terminator_parse ctx s) = Ok VNone.
Proof.
  intros H. unfold Terminator_parse, bind, read, BytesIO_read, result.
  rewrite drop_ge by (unfold len in H; lia). reflexivity.
Qed.

(** X9 (core.py, [Terminator]): [Terminator] parses to [None], leaving the
    stream as it is, exactly when no byte is left under the cursor;
    otherwise it raises [TerminatorError], and the byte it looked at is
    consumed. *)
Theorem Terminator_end_of_stream (ctx : addr) (s : State) :
  0 <= position (stream s) ->
  Terminator_parse ctx s =
    if len (buffer (stream s)) <=? position (stream s) then (Ok VNone, s)
    else (Raise TerminatorError,
          mkState (mkBytesIO (buffer (stream s)) (position (stream s) + 1))
                  (heap s)).
Proof.
  intros Hpos. destruct s as [[buf pos] h]. cbn [stream buffer position heap] in *.
  unfold Terminator_parse, bind, read, BytesIO_read.
  cbn [stream buffer position heap].
  change (Z.to_nat 1) with 1%nat.
  destruct (Z.leb_spec (len buf) pos) as [H|H].
  - rewrite drop_ge by (unfold len in H; lia).
    cbn. rewrite Z.add_0_r. reflexivity.
  - destruct (drop (Z.to_nat pos) buf) as [|b rest] eqn:E.
    + apply (f_equal length) in E. rewrite length_drop in E.
      unfold len in H. cbn in E. lia.
    + cbn. reflexivity.
Qed.

Lemma Terminator_end_of_stream_witness :
  Terminator_parse 0%nat (start []) = (Ok VNone, start []).
Proof.
  apply (Terminator_end_of_stream 0%nat (start [])). cbn. lia.
Defined.

Lemma GreedyBytes_inv (nm : option string) (f : Construct) :
  GreedyBytes nm = Ok f ->
  _parse f = GreedyBytes_parse /\ _build f = GreedyBytes_build.
Proof.
  unfold GreedyBytes. destruct (Construct__init__ nm) as [[]|]; [|discriminate].
  cbn. intros [= <-]. auto.
Qed.

(** X10 (core.py, [GreedyBytes]): [GreedyBytes] builds a byte string as it
    is and parses it back whole; and once it has parsed, from any stream,
    no byte is left: a [Terminator] that follows always succeeds. *)
Theorem GreedyBytes_takes_all (nm : option string) (f : Construct)
    (bs : list byte) (ctx : addr) (s : State) :
  GreedyBytes nm = Ok f ->
  0 <= position (stream s) ->
  result (build f (VBytes bs) None s) = Ok bs /\
  result (parse f bs None s) = Ok (VBytes bs) /\
  result ((_parse f ctx >> Terminator_parse ctx) s) = Ok VNone.
Proof.
  intros Hf Hpos. apply GreedyBytes_inv in Hf. destruct Hf as (Hp & Hb).
  unfold build, parse, build_stream, parse_stream, with_stream,
    bind, new_container, result.
  rewrite Hp, Hb. cbn [heap stream]. split; [|split].
  - unfold GreedyBytes_build, write. cbn [fst snd stream heap ret].
    rewrite BytesIO_write_fresh. reflexivity.
  - reflexivity.
  - unfold GreedyBytes_parse, bind, read_all, BytesIO_read_all, ret.
    cbn [fst snd]. apply Terminator_parse_at_end.
    cbn [stream buffer position]. unfold len. rewrite length_drop. lia.
Qed.

Lemma GreedyBytes_takes_all_witness :
  exists f,
    GreedyBytes (Some "rest"%string) = Ok f /\
    result (parse f ["h"; "i"]%byte None empty_state)
      = Ok (VBytes ["h"; "i"]%byte).
Proof.
  eexists. split; [reflexivity|].
  match goal with
  | |- result (parse ?F _ _ _) = _ =>
      destruct (GreedyBytes_takes_all (Some "rest"%string) F ["h"; "i"]%byte
                  0%nat empty_state eq_refl ltac:(cbn; lia))
        as (_ & Hp & _)
  end.
  exact Hp.
Defined.

(** ** MetaArray *)

Section MetaArrayFacts.
Variables (countfunc : callback Z) (subcon : Construct) (ctx : addr).

(** The loop runs the subconstruct once per turn. *)
Lemma MetaArray_parse_loop_parses s vs s1 :
  parses subcon ctx s vs s1 ->
  forall n obj,
    MetaArray_parse_loop subcon (length vs + n) obj ctx s =
    MetaArray_parse_loop subcon n (obj ++ vs) ctx s1.
Proof.
  induction 1 as [s|s ctx' s0 v s1 vs s2 Hctx Hv _ IH]; intros n obj.
  - rewrite app_nil_r. reflexivity.
  - cbn [length Nat.add MetaArray_parse_loop].
    unfold bind at 1. rewrite Hctx. unfold try_except_else. rewrite Hv.
    rewrite IH, <- app_assoc. reflexivity.
Qed.

Lemma MetaArray_parse_loop_inv n :
  forall obj s v s',
    MetaArray_parse_loop subcon n obj ctx s = (Ok v, s') ->
    exists vs, v = VList (obj ++ vs) /\ length vs = n /\
               parses subcon ctx s vs s'.
Proof.
  induction n as [|n IH]; intros obj s v s' Hrun.
  - cbn in Hrun. injection Hrun as <- <-. exists [].
    rewrite app_nil_r. repeat split. constructor.
  - cbn [MetaArray_parse_loop] in Hrun. unfold bind at 1 in Hrun.
    destruct (iteration_context subcon ctx s) as [[ctx'|e] s0] eqn:Hctx;
      [|discriminate].
    unfold try_except_else in Hrun.
    destruct (_parse subcon ctx' s0) as [[x|e] s1] eqn:Hx.
    + apply IH in Hrun as (vs & -> & Hlen & Hp).
      exists (x :: vs). rewrite <- app_assoc. repeat split.
      * cbn [length]. lia.
      * econstructor; eassumption.
    + destruct (issubclass e ConstructError); discriminate.
Qed.
End MetaArrayFacts.

(** X11 (core.py, [MetaArray._parse]): an array parses successfully
    exactly when its subconstruct parses [count] times in a row, and the
    result is the list of those [count] items, in order: never fewer and
    never more. *)
Theorem MetaArray_parse_exact (countfunc : callback Z) (subcon : Construct)
    (ctx : addr) (s : State) (count : Z) (v : value) (s' : State) :
  countfunc ctx (heap s) = Ok count ->
  MetaArray_parse countfunc subcon ctx s = (Ok v, s') <->
  exists vs, v = VList vs /\ length vs = Z.to_nat count /\
             parses subcon ctx s vs s'.
Proof.
  intros Hc. unfold MetaArray_parse, bind, call. rewrite Hc. split.
  - intros Hrun. apply MetaArray_parse_loop_inv in Hrun. exact Hrun.
  - intros (vs & -> & Hlen & Hp). rewrite <- Hlen.
    rewrite <- (Nat.add_0_r (length vs)).
    rewrite (MetaArray_parse_loop_parses subcon ctx s vs s' Hp).
    reflexivity.
Qed.

(** X12 (core.py, [MetaArray._parse]): when the subconstruct fails before
    the count is reached, an error of the root kind is reported as
    [ArrayError]; any other exception, an [OverwriteError] for one,
    escapes as it is.  The items parsed so far are lost and the stream
    stays where the failure left it. *)
Theorem MetaArray_parse_error (countfunc : callback Z) (subcon : Construct)
    (ctx : addr) (s : State) (count : Z) (vs : list value)
    (s1 : State) (ctx' : addr) (s2 : State) (e : error) (s3 : State) :
  countfunc ctx (heap s) = Ok count ->
  parses subcon ctx s vs s1 ->
  (length vs < Z.to_nat count)%nat ->
  iteration_context subcon ctx s1 = (Ok ctx', s2) ->
  _parse subcon ctx' s2 = (Raise e, s3) ->
  MetaArray_parse countfunc subcon ctx s =
    (if issubclass e ConstructError then Raise ArrayError else Raise e, s3).
Proof.
  intros Hc Hp Hlen Hctx He. unfold MetaArray_parse, bind, call. rewrite Hc.
  replace (Z.to_nat count)
    with (length vs + S (Z.to_nat count - length vs - 1))%nat by lia.
  rewrite (MetaArray_parse_loop_parses subcon ctx s vs s1 Hp).
  cbn [MetaArray_parse_loop]. unfold bind at 1. rewrite Hctx.
  unfold try_except_else. rewrite He.
  destruct (issubclass e ConstructError); reflexivity.
Qed.

(** *** Arrays of single bytes *)

Lemma byte_field_inv (nm : option string) (e : string) (F : Construct) :
  FormatField nm e "B" = Ok F ->
  exists o,
    _parse F = FormatField_parse (mkPacker o [mkCode 1 false]) 1 /\
    _build F = FormatField_build (mkPacker o [mkCode 1 false]) 1 /\
    conflags F = 0.
Proof.
  intros Hf. apply FormatField_inv in Hf.
  destruct Hf as (o & c & fc & [= <-] & Hc & Hp & Hb & _ & Hfl & _).
  injection Hc as <-. exists o. auto.
Qed.

Lemma byte_field_context (F : Construct) (ctx : addr) (s : State) :
  conflags F = 0 -> iteration_context F ctx s = (Ok ctx, s).
Proof.
  intros H. unfold iteration_context, _is_flag. rewrite H. reflexivity.
Qed.

Lemma byte_unpack (o : endianity) (b : byte) :
  Packer_unpack (mkPacker o [mkCode 1 false]) [b] = Ok [Z_of_byte b].
Proof.
  unfold Packer_unpack.
  change (len [b] =? Packer_size _) with true. cbv iota.
  assert (H : le_int [b] = Z_of_byte b)
    by (cbn [le_int]; lia).
  destruct o; cbn [packer_order packer_codes unpack_fields unpack_field
                   code_width code_signed andb]; change (take 1 [b]) with [b];
    change (rev [b]) with [b]; rewrite H; reflexivity.
Qed.

Lemma byte_field_parse (o : endianity) (a : addr) (pre rest : list byte)
    (b : byte) (h : Heap) :
  FormatField_parse (mkPacker o [mkCode 1 false]) 1 a
      (mkState (mkBytesIO (pre ++ b :: rest) (len pre)) h) =
    (Ok (VInt (Z_of_byte b)),
     mkState (mkBytesIO (pre ++ b :: rest) (len (pre ++ [b]))) h).
Proof.
  unfold FormatField_parse, try_except, bind at 1.
  rewrite read_one_at. unfold bind, lift_outcome.
  rewrite byte_unpack. reflexivity.
Qed.

Lemma byte_field_build (o : endianity) (a : addr) (buf : list byte)
    (b : byte) (h : Heap) :
  FormatField_build (mkPacker o [mkCode 1 false]) 1 (VInt (Z_of_byte b)) a
      (mkState (mkBytesIO buf (len buf)) h) =
    (Ok tt, mkState (mkBytesIO (buf ++ [b]) (len (buf ++ [b]))) h).
Proof.
  unfold FormatField_build, try_except, bind, lift_outcome, Packer_pack.
  cbn [packer_order packer_codes pack_fields pack_field int_of_value
       code_min code_max code_signed code_width].
  pose proof (Z_of_byte_range b) as Hb.
  replace ((0 <=? Z_of_byte b) && (Z_of_byte b <=? 2 ^ (8 * Z.of_nat 1) - 1))
    with true
    by (symmetry; apply andb_true_iff; split; apply Z.leb_le;
        change (2 ^ (8 * Z.of_nat 1) - 1) with 255; lia).
  assert (Hbytes : (match o with
                    | LittleEndian => le_bytes 1 (Z_of_byte b)
                    | BigEndian => rev (le_bytes 1 (Z_of_byte b))
                    end) ++ [] = [b]).
  { destruct o; cbn; rewrite byte_of_Z_of_byte; reflexivity. }
  cbn [obind]. rewrite Hbytes, write_one_at_end. reflexivity.
Qed.

Section ByteArrays.
Variables (F : Construct) (o : endianity) (ctx : addr).
Hypothesis F_parse : _parse F = FormatField_parse (mkPacker o [mkCode 1 false]) 1.
Hypothesis F_build : _build F = FormatField_build (mkPacker o [mkCode 1 false]) 1.
Hypothesis F_flags : conflags F = 0.

Lemma byte_array_parses (bs pre rest : list byte) (h : Heap) :
  parses F ctx
    (mkState (mkBytesIO (pre ++ bs ++ rest) (len pre)) h)
    (map (fun b => VInt (Z_of_byte b)) bs)
    (mkState (mkBytesIO (pre ++ bs ++ rest) (len (pre ++ bs))) h).
Proof.
  revert pre. induction bs as [|b bs IH]; intros pre.
  - rewrite app_nil_r. constructor.
  - cbn [map]. econstructor.
    + apply byte_field_context. exact F_flags.
    + rewrite F_parse. cbn [app]. apply byte_field_parse.
    + specialize (IH (pre ++ [b])).
      rewrite <- !app_assoc in IH. cbn [app] in IH. exact IH.
Qed.

Lemma byte_array_builds (bs buf : list byte) (h : Heap) :
  MetaArray_build_loop F (map (fun b => VInt (Z_of_byte b)) bs) ctx
      (mkState (mkBytesIO buf (len buf)) h) =
    (Ok tt, mkState (mkBytesIO (buf ++ bs) (len (buf ++ bs))) h).
Proof.
  revert buf. induction bs as [|b bs IH]; intros buf.
  - rewrite app_nil_r. reflexivity.
  - cbn [map MetaArray_build_loop]. unfold bind at 1.
    rewrite byte_field_context by exact F_flags.
    unfold bind at 1. rewrite F_build, byte_field_build.
    rewrite IH, <- app_assoc. reflexivity.
Qed.
End ByteArrays.

Lemma MetaArray_inv (countfunc : callback Z) (subcon A : Construct) :
  MetaArray countfunc subcon = Ok A ->
  _parse A = MetaArray_parse countfunc subcon /\
  _build A = MetaArray_build countfunc subcon /\
  _sizeof A = MetaArray_sizeof countfunc subcon /\
  _is_flag A FLAG_COPY_CONTEXT = false /\
  _is_flag A FLAG_DYNAMIC = true.
Proof.
  unfold MetaArray, Subconstruct__init__.
  destruct (Construct__init__ (name subcon)) as [[]|]; [|discriminate].
  cbn [obind]. intros [= <-]. cbn [_parse _build _sizeof].
  repeat split; unfold _is_flag; cbn [conflags];
    unfold _set_flag, _clear_flag, FLAG_COPY_CONTEXT, FLAG_DYNAMIC.
  - apply negb_false_iff, Z.eqb_eq. apply Z.bits_inj'. intros n Hn.
    rewrite Z.land_spec, Z.lor_spec, Z.land_spec, Z.bits_0.
    destruct (Z.eq_dec n 0) as [->|Hn0].
    + change (Z.testbit (Z.lnot 1) 0) with false.
      rewrite andb_false_r. reflexivity.
    + change 1 with (2 ^ 0).
      rewrite (Z.pow2_bits_false 0 n) by lia. apply andb_false_r.
  - apply negb_true_iff, Z.eqb_neq. intros H.
    apply (f_equal (fun z => Z.testbit z 1)) in H.
    rewrite Z.land_spec, Z.lor_spec in H. cbn in H.
    rewrite orb_true_r in H. discriminate.
Qed.

(** X13 (core.py, [MetaArray]): an array of [count] single-byte integers
    builds a list of [count] byte values into exactly those bytes, and
    parses them back to the same list. *)
Theorem MetaArray_bytes_roundtrip (nm : option string) (e : string)
    (countfunc : callback Z) (F A : Construct) (bs : list byte) (s : State) :
  FormatField nm e "B" = Ok F ->
  MetaArray countfunc F = Ok A ->
  (forall a h, countfunc a h = Ok (len bs)) ->
  let obj := VList (map (fun b => VInt (Z_of_byte b)) bs) in
  result (build A obj None s) = Ok bs /\
  result (parse A bs None s) = Ok obj.
Proof.
  intros HF HA Hcount obj.
  apply byte_field_inv in HF. destruct HF as (o & Hp & Hb & Hfl).
  apply MetaArray_inv in HA. destruct HA as (HAp & HAb & _).
  unfold build, parse, build_stream, parse_stream, with_stream, bind,
    new_container, result.
  rewrite HAp, HAb. cbn [heap stream]. split.
  - unfold MetaArray_build, bind, call, py_len, ret. rewrite Hcount.
    unfold obj. cbn [heap]. unfold len at 1. rewrite length_map.
    fold (len bs). rewrite Z.eqb_refl. cbn [negb py_iter as_sequence].
    change (BytesIO_new []) with (mkBytesIO [] (len (@nil byte))).
    unfold ret. rewrite (byte_array_builds F o _ Hb Hfl). reflexivity.
  - unfold MetaArray_parse, bind, call. rewrite Hcount. cbn [heap].
    pose proof (byte_array_parses F o (length (heap s)) Hp Hfl bs [] []
                  (heap s ++ [[]])) as Hrun.
    rewrite app_nil_r in Hrun. cbn [app] in Hrun.
    replace (Z.to_nat (len bs))
      with (length (map (fun b => VInt (Z_of_byte b)) bs) + 0)%nat
      by (rewrite length_map; unfold len; lia).
    change (BytesIO_new bs) with (mkBytesIO bs (len (@nil byte))).
    rewrite (MetaArray_parse_loop_parses F _ _ _ _ Hrun).
    reflexivity.
Qed.

Lemma MetaArray_bytes_roundtrip_witness :
  exists F A,
    FormatField (Some "x"%string) ">" "B" = Ok F /\
    MetaArray (fun _ _ => Ok 2) F = Ok A /\
    result (build A (VList [VInt 1; VInt 2]) None empty_state)
      = Ok [x01; x02] /\
    result (parse A [x01; x02] None empty_state)
      = Ok (VList [VInt 1; VInt 2]).
Proof.
  eexists _, _. split; [reflexivity|]. split; [reflexivity|].
  match goal with
  | |- result (build ?A0 _ _ _) = _ /\ _ =>
      exact (MetaArray_bytes_roundtrip (Some "x"%string) ">"
               (fun _ _ => Ok 2) _ A0 [x01; x02] empty_state
               eq_refl eq_refl (fun _ _ => eq_refl))
  end.
Defined.

Lemma MetaArray_parse_exact_witness :
  exists F s',
    FormatField (Some "x"%string) ">" "B" = Ok F /\
    MetaArray_parse (fun _ _ => Ok 2) F 0%nat (start [x01; x02; x03]) =
      (Ok (VList [VInt 1; VInt 2]), s').
Proof.
  eexists _, _. split; [reflexivity|].
  apply (proj2 (MetaArray_parse_exact (fun _ _ => Ok 2) _ 0%nat
                  (start [x01; x02; x03]) 2 _ _ eq_refl)).
  eexists. split; [reflexivity|]. split; [reflexivity|].
  econstructor; [reflexivity | reflexivity |].
  econstructor; [reflexivity | reflexivity |].
  constructor.
Defined.

Lemma MetaArray_parse_error_witness :
  exists F,
    FormatField (Some "x"%string) ">" "B" = Ok F /\
    result (MetaArray_parse (fun _ _ => Ok 2) F 0%nat (start [x01])) =
      Raise ArrayError.
Proof.
  eexists. split; [reflexivity|].
  match goal with
  | |- result (MetaArray_parse _ ?F0 _ _) = _ =>
      rewrite (MetaArray_parse_error (fun _ _ => Ok 2) F0 0%nat (start [x01])
                 2 [VInt 1] (mkState (mkBytesIO [x01] 1) [[]]) 0%nat
                 (mkState (mkBytesIO [x01] 1) [[]]) FieldError
                 (mkState (mkBytesIO [x01] 1) [[]]) eq_refl)
  end.
  - reflexivity.
  - econstructor; [reflexivity | reflexivity | constructor].
  - cbn. lia.
  - reflexivity.
  - reflexivity.
Defined.

(** ** RepeatUntil *)

Section RepeatUntilFacts.
Variables (predicate : value -> callback bool) (subcon : Construct)
  (p : value -> bool) (ctx : addr).
Hypothesis predicate_pure : forall v a h, predicate v a h = Ok (p v).

Lemma RepeatUntil_parse_loop_spec (pre : list value) (x : value) :
  Forall (fun v => p v = false) pre ->
  p x = true ->
  forall s s' obj turns,
    parses subcon ctx s (pre ++ [x]) s' ->
    (length pre < turns)%nat ->
    RepeatUntil_parse_loop predicate subcon turns obj ctx s =
      (Ok (Some (VList (obj ++ pre ++ [x]))), s').
Proof.
  induction 1 as [|v pre Hv Hpre IH]; intros Hx s s' obj turns Hrun Hturns.
  - cbn [app] in *. inversion Hrun as [|? ctx' s0 ? s1 ? ? Hctx Hp Hrest];
      subst. inversion Hrest; subst.
    destruct turns as [|turns]; [cbn in Hturns; lia|].
    cbn [RepeatUntil_parse_loop]. unfold bind at 1. rewrite Hctx.
    unfold try_except_else, bind at 1. rewrite Hp.
    unfold bind, call. rewrite predicate_pure, Hx. reflexivity.
  - cbn [app] in Hrun.
    inversion Hrun as [|? ctx' s0 ? s1 ? ? Hctx Hp Hrest]; subst.
    destruct turns as [|turns]; [cbn in Hturns; lia|].
    cbn [RepeatUntil_parse_loop]. unfold bind at 1. rewrite Hctx.
    unfold try_except_else, bind at 1. rewrite Hp.
    unfold bind at 1, call at 1. rewrite predicate_pure, Hv.
    cbn [ret fst snd].
    rewrite (IH Hx s1 s' (obj ++ [v]) turns Hrest) by (cbn in Hturns; lia).
    rewrite <- app_assoc. reflexivity.
Qed.
End RepeatUntilFacts.

(** The loop of [RepeatUntil._build] when the subconstruct is known only
    by what it does on a fresh copy of the caller's context, held at the
    first free address: it writes [enc v] and leaves the containers
    [kept v] above the store it found, the first of them being what has
    become of its copy. *)
Lemma RepeatUntil_build_loop_spec (predicate : value -> callback bool)
    (subcon : Construct) (p : value -> bool) (enc : value -> list byte)
    (kept : value -> list Container) (ctx : addr) (c : Container)
    (items : list value) :
  (forall v h, h !! ctx = Some c -> predicate v ctx h = Ok (p v)) ->
  (forall v s0, v ∈ items -> heap s0 !! ctx = Some c ->
     _build subcon v (length (heap s0)) (private_copy s0 c) =
       (Ok tt, mkState (BytesIO_write (enc v) (stream s0))
                       (heap s0 ++ kept v))) ->
  forall s,
    heap s !! ctx = Some c ->
    RepeatUntil_build_loop predicate subcon items ctx s =
      (Ok (existsb p items),
       mkState (written enc (up_to_first p items) (stream s))
               (heap s ++ concat (map kept (up_to_first p items)))).
Proof.
  intros Hpure.
  induction items as [|x items IH]; intros Hsub s Hctx.
  - cbn. rewrite app_nil_r. destruct s. reflexivity.
  - assert (Hkeep : (heap s ++ kept x) !! ctx = Some c).
    { rewrite lookup_app_l; [exact Hctx|].
      apply lookup_lt_Some in Hctx. exact Hctx. }
    cbn [RepeatUntil_build_loop existsb up_to_first].
    unfold bind at 1. rewrite (ctx_copy_ok ctx s c Hctx).
    unfold bind at 1. rewrite (Hsub x s) by (try left; assumption).
    unfold bind at 1, call at 1. cbn [heap stream].
    rewrite (Hpure x _ Hkeep).
    destruct (p x) eqn:Hx; cbn [orb].
    + cbn [map concat written fold_left]. rewrite app_nil_r. reflexivity.
    + rewrite IH.
      * cbn [stream heap map concat written fold_left].
        rewrite <- app_assoc. reflexivity.
      * intros v s0 Hv. apply Hsub. right. exact Hv.
      * exact Hkeep.
Qed.

(** X14 (core.py, [RepeatUntil._build]): building stops with the first
    item that satisfies the predicate: the items up to and including it
    are written, in order, and whatever follows it in the list is ignored.
    When no item satisfies the predicate, the error [ArrayError] arrives
    only after every item has been written.  Each turn hands the
    subconstruct a fresh copy of the context: the subconstruct is assumed
    to behave only when it is run on a copy of the caller's context at the
    first free address of the store, where it may write what it likes, and
    the predicate only when it is called with the caller's context, which
    still holds the bindings it had at the start.  The copies stay in the
    store as the subconstruct left them and the caller's context is
    untouched. *)
Theorem RepeatUntil_build_stops_at_terminator
    (predicate : value -> callback bool) (subcon : Construct)
    (p : value -> bool) (enc : value -> list byte)
    (kept : value -> list Container) (ctx : addr)
    (c : Container) (items : list value) (s : State) :
  (forall v h, h !! ctx = Some c -> predicate v ctx h = Ok (p v)) ->
  (forall v s0, v ∈ items -> heap s0 !! ctx = Some c ->
     _build subcon v (length (heap s0)) (private_copy s0 c) =
       (Ok tt, mkState (BytesIO_write (enc v) (stream s0))
                       (heap s0 ++ kept v))) ->
  heap s !! ctx = Some c ->
  RepeatUntil_build predicate subcon (VList items) ctx s =
    (if existsb p items then Ok tt else Raise ArrayError,
     mkState (written enc (up_to_first p items) (stream s))
             (heap s ++ concat (map kept (up_to_first p items)))) /\
  (heap s ++ concat (map kept (up_to_first p items))) !! ctx = Some c.
Proof.
  intros Hpure Hsub Hctx. split.
  - unfold RepeatUntil_build, bind. cbn [py_iter as_sequence].
    unfold ret at 1.
    rewrite (RepeatUntil_build_loop_spec predicate subcon p enc kept ctx c
               items Hpure Hsub s Hctx).
    destruct (existsb p items); reflexivity.
  - rewrite lookup_app_l; [exact Hctx|].
    apply lookup_lt_Some in Hctx. exact Hctx.
Qed.

(** X15 (core.py, [RepeatUntil._parse]): when the subconstruct parses a
    run of items of which the last is the first to satisfy the predicate,
    the loop returns exactly that run, the terminating item included, and
    stops reading there; any number of turns above the length of the run
    is enough for it to get there. *)
Theorem RepeatUntil_parse_stops_at_terminator
    (predicate : value -> callback bool) (subcon : Construct)
    (p : value -> bool) (ctx : addr) (pre : list value) (x : value)
    (s s' : State) (turns : nat) :
  (forall v a h, predicate v a h = Ok (p v)) ->
  Forall (fun v => p v = false) pre ->
  p x = true ->
  parses subcon ctx s (pre ++ [x]) s' ->
  (length pre < turns)%nat ->
  RepeatUntil_parse predicate subcon turns ctx s =
    (Ok (Some (VList (pre ++ [x]))), s').
Proof.
  intros Hpure Hpre Hx Hrun Hturns. unfold RepeatUntil_parse.
  apply (RepeatUntil_parse_loop_spec predicate subcon p ctx Hpure pre x
           Hpre Hx s s' [] turns Hrun Hturns).
Qed.

Lemma ctx_contains_copy (h : Heap) (c : Container) (k : key) (st : BytesIO) :
  ctx_contains (length h) k (mkState st (h ++ [c])) =
    (Ok (Container_contains k c), mkState st (h ++ [c])).
Proof.
  unfold ctx_contains, bind, get_container. cbn [heap].
  rewrite (list_lookup_middle h [] c (length h) eq_refl). reflexivity.
Qed.

Lemma ctx_setitem_copy (h : Heap) (c : Container) (k : key) (v : value)
    (st : BytesIO) :
  ctx_setitem (length h) k v (mkState st (h ++ [c])) =
    (Ok tt, mkState st (h ++ [Container_set k v c])).
Proof.
  unfold ctx_setitem, bind, get_container, put_container. cbn [heap stream].
  rewrite (list_lookup_middle h [] c (length h) eq_refl).
  cbn [heap stream].
  rewrite insert_app_r_alt by apply Nat.le_refl.
  rewrite Nat.sub_diag. reflexivity.
Qed.

Lemma RepeatUntil_build_stops_at_terminator_witness :
  exists A T,
    UBInt8 (Some "a"%string) = Ok A /\
    Struct None [A] false false = Ok T /\
    RepeatUntil_build
      (fun v _ _ =>
         Ok (match v with VDict [(_, VInt 0)] => true | _ => false end)) T
      (VList [VDict [(Some "a"%string, VInt 1)];
              VDict [(Some "a"%string, VInt 0)];
              VDict [(Some "a"%string, VInt 5)]]) 0%nat (start []) =
      (Ok tt,
       mkState (mkBytesIO [x01; x00] 2)
               [[]; [(Some "a"%string, VInt 1)]; [(Some "a"%string, VInt 0)]]) /\
    ([[]; [(Some "a"%string, VInt 1)]; [(Some "a"%string, VInt 0)]] : Heap)
      !! 0%nat = Some [].
Proof.
  eexists _, _. split; [reflexivity|]. split; [reflexivity|].
  match goal with
  | |- RepeatUntil_build ?P ?T0 _ _ _ = _ /\ _ =>
      destruct (RepeatUntil_build_stops_at_terminator P T0
               (fun v => match v with VDict [(_, VInt 0)] => true | _ => false end)
               (fun v => match v with
                         | VDict [(_, VInt n)] => [byte_of_Z n]
                         | _ => []
                         end)
               (fun v => match v with
                         | VDict kvs => [kvs]
                         | _ => []
                         end)
               0%nat []
               [VDict [(Some "a"%string, VInt 1)];
                VDict [(Some "a"%string, VInt 0)];
                VDict [(Some "a"%string, VInt 5)]] (start []))
        as [Hrun Hctx]
  end.
  - intros v h _. reflexivity.
  - intros v s0 Hv Hc. destruct s0 as [st h]. unfold private_copy.
    cbn [heap stream _build].
    unfold Struct_build, bind at 1. rewrite ctx_contains_copy.
    cbn [Container_contains]. 
    change (Container_contains (Some "<unnested>"%string) []) with false.
    cbv iota. unfold ret at 1. cbn [Struct_build_loop].
    unfold bind at 1. unfold Struct_build_sub, _is_flag, is_valueless.
    cbn [conflags name cls].
    change (negb (Z.land 0 FLAG_EMBED =? 0)) with false. cbv iota.
    change (bool_decide (ClsFormatField ∈ _)) with false. cbv iota.
    repeat (apply elem_of_cons in Hv as [->|Hv];
            [match goal with
             | |- context [py_getitem (VDict [(_, ?x)]) _] =>
                 change (py_getitem (VDict [(Some "a"%string, x)])
                           (Some "a"%string)) with (@ret value x)
             end;
             cbv beta iota delta [bind ret]; rewrite ctx_setitem_copy;
             reflexivity|]).
    apply elem_of_nil in Hv. destruct Hv.
  - reflexivity.
  - split; [exact Hrun | exact Hctx].
Defined.

Lemma RepeatUntil_parse_stops_at_terminator_witness :
  exists F,
    UBInt8 None = Ok F /\
    RepeatUntil_parse
      (fun v _ _ => Ok (match v with VInt 0 => true | _ => false end)) F
      5 0%nat (start [x01; x00; x05]) =
      (Ok (Some (VList [VInt 1; VInt 0])),
       mkState (mkBytesIO [x01; x00; x05] 2) [[]]).
Proof.
  eexists. split; [reflexivity|].
  match goal with
  | |- RepeatUntil_parse ?P ?F0 _ _ _ = _ =>
      apply (RepeatUntil_parse_stops_at_terminator P F0
               (fun v => match v with VInt 0 => true | _ => false end)
               0%nat [VInt 1] (VInt 0) (start [x01; x00; x05]) _ 5
               (fun _ _ _ => eq_refl))
  end.
  - constructor; [reflexivity | constructor].
  - reflexivity.
  - econstructor; [reflexivity | reflexivity |].
    econstructor; [reflexivity | reflexivity |].
    constructor.
  - cbn. lia.
Defined.

(** ** String *)

Lemma bytes_lstrip_replicate (c : byte) (k : nat) (bs : list byte) :
  head bs <> Some c ->
  bytes_lstrip [c] (replicate k c ++ bs) = bs.
Proof.
  intros Hhead. induction k as [|k IH]; cbn [replicate app].
  - destruct bs as [|b bs]; [reflexivity|]. cbn [bytes_lstrip].
    rewrite bool_decide_eq_false_2; [reflexivity|].
    intros Hin. apply list_elem_of_singleton in Hin. subst b.
    apply Hhead. reflexivity.
  - cbn [bytes_lstrip]. rewrite bool_decide_eq_true_2 by (left). exact IH.
Qed.

Lemma rev_replicate {A} (k : nat) (c : A) :
  rev (replicate k c) = replicate k c.
Proof.
  induction k as [|k IH]; [reflexivity|].
  cbn [replicate rev]. rewrite IH.
  clear IH. induction k as [|k IH]; [reflexivity|].
  cbn [replicate app]. rewrite IH. reflexivity.
Qed.

Lemma head_rev {A} (l : list A) : head (rev l) = list.last l.
Proof.
  destruct l as [|x l] using rev_ind; [reflexivity|].
  rewrite rev_unit, last_snoc. reflexivity.
Qed.

Lemma bytes_rstrip_replicate (c : byte) (k : nat) (bs : list byte) :
  list.last bs <> Some c ->
  bytes_rstrip [c] (bs ++ replicate k c) = bs.
Proof.
  intros Hlast. unfold bytes_rstrip.
  rewrite rev_app_distr, rev_replicate, bytes_lstrip_replicate.
  - apply rev_involutive.
  - rewrite head_rev. exact Hlast.
Qed.

Lemma land_1_bounds (x : Z) : 0 <= Z.land x 1 <= 1.
Proof.
  replace (Z.land x 1) with (x mod 2)
    by (change 1 with (Z.ones 1); rewrite Z.land_ones by lia; reflexivity).
  pose proof (Z.mod_pos_bound x 2 ltac:(lia)). lia.
Qed.

(** Padding never shortens, and pads a short string to the width. *)
Lemma len_bytes_ljust (w : Z) (c : byte) (bs : list byte) :
  len (bytes_ljust w c bs) = Z.max w (len bs).
Proof.
  unfold bytes_ljust. rewrite len_app. unfold len.
  rewrite length_replicate. lia.
Qed.

Lemma len_bytes_rjust (w : Z) (c : byte) (bs : list byte) :
  len (bytes_rjust w c bs) = Z.max w (len bs).
Proof.
  unfold bytes_rjust. rewrite len_app. unfold len.
  rewrite length_replicate. lia.
Qed.

Lemma len_bytes_center (w : Z) (c : byte) (bs : list byte) :
  len (bytes_center w c bs) = Z.max w (len bs).
Proof.
  unfold bytes_center.
  destruct (Z.leb_spec (w - len bs) 0) as [H|H]; [lia|].
  rewrite !len_app. unfold len. rewrite !length_replicate.
  fold (len bs).
  pose proof (land_1_bounds (Z.land (w - len bs) w)) as Hb.
  set (m := w - len bs) in *.
  assert (Hdiv : 0 <= m / 2) by (apply Z.div_pos; lia).
  assert (Hle : m / 2 + Z.land (Z.land m w) 1 <= m).
  { destruct (Z.eq_dec m 1) as [->|Hm1].
    - change (1 / 2) with 0. lia.
    - assert (m / 2 + 1 <= m); [|lia].
      assert (2 * (m / 2) <= m) by (apply Z.mul_div_le; lia).
      assert (m / 2 < m) by (apply Z.div_lt; lia).
      lia. }
  lia.
Qed.

Lemma len_slice_to (bs : list byte) (n : Z) :
  0 <= n <= len bs -> len (slice_to bs n) = n.
Proof.
  intros H. unfold slice_to.
  replace (n <? 0) with false by (symmetry; apply Z.ltb_ge; lia).
  unfold len in *. rewrite length_take. lia.
Qed.

Lemma len_slice_from_neg (bs : list byte) (n : Z) :
  0 < n <= len bs -> len (slice_from bs (- n)) = n.
Proof.
  intros H. unfold slice_from.
  replace (- n <? 0) with true by (symmetry; apply Z.ltb_lt; lia).
  unfold len in *. rewrite length_drop. lia.
Qed.

Lemma String_inv (nm : option string) (n : length_arg)
    (encoding : option Codec) (pad : list byte) (paddir trimdir : string)
    (f : Construct) :
  String nm n encoding (VBytes pad) paddir trimdir = Ok f ->
  (exists c, pad = [c]) /\
  (paddir = "right" \/ paddir = "left" \/ paddir = "center")%string /\
  (trimdir = "right" \/ trimdir = "left")%string /\
  _parse f = String_parse n encoding (VBytes pad) paddir /\
  _build f = String_build n encoding (VBytes pad) paddir trimdir /\
  _sizeof f = resolve_length n.
Proof.
  unfold String. cbn [String_padchar obind padchar_len].
  destruct (Z.eqb_spec (len pad) 1) as [E|E]; [|discriminate]. cbn [negb].
  destruct (bool_decide _) eqn:Hp; [|discriminate]. cbn [negb].
  destruct (bool_decide (trimdir ∈ _)) eqn:Ht; [|discriminate]. cbn [negb].
  destruct (Construct__init__ nm) as [[]|]; [|discriminate].
  cbn [obind]. intros [= <-]. cbn [_parse _build _sizeof].
  apply bool_decide_eq_true_1 in Hp, Ht.
  repeat split.
  - unfold len in E. destruct pad as [|c [|c' pad]]; cbn [length] in E;
      try lia. exists c. reflexivity.
  - repeat (apply elem_of_cons in Hp as [Hp|Hp]; [auto|]).
    apply elem_of_nil in Hp. destruct Hp.
  - repeat (apply elem_of_cons in Ht as [Ht|Ht]; [auto|]).
    apply elem_of_nil in Ht. destruct Ht.
Qed.

(** X16 (core.py, [String]): a string field of [n] bytes always builds
    into exactly [n] bytes, padding a shorter string and trimming a longer
    one, in every padding and trimming direction; only trimming from the
    left down to no bytes at all is excepted. *)
Theorem String_build_length (nm : option string) (n : Z) (pad : list byte)
    (paddir trimdir : string) (f : Construct) (bs : list byte) (s : State) :
  String nm (LengthInt n) None (VBytes pad) paddir trimdir = Ok f ->
  0 <= n ->
  (trimdir = "left"%string -> 0 < n \/ len bs <= n) ->
  exists out,
    result (build f (VBytes bs) None s) = Ok out /\
    len out = n /\
    result (sizeof f None s) = Ok n.
Proof.
  intros Hf Hn Hleft. apply String_inv in Hf.
  destruct Hf as ((c & ->) & Hpad & Htrim & _ & Hb & Hs).
  unfold build, sizeof, build_stream, with_stream, bind, new_container,
    result.
  rewrite Hb, Hs. cbn [heap stream].
  unfold String_build, bind, resolve_length, ret, lift_outcome.
  cbn [_encode_string].
  set (padded :=
         if String.eqb paddir "right" then bytes_ljust n c bs
         else if String.eqb paddir "left" then bytes_rjust n c bs
         else bytes_center n c bs).
  assert (Hlen : len padded = Z.max n (len bs)).
  { unfold padded. destruct (String.eqb paddir "right");
      [apply len_bytes_ljust|].
    destruct (String.eqb paddir "left");
      [apply len_bytes_rjust | apply len_bytes_center]. }
  set (out := if n <? len padded then
                if String.eqb trimdir "right" then slice_to padded n
                else slice_from padded (- n)
              else padded).
  assert (Hout : len out = n).
  { unfold out. destruct (Z.ltb_spec n (len padded)) as [H|H].
    - destruct Htrim as [->| ->]; eval_eqb.
      + apply len_slice_to. lia.
      + apply len_slice_from_neg.
        destruct (Hleft eq_refl); lia.
    - lia. }
  exists out. split; [|split; [exact Hout | reflexivity]].
  assert (Hrun : forall st h,
            (if String.eqb paddir "right" then
               String_just (VBytes [c]) bytes_ljust n bs
             else if String.eqb paddir "left" then
               String_just (VBytes [c]) bytes_rjust n bs
             else String_just (VBytes [c]) bytes_center n bs) (mkState st h)
            = (Ok padded, mkState st h)).
  { intros st h. unfold padded, String_just, ret.
    destruct (String.eqb paddir "right"); [reflexivity|].
    destruct (String.eqb paddir "left"); reflexivity. }
  rewrite Hrun.
  assert (Htrimrun : forall st h,
            (if n <? len padded then
               if String.eqb trimdir "right" then
                 (fun s0 => (Ok (slice_to padded n), s0))
               else if String.eqb trimdir "left" then
                 (fun s0 => (Ok (slice_from padded (- n)), s0))
               else raise StringError
             else (fun s0 => (Ok padded, s0))) (mkState st h)
            = (Ok out, mkState st h)).
  { intros st h. unfold out. destruct (n <? len padded); [|reflexivity].
    destruct Htrim as [->| ->]; reflexivity. }
  rewrite Htrimrun. rewrite <- Hout at 1. rewrite _write_stream_bytes.
  cbn [fst snd stream heap]. rewrite BytesIO_write_fresh. reflexivity.
Qed.

Lemma String_build_length_witness :
  exists f out,
    String (Some "s"%string) (LengthInt 2) None (VBytes [x00]) "right" "left"
      = Ok f /\
    result (build f (VBytes ["a"; "b"; "c"]%byte) None empty_state) = Ok out /\
    len out = 2.
Proof.
  eexists.
  match goal with
  | |- exists out, _ = Ok ?F /\ _ =>
      destruct (String_build_length (Some "s"%string) 2 [x00] "right" "left"
                  F ["a"; "b"; "c"]%byte empty_state eq_refl ltac:(lia)
                  (fun _ => ltac:(left; lia)))
        as (out & Hb & Hl & _)
  end.
  exists out. split; [reflexivity|]. split; [exact Hb | exact Hl].
Defined.

Lemma bytes_strip_replicate (c : byte) (l r : nat) (bs : list byte) :
  head bs <> Some c ->
  list.last bs <> Some c ->
  bytes_strip [c] (replicate l c ++ bs ++ replicate r c) = bs.
Proof.
  intros Hhead Hlast. unfold bytes_strip.
  destruct bs as [|b bs].
  - cbn [app]. rewrite <- replicate_add, <- (app_nil_r (replicate _ c)).
    rewrite bytes_lstrip_replicate by discriminate. reflexivity.
  - rewrite bytes_lstrip_replicate by exact Hhead.
    apply bytes_rstrip_replicate. exact Hlast.
Qed.

(** X17 (core.py, [String]): a byte string that fits the field and does
    not itself begin or end with the pad byte on a side where padding goes
    is built into the padded field and parsed back unchanged, in each of
    the three padding directions. *)
Theorem String_roundtrip (nm : option string) (n : Z) (c : byte)
    (paddir trimdir : string) (f : Construct) (bs : list byte) (s : State) :
  String nm (LengthInt n) None (VBytes [c]) paddir trimdir = Ok f ->
  len bs <= n ->
  (paddir <> "left"%string -> list.last bs <> Some c) ->
  (paddir <> "right"%string -> head bs <> Some c) ->
  exists out,
    result (build f (VBytes bs) None s) = Ok out /\
    len out = n /\
    result (parse f out None s) = Ok (VBytes bs).
Proof.
  intros Hf Hfit Hlast Hhead. apply String_inv in Hf.
  destruct Hf as (_ & Hpad & Htrim & Hp & Hb & _).
  pose proof (len_nonneg bs) as Hbs.
  set (out := if String.eqb paddir "right" then bytes_ljust n c bs
              else if String.eqb paddir "left" then bytes_rjust n c bs
              else bytes_center n c bs).
  assert (Hlen : len out = n).
  { unfold out. destruct (String.eqb paddir "right");
      [rewrite len_bytes_ljust; lia|].
    destruct (String.eqb paddir "left");
      [rewrite len_bytes_rjust | rewrite len_bytes_center]; lia. }
  exists out. split; [|split; [exact Hlen|]].
  - unfold build, build_stream, with_stream, bind, new_container, result.
    rewrite Hb. cbn [heap stream].
    unfold String_build, bind, resolve_length, ret, lift_outcome.
    cbn [_encode_string].
    assert (Hrun : forall st h,
              (if String.eqb paddir "right" then
                 String_just (VBytes [c]) bytes_ljust n bs
               else if String.eqb paddir "left" then
                 String_just (VBytes [c]) bytes_rjust n bs
               else String_just (VBytes [c]) bytes_center n bs) (mkState st h)
              = (Ok out, mkState st h)).
    { intros st h. unfold out, String_just, ret.
      destruct (String.eqb paddir "right"); [reflexivity|].
      destruct (String.eqb paddir "left"); reflexivity. }
    rewrite Hrun.
    replace (n <? len out) with false by (symmetry; apply Z.ltb_ge; lia).
    rewrite <- Hlen at 1. rewrite _write_stream_bytes.
    cbn [fst snd stream heap]. rewrite BytesIO_write_fresh. reflexivity.
  - unfold parse, parse_stream, with_stream, bind, new_container, result.
    rewrite Hp. cbn [heap stream].
    unfold String_parse, bind, resolve_length, ret.
    rewrite <- Hlen at 1. rewrite _read_stream_fresh.
    assert (Hstrip : forall st h,
              (if String.eqb paddir "right" then
                 String_strip (VBytes [c]) bytes_rstrip out
               else if String.eqb paddir "left" then
                 String_strip (VBytes [c]) bytes_lstrip out
               else String_strip (VBytes [c]) bytes_strip out) (mkState st h)
              = (Ok bs, mkState st h)).
    { intros st h. unfold out, String_strip, ret.
      destruct Hpad as [->|[->| ->]]; eval_eqb.
      - unfold bytes_ljust. rewrite bytes_rstrip_replicate; [reflexivity|].
        apply Hlast. discriminate.
      - unfold bytes_rjust. rewrite bytes_lstrip_replicate; [reflexivity|].
        apply Hhead. discriminate.
      - assert (Hc : bytes_strip [c] (bytes_center n c bs) = bs).
        { unfold bytes_center. destruct (n - len bs <=? 0).
          - pose proof (bytes_strip_replicate c 0 0 bs) as H0.
            cbn [replicate app] in H0. rewrite app_nil_r in H0.
            apply H0; [apply Hhead | apply Hlast]; discriminate.
          - apply bytes_strip_replicate; [apply Hhead | apply Hlast];
              discriminate. }
        rewrite Hc. reflexivity. }
    rewrite Hstrip. reflexivity.
Qed.

Lemma String_roundtrip_witness :
  exists f out,
    String (Some "s"%string) (LengthInt 5) None (VBytes [x00]) "center" "right"
      = Ok f /\
    result (build f (VBytes ["h"; "i"]%byte) None empty_state) = Ok out /\
    len out = 5 /\
    result (parse f out None empty_state) = Ok (VBytes ["h"; "i"]%byte).
Proof.
  eexists.
  match goal with
  | |- exists out, _ = Ok ?F /\ _ =>
      destruct (String_roundtrip (Some "s"%string) 5 x00 "center" "right"
                  F ["h"; "i"]%byte empty_state eq_refl
                  ltac:(unfold len; cbn [length]; lia)
                  (fun _ => ltac:(discriminate))
                  (fun _ => ltac:(discriminate)))
        as (out & H)
  end.
  exists out. split; [reflexivity | exact H].
Defined.

(** X18 (core.py, [String._build]): trimming from the left uses the slice
    [obj[-length:]], which for a length of zero is the whole string: a
    field of no bytes that trims from the left does not trim a string that
    is not empty, and the build fails with [FieldError]. *)
Theorem String_left_trim_to_nothing (nm : option string) (pad : list byte)
    (paddir : string) (f : Construct) (bs : list byte) (s : State) :
  String nm (LengthInt 0) None (VBytes pad) paddir "left" = Ok f ->
  bs <> [] ->
  result (build f (VBytes bs) None s) = Raise FieldError.
Proof.
  intros Hf Hne. apply String_inv in Hf.
  destruct Hf as ((c & ->) & Hpad & _ & _ & Hb & _).
  assert (Hpos : 0 < len bs).
  { destruct bs; [congruence|]. rewrite len_cons.
    pose proof (len_nonneg bs). lia. }
  unfold build, build_stream, with_stream, bind, new_container, result.
  rewrite Hb. cbn [heap stream].
  unfold String_build, bind, resolve_length, ret, lift_outcome.
  cbn [_encode_string].
  assert (Hrun : forall st h,
            (if String.eqb paddir "right" then
               String_just (VBytes [c]) bytes_ljust 0 bs
             else if String.eqb paddir "left" then
               String_just (VBytes [c]) bytes_rjust 0 bs
             else String_just (VBytes [c]) bytes_center 0 bs) (mkState st h)
            = (Ok bs, mkState st h)).
  { intros st h. unfold String_just, ret.
    assert (Hk : Z.to_nat (0 - len bs) = 0%nat) by lia.
    destruct Hpad as [->|[->| ->]]; eval_eqb.
    - unfold bytes_ljust. rewrite Hk. cbn [replicate].
      rewrite app_nil_r. reflexivity.
    - unfold bytes_rjust. rewrite Hk. reflexivity.
    - unfold bytes_center.
      replace (0 - len bs <=? 0) with true
        by (symmetry; apply Z.leb_le; lia).
      reflexivity. }
  rewrite Hrun.
  replace (0 <? len bs) with true by (symmetry; apply Z.ltb_lt; lia).
  eval_eqb.
  change (slice_from bs (- 0)) with bs. cbv beta iota.
  rewrite write_stream_all_or_nothing.
  replace (len bs =? 0) with false by (symmetry; apply Z.eqb_neq; lia).
  reflexivity.
Qed.

Lemma String_left_trim_to_nothing_witness :
  exists f,
    String None (LengthInt 0) None (VBytes [x00]) "right" "left" = Ok f /\
    result (build f (VBytes ["a"%byte]) None empty_state) = Raise FieldError.
Proof.
  eexists. split; [reflexivity|].
  match goal with
  | |- result (build ?F _ _ _) = _ =>
      apply (String_left_trim_to_nothing None [x00] "right" F ["a"%byte]
               empty_state eq_refl)
  end.
  discriminate.
Defined.

(** ** Prefixed *)

Lemma Prefixed_inv (lengthfield subcon P : Construct) :
  Prefixed lengthfield subcon = Ok P ->
  _parse P = Prefixed_parse lengthfield subcon /\
  _build P = Prefixed_build lengthfield subcon.
Proof.
  unfold Prefixed, Subconstruct__init__.
  destruct (Construct__init__ (name subcon)) as [[]|]; [|discriminate].
  cbn. intros [= <-]. auto.
Qed.

(** X19 (core.py, [Prefixed]): a byte string of fewer than 256 bytes,
    prefixed with a one-byte length, builds into the length byte followed
    by the string; parsing reads the string back, hands the greedy
    subconstruct those bytes only, and leaves the cursor right behind
    them, whatever follows in the stream. *)
Theorem Prefixed_bytes_roundtrip (nm nm' : option string) (e : string)
    (LF G P : Construct) (bs garbage : list byte) (ctx : addr) (s : State)
    (h : Heap) :
  FormatField nm e "B" = Ok LF ->
  GreedyBytes nm' = Ok G ->
  Prefixed LF G = Ok P ->
  len bs < 256 ->
  let data := byte_of_Z (len bs) :: bs in
  result (build P (VBytes bs) None s) = Ok data /\
  _parse P ctx (mkState (BytesIO_new (data ++ garbage)) h) =
    (Ok (VBytes bs), mkState (mkBytesIO (data ++ garbage) (len data)) h).
Proof.
  intros HLF HG HP Hlt data.
  apply byte_field_inv in HLF. destruct HLF as (o & HLp & HLb & _).
  apply GreedyBytes_inv in HG. destruct HG as (HGp & HGb).
  apply Prefixed_inv in HP. destruct HP as (HPp & HPb).
  pose proof (len_nonneg bs) as Hbs.
  assert (Hbyte : Z_of_byte (byte_of_Z (len bs)) = len bs)
    by (rewrite Z_of_byte_of_Z; apply Z.mod_small; lia).
  split.
  - unfold build, build_stream, with_stream, bind, new_container, result.
    rewrite HPb. cbn [heap stream].
    unfold Prefixed_build, build, build_stream, with_stream, bind, ret.
    rewrite HGb. unfold GreedyBytes_build, write. cbn [heap stream fst snd].
    rewrite BytesIO_write_fresh. cbn [buffer].
    rewrite HLb.
    change (BytesIO_new []) with (mkBytesIO [] (len (@nil byte))).
    rewrite <- Hbyte at 1. rewrite byte_field_build.
    rewrite _write_stream_bytes. cbn [stream heap app fst snd].
    rewrite BytesIO_write_at_end. reflexivity.
  - rewrite HPp. unfold Prefixed_parse, bind at 1. rewrite HLp.
    unfold data. cbn [app].
    change (BytesIO_new (byte_of_Z (len bs) :: bs ++ garbage))
      with (mkBytesIO ([] ++ byte_of_Z (len bs) :: bs ++ garbage)
              (len (@nil byte))).
    rewrite byte_field_parse. rewrite Hbyte.
    unfold bind at 1, expect_int. cbn [int_of_value ret app].
    unfold bind at 1. rewrite _read_stream_ok; cbn [stream buffer position heap].
    + change (Z.to_nat (len [byte_of_Z (len bs)])) with 1%nat.
      cbn [drop]. rewrite drop_0.
      replace (Z.to_nat (len bs)) with (length bs) by (unfold len; lia).
      rewrite take_app_length.
      unfold parse, parse_stream, with_stream, bind, ret.
      rewrite HGp. cbn [heap stream].
      unfold GreedyBytes_parse, bind, read_all, BytesIO_read_all, BytesIO_new.
      cbn [stream buffer position heap fst snd]. rewrite drop_0.
      rewrite !len_cons. change (len []) with 0.
      reflexivity.
    + lia.
    + apply len_nonneg.
    + rewrite !len_cons, len_app. change (len []) with 0.
      pose proof (len_nonneg garbage). lia.
Qed.

Lemma Prefixed_bytes_roundtrip_witness :
  exists LF G P,
    UBInt8 None = Ok LF /\ GreedyBytes None = Ok G /\ Prefixed LF G = Ok P /\
    result (build P (VBytes ["x"; "y"; "z"]%byte) None empty_state)
      = Ok [x03; "x"; "y"; "z"]%byte /\
    result (_parse P 0%nat (start ([x03; "x"; "y"; "z"] ++ ["!"])%byte))
      = Ok (VBytes ["x"; "y"; "z"]%byte).
Proof.
  eexists _, _, _.
  split; [reflexivity|]. split; [reflexivity|]. split; [reflexivity|].
  match goal with
  | |- result (build ?P0 _ _ _) = _ /\ _ =>
      destruct (Prefixed_bytes_roundtrip None None ">" _ _ P0
                  ["x"; "y"; "z"]%byte ["!"]%byte 0%nat empty_state [[]]
                  eq_refl eq_refl eq_refl
                  ltac:(unfold len; cbn [length]; lia))
        as (Hb & Hp)
  end.
  split; [exact Hb|]. unfold start. cbv zeta in Hp.
  change (byte_of_Z (len ["x"; "y"; "z"]%byte)) with x03 in Hp.
  rewrite Hp. reflexivity.
Defined.

(** ** Building the first alternative that builds *)

(** [build] works on a stream of its own. *)
Lemma build_stream_frame (sc : Construct) (obj : value) (c : option addr)
    (s : State) :
  stream (snd (build sc obj c s)) = stream s.
Proof.
  unfold build, bind, with_stream.
  destruct (build_stream sc obj c _) as [[[]|e] s1]; reflexivity.
Qed.

Lemma issubclass_Exception (e : error) : issubclass e Exception = true.
Proof. destruct e; reflexivity. Qed.

Lemma ctx_copy_stream (ctx : addr) (s : State) :
  stream (snd (ctx_copy ctx s)) = stream s.
Proof.
  unfold ctx_copy, bind, get_container, new_container.
  destruct (heap s !! ctx); reflexivity.
Qed.

Lemma Select_build_first_frame (obj : value) (ctx : addr)
    (subcons : list Construct) :
  forall s,
    match Select_build_first obj subcons ctx s with
    | (Ok _, s') =>
        exists sc data c s0,
          sc ∈ subcons /\
          result (build sc obj (Some c) s0) = Ok data /\
          stream s' = BytesIO_write data (stream s)
    | (Raise _, s') => stream s' = stream s
    end.
Proof.
  induction subcons as [|sc subcons IH]; intros s.
  - reflexivity.
  - cbn [Select_build_first]. unfold bind at 1.
    pose proof (ctx_copy_stream ctx s) as Hcopy.
    destruct (ctx_copy ctx s) as [[c2|e] s0]; cbn [snd] in Hcopy;
      [|exact Hcopy].
    unfold try_except_else.
    pose proof (build_stream_frame sc obj (Some c2) s0) as Hbuild.
    destruct (build sc obj (Some c2) s0) as [[data|e] s1] eqn:Hrun;
      cbn [snd] in Hbuild.
    + unfold bind.
      pose proof (ctx_update_stream ctx c2 s1) as Hupd.
      destruct (ctx_update ctx c2 s1) as [[[]|e] s2]; cbn [snd] in Hupd.
      * exists sc, data, c2, s0. split; [left|]. split.
        -- unfold result. rewrite Hrun. reflexivity.
        -- unfold write. cbn [stream]. congruence.
      * congruence.
    + rewrite issubclass_Exception. specialize (IH s1).
      destruct (Select_build_first obj subcons ctx s1) as [[[]|e'] s2].
      * destruct IH as (sc' & data & c & s0' & Hin & Hres & Hst).
        exists sc', data, c, s0'. split; [right; exact Hin|].
        split; [exact Hres|]. congruence.
      * congruence.
Qed.

(** X20 (core.py, [Select._build]): a [Select] that builds without names
    puts on the stream the complete output of one of its alternatives, in
    a single write, or nothing at all: each alternative builds on a stream
    of its own, so an alternative that fails part-way leaves no bytes
    behind, whatever exception it failed with. *)
Theorem Select_build_writes_once (nm : option string)
    (subcons : list Construct) (S : Construct) (obj : value) (ctx : addr)
    (s : State) :
  Select nm subcons false = Ok S ->
  match _build S obj ctx s with
  | (Ok _, s') =>
      exists sc data c s0,
        sc ∈ subcons /\
        result (build sc obj (Some c) s0) = Ok data /\
        stream s' = BytesIO_write data (stream s)
  | (Raise _, s') => stream s' = stream s
  end.
Proof.
  unfold Select. destruct (Construct__init__ nm) as [[]|]; [|discriminate].
  cbn [obind]. intros [= <-]. cbn [_build Select_build].
  apply Select_build_first_frame.
Qed.

Lemma Select_build_writes_once_witness :
  exists A B S,
    UBInt8 None = Ok A /\ UBInt16 None = Ok B /\
    Select None [A; B] false = Ok S /\
    match _build S (VInt 258) 0%nat (start []) with
    | (Ok _, s') =>
        exists sc data c s0,
          sc ∈ [A; B] /\
          result (build sc (VInt 258) (Some c) s0) = Ok data /\
          stream s' = BytesIO_write data (stream (start []))
    | (Raise _, s') => stream s' = stream (start [])
    end.
Proof.
  eexists _, _, _.
  split; [reflexivity|]. split; [reflexivity|]. split; [reflexivity|].
  match goal with
  | |- match _build ?S0 _ _ _ with _ => _ end =>
      exact (Select_build_writes_once None _ S0 (VInt 258) 0%nat
               (start []) eq_refl)
  end.
Defined.

(** ** Validator *)

Lemma Validator_inv (subcon : Construct) (_validate : value -> callback bool)
    (V : Construct) :
  Validator subcon _validate = Ok V ->
  _parse V = Adapter_parse subcon (Validator_decode _validate) /\
  _build V = Adapter_build subcon (Validator_decode _validate).
Proof.
  unfold Validator, SymmetricAdapter, Adapter, Subconstruct__init__.
  destruct (Construct__init__ (name subcon)) as [[]|]; [|discriminate].
  cbn. intros [= <-]. auto.
Qed.

(** X21 (core.py, [Validator]): a validator never returns a parsed object
    that fails its test, and what it returns is what the subconstruct
    parsed; when building, an object that fails the test is refused with
    [ValidationError] before the subconstruct sees it, so nothing is
    written, and an object that passes is built by the subconstruct as it
    is. *)
Theorem Validator_guards (subcon : Construct)
    (_validate : value -> callback bool) (V : Construct) (obj : value)
    (ctx : addr) (s : State) :
  Validator subcon _validate = Ok V ->
  match _parse V ctx s with
  | (Ok v, s') =>
      _validate v ctx (heap s') = Ok true /\ _parse subcon ctx s = (Ok v, s')
  | (Raise _, _) => True
  end /\
  _build V obj ctx s =
    match _validate obj ctx (heap s) with
    | Ok true => _build subcon obj ctx s
    | Ok false => (Raise ValidationError, s)
    | Raise e => (Raise e, s)
    end.
Proof.
  intros HV. apply Validator_inv in HV. destruct HV as (-> & ->). split.
  - unfold Adapter_parse, bind, call, Validator_decode.
    destruct (_parse subcon ctx s) as [[v|e] s1]; [|exact I].
    destruct (_validate v ctx (heap s1)) as [[|]|e] eqn:Hv; auto.
  - unfold Adapter_build, bind, call, Validator_decode.
    destruct (_validate obj ctx (heap s)) as [[|]|e]; reflexivity.
Qed.

Lemma Validator_guards_witness :
  exists F V,
    UBInt8 None = Ok F /\
    Validator F (fun v _ _ => Ok (match v with VInt 7 => true | _ => false end))
      = Ok V /\
    _build V (VInt 8) 0%nat (start []) = (Raise ValidationError, start []).
Proof.
  eexists _, _. split; [reflexivity|].
  match goal with
  | |- Validator ?F0 ?P0 = _ /\ _ =>
      split; [reflexivity|];
      match goal with
      | |- _build ?V0 _ _ _ = _ =>
          destruct (Validator_guards F0 P0 V0 (VInt 8) 0%nat (start [])
                      eq_refl) as (_ & H)
      end
  end.
  exact H.
Defined.

(** ** Flags *)

Lemma is_flag_testbit (c : Construct) (k : Z) :
  0 <= k -> _is_flag c (2 ^ k) = Z.testbit (conflags c) k.
Proof.
  intros Hk. unfold _is_flag.
  assert (H : Z.land (conflags c) (2 ^ k) =
              if Z.testbit (conflags c) k then 2 ^ k else 0).
  { apply Z.bits_inj'. intros n Hn. rewrite Z.land_spec.
    destruct (Z.eq_dec n k) as [->|Hne].
    - rewrite Z.pow2_bits_true by lia.
      destruct (Z.testbit (conflags c) k).
      + rewrite Z.pow2_bits_true by lia. reflexivity.
      + rewrite Z.bits_0. reflexivity.
    - rewrite Z.pow2_bits_false by lia. rewrite andb_false_r.
      destruct (Z.testbit (conflags c) k).
      + rewrite Z.pow2_bits_false by lia. reflexivity.
      + rewrite Z.bits_0. reflexivity. }
  rewrite H. destruct (Z.testbit (conflags c) k).
  - assert (0 < 2 ^ k) by (apply Z.pow_pos_nonneg; lia).
    destruct (Z.eqb_spec (2 ^ k) 0); [lia | reflexivity].
  - reflexivity.
Qed.

Lemma _inherit_flags_testbit (subcons : list Construct) (flags k : Z) :
  Z.testbit (_inherit_flags flags subcons) k =
    Z.testbit flags k || existsb (fun sc => Z.testbit (conflags sc) k) subcons.
Proof.
  unfold _inherit_flags. revert flags.
  induction subcons as [|sc subcons IH]; intros flags; cbn [fold_left existsb].
  - rewrite orb_false_r. reflexivity.
  - rewrite IH. unfold _set_flag. rewrite Z.lor_spec, orb_assoc. reflexivity.
Qed.

(** X22 (core.py, [Struct.__init__] and the flag methods): a struct never
    carries the embedding flag itself, whatever its members carry, and it
    carries each of the other flags exactly when one of its members
    does. *)
Theorem Struct_flags (nm : option string) (subcons : list Construct)
    (nested allow_overwrite : bool) (S : Construct) (flag : Z) :
  Struct nm subcons nested allow_overwrite = Ok S ->
  flag ∈ [FLAG_COPY_CONTEXT; FLAG_DYNAMIC; FLAG_NESTING] ->
  _is_flag S FLAG_EMBED = false /\
  (_is_flag S flag = true <->
   exists sc, sc ∈ subcons /\ _is_flag sc flag = true).
Proof.
  unfold Struct. destruct (Construct__init__ nm) as [[]|]; [|discriminate].
  cbn [obind]. intros [= <-] Hflag.
  assert (Hbit : forall k, 0 <= k ->
            _is_flag {| cls := ClsStruct; name := nm;
                        conflags := _clear_flag (_inherit_flags 0 subcons)
                                      FLAG_EMBED;
                        _parse := Struct_parse nested allow_overwrite subcons;
                        _build := Struct_build nested subcons;
                        _sizeof := Struct_sizeof subcons |} (2 ^ k) =
            existsb (fun sc => Z.testbit (conflags sc) k) subcons
              && negb (k =? 2)).
  { intros k Hk. rewrite is_flag_testbit by exact Hk. cbn [conflags].
    unfold _clear_flag, FLAG_EMBED.
    rewrite Z.land_spec, _inherit_flags_testbit, Z.bits_0. cbn [orb].
    f_equal. rewrite Z.lnot_spec by exact Hk.
    change 4 with (2 ^ 2).
    destruct (Z.eqb_spec k 2) as [->|Hne].
    - rewrite Z.pow2_bits_true by lia. reflexivity.
    - rewrite Z.pow2_bits_false by lia. reflexivity. }
  split.
  - change FLAG_EMBED with (2 ^ 2). rewrite Hbit by lia.
    apply andb_false_r.
  - assert (Hk : exists k, 0 <= k /\ k <> 2 /\ flag = 2 ^ k).
    { repeat (apply elem_of_cons in Hflag as [->|Hflag]).
      - exists 0. repeat split; lia.
      - exists 1. repeat split; lia.
      - exists 3. repeat split; lia.
      - apply elem_of_nil in Hflag. destruct Hflag. }
    destruct Hk as (k & Hk0 & Hk2 & ->).
    rewrite Hbit by exact Hk0.
    replace (k =? 2) with false by (symmetry; apply Z.eqb_neq; exact Hk2).
    rewrite andb_true_r. rewrite existsb_exists. split.
    + intros (sc & Hin & Hsc). exists sc. split.
      * apply list_elem_of_In. exact Hin.
      * rewrite is_flag_testbit by exact Hk0. exact Hsc.
    + intros (sc & Hin & Hsc). exists sc. split.
      * apply list_elem_of_In. exact Hin.
      * rewrite is_flag_testbit in Hsc by exact Hk0. exact Hsc.
Qed.

Lemma Struct_flags_witness :
  exists R S,
    Range 0 2 Pass = Ok R /\
    Struct (Some "s"%string) [Pass; R] true false = Ok S /\
    _is_flag S FLAG_EMBED = false /\
    (_is_flag S FLAG_DYNAMIC = true <->
     exists sc, sc ∈ [Pass; R] /\ _is_flag sc FLAG_DYNAMIC = true).
Proof.
  eexists _, _. split; [reflexivity|]. split; [reflexivity|].
  match goal with
  | |- _is_flag ?S0 _ = _ /\ _ =>
      apply (Struct_flags (Some "s"%string) _ true false S0 FLAG_DYNAMIC
               eq_refl)
  end.
  right. left.
Defined.

(** ** MetaField *)

(** X23 (core.py, [MetaField] and [StaticField]): in a context where the
    length function gives [n], a meta field parses as the static field of
    [n] bytes does and builds byte strings as it does.  The two differ on
    an integer: the static field of one byte writes it as a byte, the meta
    field refuses it, having no conversion of its own. *)
Theorem MetaField_as_StaticField (lengthfunc : callback Z) (ctx : addr)
    (s : State) (n i : Z) (bs : list byte) :
  lengthfunc ctx (heap s) = Ok n ->
  MetaField_parse lengthfunc ctx s = StaticField_parse n ctx s /\
  MetaField_build lengthfunc (VBytes bs) ctx s =
    StaticField_build n (VBytes bs) ctx s /\
  MetaField_build lengthfunc (VInt i) ctx s =
    (Raise (if n <? 0 then ValueError else TypeError), s) /\
  StaticField_build 1 (VInt i) ctx s =
    if (0 <=? i) && (i <? 256)
    then (Ok tt, mkState (BytesIO_write [byte_of_Z i] (stream s)) (heap s))
    else (Raise ValueError, s).
Proof.
  intros Hn. repeat split.
  - unfold MetaField_parse, StaticField_parse, bind, call. rewrite Hn.
    reflexivity.
  - unfold MetaField_build, StaticField_build, bind, call, ret. rewrite Hn.
    reflexivity.
  - unfold MetaField_build, bind, call, _write_stream. rewrite Hn.
    destruct (n <? 0); reflexivity.
  - unfold StaticField_build, bind, lift_outcome, int2byte.
    destruct ((0 <=? i) && (i <? 256)); reflexivity.
Qed.

Lemma MetaField_as_StaticField_witness :
  MetaField_build (fun _ _ => Ok 1) (VInt 65) 0%nat (start []) =
    (Raise TypeError, start []) /\
  StaticField_build 1 (VInt 65) 0%nat (start []) =
    (Ok tt, mkState (mkBytesIO ["A"%byte] 1) [[]]).
Proof.
  destruct (MetaField_as_StaticField (fun _ _ => Ok 1) 0%nat (start []) 1 65
              [] eq_refl) as (_ & _ & Hm & Hs).
  split; [exact Hm | exact Hs].
Defined.

(** ** Anchors *)

Lemma Container_get_set (k : key) (v : value) (c : Container) :
  Container_get k (Container_set k v c) = Some v.
Proof.
  induction c as [|[k' v'] c IH]; cbn [Container_set Container_get].
  - rewrite bool_decide_eq_true_2 by reflexivity. reflexivity.
  - destruct (bool_decide (k = k')) eqn:E; cbn [Container_get].
    + rewrite bool_decide_eq_true_2 by reflexivity. reflexivity.
    + rewrite E. exact IH.
Qed.

Lemma ctx_contains_ok (a : addr) (k : key) (c : Container) (s : State) :
  heap s !! a = Some c ->
  ctx_contains a k s = (Ok (Container_contains k c), s).
Proof.
  intros H. unfold ctx_contains, bind, get_container. rewrite H. reflexivity.
Qed.

Lemma ctx_getitem_ok (a : addr) (k : key) (c : Container) (v : value)
    (s : State) :
  heap s !! a = Some c -> Container_get k c = Some v ->
  ctx_getitem a k s = (Ok v, s).
Proof.
  intros H Hk. unfold ctx_getitem, bind, get_container. rewrite H, Hk.
  reflexivity.
Qed.

Lemma ctx_setitem_ok (a : addr) (k : key) (v : value) (c : Container)
    (s : State) :
  heap s !! a = Some c ->
  ctx_setitem a k v s =
    (Ok tt, mkState (stream s) (<[a := Container_set k v c]> (heap s))).
Proof.
  intros H. unfold ctx_setitem, bind, get_container, put_container.
  rewrite H. reflexivity.
Qed.

(** The first occurrence of an anchor range binds its name to the
    position. *)
Lemma AnchorRange_first (nm : option string) (ctx : addr) (c : Container)
    (s : State) :
  heap s !! ctx = Some c ->
  Container_get nm c = None ->
  AnchorRange_parse nm ctx s =
    (Ok (VInt (position (stream s))),
     mkState (stream s)
       (<[ctx := Container_set nm (VInt (position (stream s))) c]> (heap s))).
Proof.
  intros Hc Hnm. unfold AnchorRange_parse, bind at 1, tell, BytesIO_tell.
  unfold bind at 1. rewrite (ctx_contains_ok ctx nm c s Hc).
  unfold Container_contains. rewrite Hnm. cbn [negb].
  unfold bind. rewrite (ctx_setitem_ok ctx nm _ c s Hc). reflexivity.
Qed.

(** A later occurrence, the name being bound to [v]. *)
Lemma AnchorRange_later (nm : option string) (ctx : addr) (c : Container)
    (v : value) (s : State) :
  heap s !! ctx = Some c ->
  Container_get nm c = Some v ->
  let a := length (heap s) in
  let p := position (stream s) in
  AnchorRange_parse nm ctx s =
    match int_of_value v with
    | Some p1 =>
        (Ok (VRef a),
         mkState (stream s)
           (<[ctx := Container_set nm (VRef a) c]> (heap s) ++
            [[(Some "offset1"%string, v); (Some "offset2"%string, VInt p);
              (Some "length"%string, VInt (p - p1))]]))
    | None =>
        (Raise TypeError,
         mkState (stream s)
           (heap s ++
            [[(Some "offset1"%string, v); (Some "offset2"%string, VInt p)]]))
    end.
Proof.
  intros Hc Hnm a p. unfold AnchorRange_parse, bind at 1, tell, BytesIO_tell.
  unfold bind at 1. rewrite (ctx_contains_ok ctx nm c s Hc).
  unfold Container_contains. rewrite Hnm. cbn [negb].
  unfold bind at 1. rewrite (ctx_getitem_ok ctx nm c v s Hc Hnm).
  unfold anchor_range, bind at 1, bind at 1, bind at 1, new_container.
  cbn [stream heap].
  assert (Hnew : forall k w c0,
            ctx_setitem (length (heap s)) k w
              (mkState (stream s) (heap s ++ [c0])) =
            (Ok tt, mkState (stream s) (heap s ++ [Container_set k w c0]))).
  { intros k w c0. rewrite (ctx_setitem_ok _ k w c0).
    - cbn [stream heap].
      rewrite insert_app_r_alt by lia. rewrite Nat.sub_diag. reflexivity.
    - cbn [heap]. rewrite lookup_app_r by lia.
      rewrite Nat.sub_diag. reflexivity. }
  rewrite Hnew. unfold bind at 1, expect_int.
  destruct (int_of_value v) as [p1|]; [|reflexivity].
  unfold ret at 1. unfold bind at 1. rewrite Hnew.
  unfold bind, ret.
  rewrite (ctx_setitem_ok ctx nm _ c).
  - cbn [stream heap].
    rewrite insert_app_l by (apply lookup_lt_Some in Hc; exact Hc).
    reflexivity.
  - cbn [heap]. rewrite lookup_app_l by (apply lookup_lt_Some in Hc; exact Hc).
    exact Hc.
Qed.

(** X24 (core.py, [AnchorRange]): two occurrences of an anchor range under
    one name measure the stream between them.  The first binds the name to
    its position; the second returns a new container that holds the first
    position as [offset1], its own as [offset2] and their difference as
    [length], and rebinds the name to it.  A third occurrence finds the
    container where it expects a position and fails with [TypeError]. *)
Theorem AnchorRange_measures (nm : option string) (ctx : addr)
    (c : Container) (p2 : Z) (s : State) :
  heap s !! ctx = Some c ->
  Container_get nm c = None ->
  0 <= p2 ->
  let p1 := position (stream s) in
  let a := length (heap s) in
  exists s',
    (AnchorRange_parse nm ctx >> seek p2 0 >> AnchorRange_parse nm ctx) s =
      (Ok (VRef a), s') /\
    heap s' !! a =
      Some [(Some "offset1"%string, VInt p1); (Some "offset2"%string, VInt p2);
            (Some "length"%string, VInt (p2 - p1))] /\
    (exists c', heap s' !! ctx = Some c' /\
                Container_get nm c' = Some (VRef a)) /\
    stream s' = mkBytesIO (buffer (stream s)) p2 /\
    result (AnchorRange_parse nm ctx s') = Raise TypeError.
Proof.
  intros Hc Hnm Hp2 p1 a.
  pose proof (lookup_lt_Some _ _ _ Hc) as Hlt.
  unfold bind at 1. rewrite (AnchorRange_first nm ctx c s Hc Hnm).
  unfold bind at 1. rewrite seek_back by exact Hp2. cbn [stream heap buffer].
  set (s1 := mkState (mkBytesIO (buffer (stream s)) p2)
               (<[ctx := Container_set nm (VInt (position (stream s))) c]>
                  (heap s))).
  assert (Hc1 : heap s1 !! ctx =
                Some (Container_set nm (VInt (position (stream s))) c)).
  { unfold s1. cbn [heap]. apply list_lookup_insert_eq. exact Hlt. }
  pose proof (AnchorRange_later nm ctx _ _ s1 Hc1 (Container_get_set _ _ _))
    as Hsecond.
  cbn [int_of_value] in Hsecond. cbv zeta in Hsecond.
  rewrite Hsecond. clear Hsecond.
  assert (Ha : length (heap s1) = a)
    by (unfold s1; cbn [heap]; apply length_insert).
  rewrite Ha.
  eexists. split; [reflexivity|]. unfold s1. cbn [heap stream].
  split; [|split; [|split]].
  - rewrite lookup_app_r
      by (rewrite !length_insert; unfold a; apply Nat.le_refl).
    rewrite !length_insert. unfold a. rewrite Nat.sub_diag. reflexivity.
  - eexists. split.
    + rewrite lookup_app_l by (rewrite !length_insert; exact Hlt).
      apply list_lookup_insert_eq. rewrite length_insert. exact Hlt.
    + apply Container_get_set.
  - reflexivity.
  - match goal with
    | |- result (AnchorRange_parse nm ctx ?s2) = _ =>
        assert (Hc2 : heap s2 !! ctx =
                      Some (Container_set nm (VRef a)
                              (Container_set nm
                                 (VInt (position (stream s))) c)))
    end.
    { cbn [heap]. rewrite lookup_app_l by (rewrite !length_insert; exact Hlt).
      apply list_lookup_insert_eq. rewrite length_insert. exact Hlt. }
    pose proof (AnchorRange_later nm ctx _ _ _ Hc2 (Container_get_set _ _ _))
      as Hthird.
    cbn [int_of_value] in Hthird. cbv zeta in Hthird.
    rewrite Hthird. reflexivity.
Qed.

Lemma AnchorRange_measures_witness :
  exists s',
    (AnchorRange_parse (Some "span"%string) 0%nat >> seek 5 0 >>
     AnchorRange_parse (Some "span"%string) 0%nat) (start []) =
      (Ok (VRef 1%nat), s') /\
    heap s' !! 1%nat =
      Some [(Some "offset1"%string, VInt 0); (Some "offset2"%string, VInt 5);
            (Some "length"%string, VInt 5)].
Proof.
  destruct (AnchorRange_measures (Some "span"%string) 0%nat [] 5 (start [])
              eq_refl eq_refl ltac:(lia)) as (s' & H1 & H2 & _).
  exists s'. split; [exact H1 | exact H2].
Defined.

(** ** Structs of single-byte fields *)

Lemma Container_set_fresh (k : key) (v : value) (c : Container) :
  Container_get k c = None -> Container_set k v c = c ++ [(k, v)].
Proof.
  induction c as [|[k' v'] c IH]; cbn [Container_get Container_set app].
  - reflexivity.
  - destruct (bool_decide (k = k')); [discriminate|].
    intros H. rewrite IH by exact H. reflexivity.
Qed.

Lemma Container_get_snoc_ne (k k' : key) (v : value) (c : Container) :
  k <> k' -> Container_get k (c ++ [(k', v)]) = Container_get k c.
Proof.
  intros Hne. induction c as [|[k0 v0] c IH]; cbn [Container_get app].
  - rewrite bool_decide_eq_false_2 by exact Hne. reflexivity.
  - destruct (bool_decide (k = k0)); [reflexivity | exact IH].
Qed.

(** A named single-byte field. *)
Lemma named_byte_field_inv (n e : string) (F : Construct) :
  FormatField (Some n) e "B" = Ok F ->
  name F = Some n /\ cls F = ClsFormatField /\ conflags F = 0 /\
  _sizeof F = (fun _ => ret 1) /\
  exists o,
    _parse F = FormatField_parse (mkPacker o [mkCode 1 false]) 1 /\
    _build F = FormatField_build (mkPacker o [mkCode 1 false]) 1.
Proof.
  intros Hf. apply FormatField_inv in Hf.
  destruct Hf as (o & c & fc & [= <-] & Hc & Hp & Hb & Hs & Hfl & Hn & Hcls).
  injection Hc as <-. repeat split; try assumption.
  exists o. auto.
Qed.

Section StructOfBytes.
Variables (nested allow_overwrite : bool).

Lemma Struct_parse_loop_bytes (names : list string)
    (subcons : list Construct) :
  Forall2 (fun n F => exists e, FormatField (Some n) e "B" = Ok F)
    names subcons ->
  NoDup names ->
  forall (bs pre rest : list byte) (H : Heap) (a inner : addr)
         (objc : Container),
    length bs = length names ->
    H !! a = Some objc ->
    (inner < length H)%nat ->
    a <> inner ->
    (forall n, n ∈ names -> Container_get (Some n) objc = None) ->
    exists H',
      Struct_parse_loop allow_overwrite (VRef a) inner subcons
        (mkState (mkBytesIO (pre ++ bs ++ rest) (len pre)) H) =
        (Ok tt, mkState (mkBytesIO (pre ++ bs ++ rest) (len (pre ++ bs))) H') /\
      H' !! a = Some (objc ++ byte_bindings names bs) /\
      length H' = length H.
Proof.
  induction 1 as [|n F names subcons (e & HF) _ IH];
    intros Hnd bs pre rest H a inner objc Hlen Ha Hinner Hne Hfresh.
  - destruct bs; [|discriminate]. exists H.
    cbn [app Struct_parse_loop byte_bindings zip_with].
    rewrite !app_nil_r. auto.
  - destruct bs as [|b bs]; [discriminate|].
    apply named_byte_field_inv in HF.
    destruct HF as (Hname & _ & Hfl & _ & o & Hp & _).
    cbn [Struct_parse_loop]. unfold bind at 1.
    unfold Struct_parse_sub, _is_flag. rewrite Hfl.
    change (negb (Z.land 0 FLAG_EMBED =? 0)) with false. cbv iota.
    unfold bind at 1. rewrite Hp. cbn [app]. rewrite byte_field_parse.
    rewrite Hname. unfold bind at 1, obj_contains.
    rewrite (ctx_contains_ok a (Some n) objc) by exact Ha.
    unfold Container_contains.
    rewrite Hfresh by (left). cbn [andb]. 
    unfold bind at 1, obj_setitem.
    rewrite (ctx_setitem_ok a (Some n) _ objc) by exact Ha.
    cbn [stream heap].
    destruct (lookup_lt_is_Some_2 (<[a := Container_set (Some n)
                                      (VInt (Z_of_byte b)) objc]> H) inner)
      as (innerc & Hic).
    { rewrite length_insert. exact Hinner. }
    rewrite (ctx_setitem_ok inner (Some n) _ innerc) by exact Hic.
    cbn [stream heap].
    rewrite (Container_set_fresh (Some n) _ objc) by (apply Hfresh; left).
    inversion Hnd as [|? ? Hnotin Hnd']; subst.
    pose proof (lookup_lt_Some _ _ _ Ha) as Halt.
    destruct (IH Hnd' bs (pre ++ [b]) rest
                (<[inner := Container_set (Some n) (VInt (Z_of_byte b)) innerc]>
                   (<[a := objc ++ [(Some n, VInt (Z_of_byte b))]]> H))
                a inner (objc ++ [(Some n, VInt (Z_of_byte b))]))
      as (H' & Hrun & Ha' & Hlen').
    + cbn [length] in Hlen. lia.
    + rewrite list_lookup_insert_ne
        by (intros E; apply Hne; symmetry; exact E).
      apply list_lookup_insert_eq. exact Halt.
    + rewrite !length_insert. exact Hinner.
    + exact Hne.
    + intros n' Hn'. rewrite Container_get_snoc_ne.
      * apply Hfresh. right. exact Hn'.
      * intros [= ->]. apply Hnotin. exact Hn'.
    + rewrite <- !app_assoc in Hrun. cbn [app] in Hrun.
      exists H'. split; [exact Hrun|]. split.
      * rewrite Ha'. cbn [byte_bindings zip_with].
        rewrite <- app_assoc. reflexivity.
      * rewrite Hlen', !length_insert. reflexivity.
Qed.

Lemma Struct_build_loop_bytes (names : list string)
    (subcons : list Construct) :
  Forall2 (fun n F => exists e, FormatField (Some n) e "B" = Ok F)
    names subcons ->
  forall (bs buf : list byte) (H : Heap) (o ctx' : addr) (objc : Container),
    Forall2 (fun n b =>
               Container_get (Some n) objc = Some (VInt (Z_of_byte b)))
      names bs ->
    H !! o = Some objc ->
    (ctx' < length H)%nat ->
    o <> ctx' ->
    exists H',
      Struct_build_loop (VRef o) ctx' subcons
        (mkState (mkBytesIO buf (len buf)) H) =
        (Ok tt, mkState (mkBytesIO (buf ++ bs) (len (buf ++ bs))) H') /\
      H' !! o = Some objc /\
      length H' = length H.
Proof.
  induction 1 as [|n F names subcons (e & HF) _ IH];
    intros bs buf H o ctx' objc Hobj Ho Hctx Hne.
  - inversion Hobj; subst. exists H.
    cbn [Struct_build_loop]. rewrite app_nil_r. auto.
  - inversion Hobj as [|? b ? bs' Hb Hrest]; subst.
    apply named_byte_field_inv in HF.
    destruct HF as (Hname & Hcls & Hfl & _ & p & _ & Hbuild).
    cbn [Struct_build_loop]. unfold bind at 1.
    unfold Struct_build_sub, _is_flag, is_valueless.
    rewrite Hfl, Hname, Hcls.
    change (negb (Z.land 0 FLAG_EMBED =? 0)) with false. cbv iota.
    rewrite bool_decide_eq_false_2.
    2:{ intros Hin. repeat (apply elem_of_cons in Hin as [Hin|Hin];
                            [discriminate|]).
        apply elem_of_nil in Hin. exact Hin. }
    unfold bind at 1, bind at 1, py_getitem.
    rewrite (ctx_getitem_ok o (Some n) objc (VInt (Z_of_byte b)))
      by first [exact Ho | exact Hb].
    destruct (lookup_lt_is_Some_2 H ctx' Hctx) as (cc & Hcc).
    unfold bind at 1.
    rewrite (ctx_setitem_ok ctx' (Some n) _ cc) by exact Hcc.
    cbn [stream heap ret]. rewrite Hbuild, byte_field_build.
    destruct (IH bs' (buf ++ [b])
                (<[ctx' := Container_set (Some n) (VInt (Z_of_byte b)) cc]> H)
                o ctx' objc)
      as (H' & Hrun & Ho' & Hlen').
    + exact Hrest.
    + rewrite list_lookup_insert_ne by (intros ->; apply Hne; reflexivity).
      exact Ho.
    + rewrite length_insert. exact Hctx.
    + exact Hne.
    + rewrite <- !app_assoc in Hrun. cbn [app] in Hrun.
      exists H'. split; [exact Hrun|]. split; [exact Ho'|].
      rewrite Hlen', length_insert. reflexivity.
Qed.

Lemma Struct_sizeof_bytes (names : list string) (subcons : list Construct)
    (ctx : addr) (s : State) :
  Forall2 (fun n F => exists e, FormatField (Some n) e "B" = Ok F)
    names subcons ->
  Struct_sizeof subcons ctx s = (Ok (len names), s).
Proof.
  induction 1 as [|n F names subcons (e & HF) _ IH].
  - reflexivity.
  - apply named_byte_field_inv in HF. destruct HF as (_ & _ & _ & Hs & _).
    cbn [Struct_sizeof]. unfold bind at 1. rewrite Hs.
    unfold ret at 1. unfold bind at 1. rewrite IH.
    unfold ret. rewrite len_cons. reflexivity.
Qed.
End StructOfBytes.

Lemma Struct_inv (nm : option string) (subcons : list Construct)
    (nested allow_overwrite : bool) (T : Construct) :
  Struct nm subcons nested allow_overwrite = Ok T ->
  _parse T = Struct_parse nested allow_overwrite subcons /\
  _build T = Struct_build nested subcons /\
  _sizeof T = Struct_sizeof subcons.
Proof.
  unfold Struct. destruct (Construct__init__ nm) as [[]|]; [|discriminate].
  cbn. intros [= <-]. auto.
Qed.

(** X25 (core.py, [Struct]): a struct of single-byte integer fields with
    distinct names builds a container that binds each name to a byte value
    into those bytes, in the order of the fields; its size is the number
    of fields; and parsing that many bytes yields a new container that
    binds the names, in the order of the fields, to the byte values.  This
    holds with and without nesting of the context. *)
Theorem Struct_bytes_roundtrip (nm : option string) (names : list string)
    (subcons : list Construct) (nested allow_overwrite : bool)
    (T : Construct) (bs : list byte) (s : State) (o : addr)
    (objc : Container) :
  Forall2 (fun n F => exists e, FormatField (Some n) e "B" = Ok F)
    names subcons ->
  Struct nm subcons nested allow_overwrite = Ok T ->
  NoDup names ->
  length bs = length names ->
  heap s !! o = Some objc ->
  Forall2 (fun n b => Container_get (Some n) objc = Some (VInt (Z_of_byte b)))
    names bs ->
  result (build T (VRef o) None s) = Ok bs /\
  result (sizeof T None s) = Ok (len bs) /\
  exists s',
    parse T bs None s = (Ok (VRef (S (length (heap s)))), s') /\
    heap s' !! S (length (heap s)) = Some (byte_bindings names bs).
Proof.
  intros Hfields HT Hnd Hlen Ho Hobj.
  apply Struct_inv in HT. destruct HT as (Hp & Hb & Hs).
  pose proof (lookup_lt_Some _ _ _ Ho) as Holt.
  assert (Hctx0 : forall c, (heap s ++ [c]) !! length (heap s) = Some c).
  { intros c. rewrite lookup_app_r by apply Nat.le_refl.
    rewrite Nat.sub_diag. reflexivity. }
  split; [|split].
  - unfold build, build_stream, with_stream, bind, new_container, result.
    cbn [heap stream]. rewrite Hb. unfold Struct_build, bind.
    rewrite (ctx_contains_ok _ _ []) by (cbn [heap]; apply Hctx0).
    cbn [Container_contains Container_get].
    change (BytesIO_new []) with (mkBytesIO [] (len (@nil byte))).
    destruct nested.
    + unfold new_container. cbn [stream heap].
      match goal with
      | |- context [Struct_build_loop _ ?c _ (mkState _ ?H)] =>
          destruct (Struct_build_loop_bytes names subcons Hfields bs []
                      H o c objc Hobj)
            as (H' & Hrun & _)
      end.
      * rewrite !lookup_app_l by (rewrite ?length_app; cbn [length]; lia).
        exact Ho.
      * rewrite !length_app. cbn [length]. lia.
      * rewrite length_app. cbn [length]. lia.
      * rewrite Hrun. reflexivity.
    + unfold ret at 1.
      match goal with
      | |- context [Struct_build_loop _ ?c _ (mkState _ ?H)] =>
          destruct (Struct_build_loop_bytes names subcons Hfields bs []
                      H o c objc Hobj)
            as (H' & Hrun & _)
      end.
      * rewrite lookup_app_l by exact Holt. exact Ho.
      * rewrite length_app. cbn [length]. lia.
      * lia.
      * rewrite Hrun. reflexivity.
  - unfold sizeof, bind, new_container, result. rewrite Hs.
    rewrite (Struct_sizeof_bytes names subcons _ _ Hfields).
    cbn [fst]. f_equal. unfold len. lia.
  - unfold parse, parse_stream, with_stream, bind, new_container.
    cbn [heap stream]. rewrite Hp. unfold Struct_parse, bind.
    rewrite (ctx_contains_ok _ _ []) by (cbn [heap]; apply Hctx0).
    cbn [Container_contains Container_get].
    unfold new_container. cbn [stream heap].
    assert (Hobj0 : forall X,
              (((heap s ++ [[]]) ++ [[]]) ++ X) !! S (length (heap s))
              = Some (@nil (key * value))).
    { intros X. rewrite lookup_app_l by (rewrite !length_app; cbn [length]; lia).
      rewrite lookup_app_r by (rewrite length_app; cbn [length]; lia).
      rewrite length_app. cbn [length].
      replace (S (length (heap s)) - (length (heap s) + 1))%nat with 0%nat
        by lia.
      reflexivity. }
    replace (length (heap s ++ [[]])) with (S (length (heap s)))
      by (rewrite length_app; cbn [length]; lia).
    change (BytesIO_new bs) with (mkBytesIO bs (len (@nil byte))).
    destruct nested.
    + unfold ret at 1. cbn [stream heap fst snd].
      match goal with
      | |- context [Struct_parse_loop _ _ ?c _ (mkState _ ?H)] =>
          destruct (Struct_parse_loop_bytes allow_overwrite names subcons
                      Hfields Hnd bs [] [] H (S (length (heap s))) c [] Hlen)
            as (H' & Hrun & Ha' & _)
      end.
      * apply Hobj0.
      * rewrite !length_app. cbn [length]. lia.
      * rewrite !length_app. cbn [length]. lia.
      * reflexivity.
      * rewrite app_nil_r in Hrun. cbn [app] in Hrun.
        rewrite Hrun.
        eexists. split; [reflexivity|]. cbn [heap]. exact Ha'.
    + unfold ret at 1. cbn [stream heap fst snd].
      match goal with
      | |- context [Struct_parse_loop _ _ ?c _ (mkState _ ?H)] =>
          destruct (Struct_parse_loop_bytes allow_overwrite names subcons
                      Hfields Hnd bs [] [] H (S (length (heap s))) c [] Hlen)
            as (H' & Hrun & Ha' & _)
      end.
      * rewrite <- (app_nil_r ((heap s ++ [[]]) ++ [[]])). apply Hobj0.
      * rewrite !length_app. cbn [length]. lia.
      * lia.
      * reflexivity.
      * rewrite app_nil_r in Hrun. cbn [app] in Hrun.
        rewrite Hrun.
        eexists. split; [reflexivity|]. cbn [heap]. exact Ha'.
Qed.

Lemma Struct_bytes_roundtrip_witness :
  exists A B T,
    UBInt8 (Some "a"%string) = Ok A /\
    UBInt8 (Some "b"%string) = Ok B /\
    Struct (Some "foo"%string) [A; B] true false = Ok T /\
    let s := mkState (BytesIO_new [])
               [[(Some "a"%string, VInt 1); (Some "b"%string, VInt 2)]] in
    result (build T (VRef 0%nat) None s) = Ok [x01; x02] /\
    exists s',
      parse T [x01; x02] None s = (Ok (VRef 2%nat), s') /\
      heap s' !! 2%nat =
        Some [(Some "a"%string, VInt 1); (Some "b"%string, VInt 2)].
Proof.
  eexists _, _, _.
  split; [reflexivity|]. split; [reflexivity|].
  match goal with
  | |- Struct _ ?L _ _ = _ /\ _ =>
      split; [reflexivity|]; cbv zeta;
      match goal with
      | |- result (build ?T0 _ _ ?s0) = _ /\ _ =>
          destruct (Struct_bytes_roundtrip (Some "foo"%string)
                      ["a"; "b"]%string L true false T0 [x01; x02] s0 0%nat
                      [(Some "a"%string, VInt 1); (Some "b"%string, VInt 2)])
            as (Hb & _ & Hp)
      end
  end.
  - constructor; [exists ">"%string; reflexivity|].
    constructor; [exists ">"%string; reflexivity|]. constructor.
  - reflexivity.
  - constructor.
    + intros Hin. apply list_elem_of_singleton in Hin. discriminate Hin.
    + constructor; [|constructor].
      intros Hin. apply elem_of_nil in Hin. exact Hin.
  - reflexivity.
  - reflexivity.
  - constructor; [reflexivity|]. constructor; [reflexivity|]. constructor.
  - split; [exact Hb | exact Hp].
Defined.

(** ** Unterminated strings *)

Lemma CString_parse_loop_unterminated (terminators payload : list byte) :
  Forall (fun b => b ∉ terminators) payload ->
  forall (fuel : nat) (pre acc : list byte) (h : Heap),
    (length payload < fuel)%nat ->
    result (CString_parse_loop terminators fuel acc
              (mkState (mkBytesIO (pre ++ payload) (len pre)) h)) =
    Raise FieldError.
Proof.
  induction 1 as [|b payload Hb Hfree IH]; intros fuel pre acc h Hfuel.
  - destruct fuel as [|fuel]; [cbn in Hfuel; lia|].
    cbn [CString_parse_loop]. unfold bind, result.
    rewrite app_nil_r.
    pose proof (_read_stream_eof 1 (mkState (mkBytesIO pre (len pre)) h)
                  ltac:(lia) (len_nonneg pre)) as Hr.
    cbn [stream buffer position] in Hr. specialize (Hr ltac:(lia)).
    unfold result in Hr.
    destruct (_read_stream 1 _) as [r s']. cbn [fst] in Hr. subst r.
    reflexivity.
  - destruct fuel as [|fuel]; [cbn in Hfuel; lia|].
    cbn [CString_parse_loop]. unfold bind.
    rewrite <- (app_nil_r payload) at 1.
    change (pre ++ (b :: payload) ++ [])
      with (pre ++ b :: payload ++ []).
    rewrite read_one_at, bytes_contains_single.
    rewrite bool_decide_eq_false_2 by exact Hb.
    rewrite app_nil_r.
    replace (pre ++ b :: payload) with ((pre ++ [b]) ++ payload)
      by (rewrite <- app_assoc; reflexivity).
    apply IH. cbn in Hfuel. lia.
Qed.

(** X26 (core.py, [CString._parse]): a stream that ends before any
    terminator byte has been seen makes the string fail with [FieldError];
    the bytes read so far are not returned. *)
Theorem CString_unterminated (terminators : list byte)
    (encoding : option Codec) (nm : option string) (f : Construct)
    (payload : list byte) (s : State) :
  CString terminators encoding nm = Ok f ->
  Forall (fun b => b ∉ terminators) payload ->
  result (parse f payload None s) = Raise FieldError.
Proof.
  unfold CString. destruct (len terminators <? 1); [discriminate|].
  destruct (Construct__init__ nm) as [[]|]; [|discriminate].
  cbn [obind]. intros [= <-] Hfree.
  unfold parse, parse_stream, with_stream, bind, new_container, result.
  cbn [_parse heap stream]. unfold CString_parse, bind.
  pose proof (CString_parse_loop_unterminated terminators payload Hfree
                (S (length payload)) [] [] (heap s ++ [[]])
                ltac:(lia)) as Hrun.
  cbn [app] in Hrun.
  change (mkBytesIO payload (len [])) with (BytesIO_new payload) in Hrun.
  unfold bytes_left. cbn [stream buffer position BytesIO_new].
  change (Z.to_nat 0) with 0%nat. rewrite Nat.sub_0_r.
  unfold result in Hrun.
  destruct (CString_parse_loop _ _ _ _) as [r s']. cbn [fst] in Hrun.
  subst r. reflexivity.
Qed.

Lemma CString_unterminated_witness :
  exists f,
    CString [x00] None None = Ok f /\
    result (parse f ["h"; "i"]%byte None empty_state) = Raise FieldError.
Proof.
  eexists. split; [reflexivity|].
  match goal with
  | |- result (parse ?F _ _ _) = _ =>
      apply (CString_unterminated [x00] None None F ["h"; "i"]%byte
               empty_state eq_refl)
  end.
  constructor.
  - intros Hin. apply list_elem_of_singleton in Hin. discriminate Hin.
  - constructor; [|constructor].
    intros Hin. apply list_elem_of_singleton in Hin. discriminate Hin.
Defined.

(** ** Duplicate names in a struct *)

(** X27 (core.py, [Struct._parse]): when two single-byte fields of a
    struct have the same name, parsing raises [OverwriteError] at the
    second field, unless the struct allows overwriting; then the name is
    bound once, to the second value. *)
Theorem Struct_duplicate_name (nm : option string) (n e1 e2 : string)
    (A B T : Construct) (nested allow_overwrite : bool) (b1 b2 : byte)
    (s : State) :
  FormatField (Some n) e1 "B" = Ok A ->
  FormatField (Some n) e2 "B" = Ok B ->
  Struct nm [A; B] nested allow_overwrite = Ok T ->
  let r := parse T [b1; b2] None s in
  if allow_overwrite then
    result r = Ok (VRef (S (length (heap s)))) /\
    heap (snd r) !! S (length (heap s)) = Some [(Some n, VInt (Z_of_byte b2))]
  else result r = Raise OverwriteError.
Proof.
  intros HA HB HT r.
  assert (Hmain : exists s1,
            parse T [b1; b2] None s =
              (if allow_overwrite then Ok (VRef (S (length (heap s))))
               else Raise OverwriteError, s1) /\
            (allow_overwrite = true ->
             heap s1 !! S (length (heap s)) =
               Some [(Some n, VInt (Z_of_byte b2))])).
  2:{ destruct Hmain as (s1 & Hrun & Hh). unfold r, result. rewrite Hrun.
      destruct allow_overwrite; cbn [fst snd]; [|reflexivity].
      split; [reflexivity | apply Hh; reflexivity]. }
  clear r.
  apply named_byte_field_inv in HA.
  destruct HA as (HAn & _ & HAf & _ & o1 & HAp & _).
  apply named_byte_field_inv in HB.
  destruct HB as (HBn & _ & HBf & _ & o2 & HBp & _).
  apply Struct_inv in HT. destruct HT as (Hp & _ & _).
  assert (Hctx0 : forall c, (heap s ++ [c]) !! length (heap s) = Some c).
  { intros c. rewrite lookup_app_r by apply Nat.le_refl.
    rewrite Nat.sub_diag. reflexivity. }
  unfold parse, parse_stream, with_stream, bind, new_container.
  cbn [heap stream]. rewrite Hp. unfold Struct_parse, bind.
  rewrite (ctx_contains_ok _ _ []) by (cbn [heap]; apply Hctx0).
  cbn [Container_contains Container_get].
  unfold new_container. cbn [stream heap].
  replace (length (heap s ++ [[]])) with (S (length (heap s)))
    by (rewrite length_app; cbn [length]; lia).
  change (BytesIO_new [b1; b2])
    with (mkBytesIO ([] ++ b1 :: [b2]) (len (@nil byte))).
  assert (Hloop : forall (H : Heap) (inner : addr),
            H !! S (length (heap s)) = Some [] ->
            (inner < length H)%nat ->
            S (length (heap s)) <> inner ->
            exists s1,
              Struct_parse_loop allow_overwrite
                (VRef (S (length (heap s)))) inner [A; B]
                (mkState (mkBytesIO ([] ++ b1 :: [b2]) (len (@nil byte))) H) =
                (if allow_overwrite then Ok tt else Raise OverwriteError, s1) /\
              (allow_overwrite = true ->
               heap s1 !! S (length (heap s)) =
                 Some [(Some n, VInt (Z_of_byte b2))])).
  { intros H inner Ha Hinner Hne.
    cbn [Struct_parse_loop]. unfold bind at 1.
    unfold Struct_parse_sub at 1, _is_flag. rewrite HAf.
    change (negb (Z.land 0 FLAG_EMBED =? 0)) with false. cbv iota.
    unfold bind at 1. rewrite HAp, byte_field_parse. rewrite HAn.
    unfold bind at 1, obj_contains.
    rewrite (ctx_contains_ok _ (Some n) []) by exact Ha.
    cbn [Container_contains Container_get andb].
    unfold bind at 1, obj_setitem.
    rewrite (ctx_setitem_ok _ (Some n) _ []) by exact Ha.
    cbn [stream heap Container_set].
    destruct (lookup_lt_is_Some_2
                (<[S (length (heap s)) := [(Some n, VInt (Z_of_byte b1))]]> H)
                inner) as (innerc & Hic).
    { rewrite length_insert. exact Hinner. }
    rewrite (ctx_setitem_ok inner (Some n) _ innerc) by exact Hic.
    cbn [stream heap].
    set (H1 := <[inner := Container_set (Some n) (VInt (Z_of_byte b1)) innerc]>
                 (<[S (length (heap s)) := [(Some n, VInt (Z_of_byte b1))]]> H)).
    assert (Ha1 : H1 !! S (length (heap s)) =
                  Some [(Some n, VInt (Z_of_byte b1))]).
    { unfold H1. rewrite list_lookup_insert_ne
        by (intros E; apply Hne; symmetry; exact E).
      apply list_lookup_insert_eq. apply lookup_lt_Some in Ha. exact Ha. }
    unfold bind at 1.
    unfold Struct_parse_sub at 1, _is_flag. rewrite HBf.
    change (negb (Z.land 0 FLAG_EMBED =? 0)) with false. cbv iota.
    unfold bind at 1. rewrite HBp.
    change ([] ++ b1 :: [b2]) with ([b1] ++ b2 :: []).
    change (len ([] ++ [b1])) with (len [b1]).
    rewrite byte_field_parse. rewrite HBn.
    unfold bind at 1, obj_contains.
    rewrite (ctx_contains_ok _ (Some n) [(Some n, VInt (Z_of_byte b1))])
      by exact Ha1.
    unfold Container_contains. cbn [Container_get].
    rewrite bool_decide_eq_true_2 by reflexivity. cbn [andb].
    destruct allow_overwrite; cbn [negb].
    - unfold bind at 1, obj_setitem.
      rewrite (ctx_setitem_ok _ (Some n) _ [(Some n, VInt (Z_of_byte b1))])
        by exact Ha1.
      cbn [stream heap Container_set].
      rewrite bool_decide_eq_true_2 by reflexivity.
      destruct (lookup_lt_is_Some_2
                  (<[S (length (heap s)) := [(Some n, VInt (Z_of_byte b2))]]> H1)
                  inner) as (innerc2 & Hic2).
      { unfold H1. rewrite !length_insert. exact Hinner. }
      rewrite (ctx_setitem_ok inner (Some n) _ innerc2) by exact Hic2.
      cbn [stream heap Struct_parse_loop]. unfold bind, ret.
      eexists. split; [reflexivity|]. intros _. cbn [heap].
      rewrite list_lookup_insert_ne
        by (intros E; apply Hne; symmetry; exact E).
      apply list_lookup_insert_eq. unfold H1. rewrite !length_insert.
      apply lookup_lt_Some in Ha. exact Ha.
    - eexists. split; [reflexivity|]. discriminate. }
  assert (Hobj0 : forall X,
            (((heap s ++ [[]]) ++ [[]]) ++ X) !! S (length (heap s))
            = Some (@nil (key * value))).
  { intros X. rewrite lookup_app_l by (rewrite !length_app; cbn [length]; lia).
    rewrite lookup_app_r by (rewrite length_app; cbn [length]; lia).
    rewrite length_app. cbn [length].
    replace (S (length (heap s)) - (length (heap s) + 1))%nat with 0%nat
      by lia.
    reflexivity. }
  destruct nested.
  - unfold ret at 1. cbn [stream heap fst snd].
    match goal with
    | |- context [Struct_parse_loop _ _ ?c _ (mkState _ ?H)] =>
        destruct (Hloop H c) as (s1 & Hrun & Hh)
    end.
    + apply Hobj0.
    + rewrite !length_app. cbn [length]. lia.
    + rewrite !length_app. cbn [length]. lia.
    + rewrite Hrun. exists (mkState (stream s) (heap s1)).
      destruct allow_overwrite; (split; [reflexivity | exact Hh]).
  - unfold ret at 1. cbn [stream heap fst snd].
    match goal with
    | |- context [Struct_parse_loop _ _ ?c _ (mkState _ ?H)] =>
        destruct (Hloop H c) as (s1 & Hrun & Hh)
    end.
    + rewrite <- (app_nil_r ((heap s ++ [[]]) ++ [[]])). apply Hobj0.
    + rewrite !length_app. cbn [length]. lia.
    + lia.
    + rewrite Hrun. exists (mkState (stream s) (heap s1)).
      destruct allow_overwrite; (split; [reflexivity | exact Hh]).
Qed.

Lemma Struct_duplicate_name_witness :
  exists A B T,
    UBInt8 (Some "x"%string) = Ok A /\
    UBInt8 (Some "x"%string) = Ok B /\
    Struct None [A; B] true false = Ok T /\
    result (parse T [x01; x02] None empty_state) = Raise OverwriteError.
Proof.
  eexists _, _, _.
  split; [reflexivity|]. split; [reflexivity|].
  match goal with
  | |- Struct _ [?A0; ?B0] _ _ = _ /\ _ =>
      split; [reflexivity|];
      match goal with
      | |- result (parse ?T0 _ _ _) = _ =>
          exact (Struct_duplicate_name None "x" ">" ">" A0 B0 T0 true false
                   x01 x02 empty_state eq_refl eq_refl eq_refl)
      end
  end.
Defined.
